(** * Document vault: the password-based encryption core

    A shallow embedding of the two modules under [src/utils]:
    - encryption: [encryptBuffer], [encryptBufferRaw], [encryptFile],
      [encryptFileStream] (src/unnamed/part_001), [deriveKey]
      (src/src/utils/encryption/key.ts) and the helpers of
      src/src/utils/encryption/utils.ts;
    - decryption: [decryptBuffer], [decryptBufferRaw], [decryptFile],
      [decryptFileStream] (src/unnamed/part_005), [deriveKey]
      (src/unnamed/part_002), and [validatePayload] with the helpers of
      src/src/utils/decryption/utils.ts, constants.ts and types.ts;
    and of the parts of the Node.js runtime they call (Buffer base-64,
    crypto, fs, path).  JavaScript code that throws, draws random bytes,
    mutates Buffers or touches the file system is written in a
    state-and-exception monad over an explicit [World]. *)

From Stdlib Require Import ZArith NArith String Ascii List Lia DecimalString.
From Stdlib.Strings Require Import Byte.
From stdpp Require Import base option list gmap strings.

Open Scope string_scope.
Open Scope nat_scope.
Open Scope list_scope.

(** ** Bytes and Buffers *)

(** A Node [Buffer] is a sequence of octets. *)
Abbreviation Buffer := (list byte).

#[global] Instance byte_eq_decision : EqDecision byte := Byte.byte_eq_dec.

(** The octet with value [n mod 256]. *)
Definition byte_of_N (n : N) : byte :=
  match Byte.of_N (n mod 256) with
  | Some b => b
  | None => x00
  end.

(** Bitwise exclusive or of two octets. *)
Definition byte_xor (a b : byte) : byte :=
  match Byte.to_bits a, Byte.to_bits b with
  | (a0, (a1, (a2, (a3, (a4, (a5, (a6, a7))))))),
    (b0, (b1, (b2, (b3, (b4, (b5, (b6, b7))))))) =>
      Byte.of_bits (xorb a0 b0, (xorb a1 b1, (xorb a2 b2, (xorb a3 b3,
                   (xorb a4 b4, (xorb a5 b5, (xorb a6 b6, xorb a7 b7)))))))
  end.

(** [Buffer.fill(0)]: every octet of the buffer becomes zero. *)
Definition fill0 (b : Buffer) : Buffer := repeat x00 (length b).

(** JavaScript strings are modelled by [string]; a character stands for the
    code unit of the same number (U+0000 to U+00FF).  [utf8] is the UTF-8
    encoding Node applies when a string is used as bytes. *)
Definition utf8_char (c : ascii) : Buffer :=
  let n := N_of_ascii c in
  if (n <? 128)%N then [byte_of_N n]
  else [byte_of_N (192 + n / 64); byte_of_N (128 + n mod 64)].

Fixpoint utf8 (s : string) : Buffer :=
  match s with
  | EmptyString => []
  | String c s' => utf8_char c ++ utf8 s'
  end.

(** [String.prototype.includes]. *)
Fixpoint includes (s needle : string) : bool :=
  String.prefix needle s ||
  match s with
  | EmptyString => false
  | String _ s' => includes s' needle
  end.

(** Decimal rendering of a number inside a template string. *)
Definition show_nat (n : nat) : string := NilEmpty.string_of_uint (Nat.to_uint n).

(** A [number] field such as [version] is modelled as an integer, and
    printed with all its digits.  JavaScript does so for integers below
    10^21 in absolute value and switches to exponent notation from there, so
    for such values only the text of a message differs, not its error
    code. *)
Definition show_Z (z : Z) : string := NilZero.string_of_int (Z.to_int z).

(** [String.prototype.toLowerCase] on the code units U+0000 to U+00FF: the
    letters A to Z and the capital letters of Latin-1 (U+00C0 to U+00DE
    without the multiplication sign U+00D7) move up by 32. *)
Definition toLowerCase_char (c : ascii) : ascii :=
  let n := N_of_ascii c in
  if ((65 <=? n) && (n <=? 90) || (192 <=? n) && (n <=? 222) && negb (n =? 215))%N
  then ascii_of_N (n + 32)
  else c.

Fixpoint toLowerCase (s : string) : string :=
  match s with
  | EmptyString => EmptyString
  | String c s' => String (toLowerCase_char c) (toLowerCase s')
  end.

(** ** Base-64 as [Buffer.toString("base64")] and [Buffer.from(s, "base64")] *)

Module Base64.

(** The character of a six-bit value in the standard alphabet. *)
Definition b64_char (n : N) : ascii :=
  if (n <? 26)%N then ascii_of_N (65 + n)
  else if (n <? 52)%N then ascii_of_N (71 + n)
  else if (n <? 62)%N then ascii_of_N (n - 4)
  else if (n =? 62)%N then "+"%char
  else "/"%char.

(** The six-bit value of a character; Node's decoder also accepts the
    URL-safe [-] and [_]. *)
Definition unbase64 (c : ascii) : option N :=
  let n := N_of_ascii c in
  if (65 <=? n)%N && (n <=? 90)%N then Some (n - 65)%N
  else if (97 <=? n)%N && (n <=? 122)%N then Some (n - 71)%N
  else if (48 <=? n)%N && (n <=? 57)%N then Some (n + 4)%N
  else if (n =? 43)%N || (n =? 45)%N then Some 62%N
  else if (n =? 47)%N || (n =? 95)%N then Some 63%N
  else None.

(** Encoder: three octets give four characters, the tail is padded with [=]. *)
Fixpoint encode (bs : Buffer) : string :=
  match bs with
  | [] => ""
  | [a] =>
      let x := Byte.to_N a in
      String (b64_char (x / 4)) (String (b64_char ((x mod 4) * 16)) "==")
  | [a; b] =>
      let x := Byte.to_N a in
      let y := Byte.to_N b in
      String (b64_char (x / 4))
        (String (b64_char ((x mod 4) * 16 + y / 16))
           (String (b64_char ((y mod 16) * 4)) "="))
  | a :: b :: c :: rest =>
      let x := Byte.to_N a in
      let y := Byte.to_N b in
      let z := Byte.to_N c in
      String (b64_char (x / 4))
        (String (b64_char ((x mod 4) * 16 + y / 16))
           (String (b64_char ((y mod 16) * 4 + z / 64))
              (String (b64_char (z mod 64)) (encode rest))))
  end.

(** Decoder, first pass: characters outside the alphabet are skipped and the
    first [=] ends the input. *)
Fixpoint sextets (s : string) : list N :=
  match s with
  | EmptyString => []
  | String c s' =>
      if Ascii.eqb c "="%char then []
      else match unbase64 c with
           | Some n => n :: sextets s'
           | None => sextets s'
           end
  end.

(** Decoder, second pass: four six-bit values give three octets; a tail of
    two or three values gives one or two octets, a single value none. *)
Fixpoint bytes_of_sextets (l : list N) : Buffer :=
  match l with
  | s1 :: s2 :: s3 :: s4 :: rest =>
      byte_of_N (s1 * 4 + s2 / 16)
        :: byte_of_N ((s2 mod 16) * 16 + s3 / 4)
        :: byte_of_N ((s3 mod 4) * 64 + s4)
        :: bytes_of_sextets rest
  | [s1; s2; s3] =>
      [byte_of_N (s1 * 4 + s2 / 16); byte_of_N ((s2 mod 16) * 16 + s3 / 4)]
  | [s1; s2] => [byte_of_N (s1 * 4 + s2 / 16)]
  | _ => []
  end%N.

Definition decode (s : string) : Buffer := bytes_of_sextets (sextets s).

(** The character of a six-bit value in the URL-safe alphabet of
    [Buffer.toString("base64url")]. *)
Definition b64url_char (n : N) : ascii :=
  if (n <? 26)%N then ascii_of_N (65 + n)
  else if (n <? 52)%N then ascii_of_N (71 + n)
  else if (n <? 62)%N then ascii_of_N (n - 4)
  else if (n =? 62)%N then "-"%char
  else "_"%char.

(** The URL-safe encoder: the same six-bit values, and no padding. *)
Fixpoint encode_url (bs : Buffer) : string :=
  match bs with
  | [] => ""
  | [a] =>
      let x := Byte.to_N a in
      String (b64url_char (x / 4)) (String (b64url_char ((x mod 4) * 16)) "")
  | [a; b] =>
      let x := Byte.to_N a in
      let y := Byte.to_N b in
      String (b64url_char (x / 4))
        (String (b64url_char ((x mod 4) * 16 + y / 16))
           (String (b64url_char ((y mod 16) * 4)) ""))
  | a :: b :: c :: rest =>
      let x := Byte.to_N a in
      let y := Byte.to_N b in
      let z := Byte.to_N c in
      String (b64url_char (x / 4))
        (String (b64url_char ((x mod 4) * 16 + y / 16))
           (String (b64url_char ((y mod 16) * 4 + z / 64))
              (String (b64url_char (z mod 64)) (encode_url rest))))
  end.

End Base64.

(** ** Hexadecimal as [Buffer.toString("hex")] and [Buffer.from(s, "hex")] *)

Module Hex.

Definition hex_char (n : N) : ascii :=
  if (n <? 10)%N then ascii_of_N (48 + n) else ascii_of_N (87 + n).

(** The value of a hexadecimal digit, in either case. *)
Definition unhex (c : ascii) : option N :=
  let n := N_of_ascii c in
  if (48 <=? n)%N && (n <=? 57)%N then Some (n - 48)%N
  else if (97 <=? n)%N && (n <=? 102)%N then Some (n - 87)%N
  else if (65 <=? n)%N && (n <=? 70)%N then Some (n - 55)%N
  else None.

(** Encoder: two lower-case digits for each octet. *)
Fixpoint encode (bs : Buffer) : string :=
  match bs with
  | [] => ""
  | b :: rest =>
      let x := Byte.to_N b in
      String (hex_char (x / 16)) (String (hex_char (x mod 16)) (encode rest))
  end.

(** Decoder: one octet for each pair of digits; the result ends at the first
    pair that is not two digits, and a single digit at the end is dropped. *)
Fixpoint decode (s : string) : Buffer :=
  match s with
  | String a (String b rest) =>
      match unhex a, unhex b with
      | Some x, Some y => byte_of_N (x * 16 + y) :: decode rest
      | _, _ => []
      end
  | _ => []
  end.

End Hex.

(** ** The runtime's cryptographic primitives

    The source calls Node's [crypto] module for PBKDF2-HMAC-SHA256,
    AES-256-GCM and random bytes.  The three functions below are the parts of
    those algorithms that are kept abstract: the compression of a message to
    a 32-octet digest, the AES counter-mode key stream and the GCM tag, each
    given octet by octet so that the lengths (32 and 16) hold by
    construction. *)
Class Primitives := {
  (** octet [i] of the SHA-256 digest of a message *)
  sha256_octet : Buffer → nat → byte;
  (** octet [i] of the AES-256 counter-mode key stream of a key and an IV *)
  aes256_keystream : Buffer → Buffer → nat → byte;
  (** octet [i] of the GCM tag of a ciphertext under a key and an IV *)
  gcm_tag_octet : Buffer → Buffer → Buffer → nat → byte
}.

(** ** Errors (types.ts) *)

Inductive DecryptionErrorCode :=
  | WRONG_PASSWORD
  | INTEGRITY_CHECK_FAILED
  | INVALID_FORMAT
  | UNSUPPORTED_VERSION
  | MISSING_FIELDS
  | FILE_ERROR
  | UNKNOWN.

(** What a [throw] carries: the built-in errors and [DecryptionError], which
    extends [Error] with a code. *)
Inductive JsError :=
  | Error (message : string)
  | TypeError (message : string)
  | RangeError (message : string)
  | DecryptionError (message : string) (code : DecryptionErrorCode).

Definition message (e : JsError) : string :=
  match e with
  | Error m | TypeError m | RangeError m | DecryptionError m _ => m
  end.

Definition instanceof_DecryptionError (e : JsError) : bool :=
  match e with
  | DecryptionError _ _ => true
  | _ => false
  end.

(** ** The world a call runs in *)

(** A file-system entry: a regular file with its content and whether the
    process may read it, or a directory. *)
Inductive Node :=
  | File (content : Buffer) (readable : bool)
  | Dir.

(** Instrumentation: what a call-counter on [deriveKey] and a progress
    callback would record. *)
Inductive Event :=
  | EvDeriveKey
  | EvProgress (bytesProcessed totalBytes : nat).

Record World := mkWorld {
  (** the octets [crypto.randomBytes] will return next *)
  entropy : nat → byte;
  (** the file system, by path *)
  files : gmap string Node;
  (** the Buffers that hold derived keys, by reference *)
  heap : list Buffer;
  (** the instrumentation log, oldest event first *)
  trace : list Event
}.

Definition set_entropy (f : nat → byte) (w : World) : World :=
  mkWorld f (files w) (heap w) (trace w).
Definition set_files (f : gmap string Node) (w : World) : World :=
  mkWorld (entropy w) f (heap w) (trace w).
Definition set_heap (h : list Buffer) (w : World) : World :=
  mkWorld (entropy w) (files w) h (trace w).
Definition set_trace (t : list Event) (w : World) : World :=
  mkWorld (entropy w) (files w) (heap w) t.

(** ** JavaScript computations: state and exceptions *)

Inductive Completion (A : Type) :=
  | Normal (a : A)
  | Throw (e : JsError).
Arguments Normal {A} a.
Arguments Throw {A} e.

Definition JS (A : Type) : Type := World → Completion A * World.

Definition ret {A} (a : A) : JS A := λ w, (Normal a, w).

Definition throw {A} (e : JsError) : JS A := λ w, (Throw e, w).

Definition bind {A B} (m : JS A) (k : A → JS B) : JS B :=
  λ w, match m w with
       | (Normal a, w') => k a w'
       | (Throw e, w') => (Throw e, w')
       end.

Notation "'let*' x ':=' m 'in' k" := (bind m (λ x, k))
  (at level 10, x pattern, m at level 100, k at level 200).

(** [try { body } catch (error) { handler }]. *)
Definition try_catch {A} (body : JS A) (handler : JsError → JS A) : JS A :=
  λ w, match body w with
       | (Normal a, w') => (Normal a, w')
       | (Throw e, w') => handler e w'
       end.

(** [try { body } finally { fin }]: [fin] runs however [body] completes, and
    the completion of [body] stands unless [fin] throws. *)
Definition try_finally {A} (body : JS A) (fin : JS unit) : JS A :=
  λ w, match body w with
       | (r, w') =>
           match fin w' with
           | (Normal _, w'') => (r, w'')
           | (Throw e, w'') => (Throw e, w'')
           end
       end.

(** A property read that the code follows with a use as a string or a
    Buffer: on [undefined] the use throws. *)
Definition prop {A} (name : string) (o : option A) : JS A :=
  match o with
  | Some v => ret v
  | None => throw (TypeError ("Cannot read properties of undefined (reading '" +:+ name +:+ "')"))
  end.

(** The completion of a computation as a value: how an event handler sees
    the failure of the step it listens to. *)
Definition attempt {A} (m : JS A) : JS (Completion A) :=
  λ w, match m w with (r, w') => (Normal r, w') end.

Definition record (e : Event) : JS unit :=
  λ w, (Normal tt, set_trace (trace w ++ [e]) w).

(** Buffers that the code mutates are held by reference. *)
Definition allocBuffer (b : Buffer) : JS nat :=
  λ w, (Normal (length (heap w)), set_heap (heap w ++ [b]) w).

Definition readBuffer (r : nat) : JS Buffer :=
  λ w, (Normal (default [] (heap w !! r)), w).

(** [buffer.fill(0)] on a referenced Buffer. *)
Definition fillBuffer (r : nat) : JS unit :=
  λ w, (Normal tt, set_heap (alter fill0 r (heap w)) w).

(** ** Node's [crypto] module, as far as the source uses it *)

Module Crypto.
Section with_primitives.
Context `{Primitives}.

(** [crypto.randomBytes(n)]: the next [n] octets of the entropy source. *)
Definition randomBytes (n : nat) : JS Buffer :=
  λ w, (Normal (map (entropy w) (seq 0 n)),
        set_entropy (λ i, entropy w (n + i)) w).

Definition sha256 (m : Buffer) : Buffer := map (sha256_octet m) (seq 0 32).

(** HMAC (RFC 2104) with SHA-256: a key longer than the 64-octet block is
    hashed first, and the key is then padded with zero octets to the block. *)
Definition hmac_block_key (key : Buffer) : Buffer :=
  let k := if 64 <? length key then sha256 key else key in
  k ++ repeat x00 (64 - length k).

Definition hmac_sha256 (key msg : Buffer) : Buffer :=
  let k := hmac_block_key key in
  sha256 (map (byte_xor x5c) k ++ sha256 (map (byte_xor x36) k ++ msg)).

(** The block index of PBKDF2 as four octets, most significant first. *)
Definition be32 (i : N) : Buffer :=
  [byte_of_N (i / 16777216); byte_of_N (i / 65536); byte_of_N (i / 256); byte_of_N i].

Definition xor_buffers (a b : Buffer) : Buffer := zip_with byte_xor a b.

(** PBKDF2 (RFC 8018), block [i]: the exclusive or of [c] chained HMACs. *)
Definition pbkdf2_block (P S : Buffer) (c i : N) : Buffer :=
  let U1 := hmac_sha256 P (S ++ be32 i) in
  fst (N.iter (c - 1)
         (λ tu, let u' := hmac_sha256 P (snd tu) in (xor_buffers (fst tu) u', u'))
         (U1, U1)).

(** [crypto.pbkdf2(password, salt, iterations, keylen, "sha256")]: the first
    [keylen] octets of the blocks 1, 2, ...; a string password is used as its
    UTF-8 octets. *)
Definition pbkdf2 (password : string) (salt : Buffer) (iterations : N)
    (keylen : nat) : Buffer :=
  take keylen
    (concat (map (λ i, pbkdf2_block (utf8 password) salt iterations (N.of_nat (S i)))
                 (seq 0 ((keylen + 31) / 32)))).

(** Counter mode: octet [i] of the data is combined with octet [offset + i]
    of the key stream. *)
Definition ctr_xor (key iv : Buffer) (offset : nat) (data : Buffer) : Buffer :=
  imap (λ i b, byte_xor b (aes256_keystream key iv (offset + i))) data.

Definition gcm_tag (key iv cipherBytes : Buffer) : Buffer :=
  map (gcm_tag_octet key iv cipherBytes) (seq 0 16).

(** The longest IV that OpenSSL 3 (Node.js 17 and later) accepts for GCM
    when the IV length is set: 128 octets. *)
Definition GCM_IV_MAX_SIZE : nat := 128.

(** The checks [createCipheriv] and [createDecipheriv] make for
    ["aes-256-gcm"]: a 32-octet key, then an IV that is not empty and that
    the cipher accepts (at most [GCM_IV_MAX_SIZE] octets). *)
Definition check_key_iv (key iv : Buffer) : JS unit :=
  if bool_decide (length key = 32) then
    if bool_decide (length iv = 0) then
      throw (TypeError "Invalid initialization vector")
    else if bool_decide (GCM_IV_MAX_SIZE < length iv) then
      throw (TypeError "Invalid initialization vector")
    else ret tt
  else throw (RangeError "Invalid key length").

(** A cipher object: it copies the key, and remembers the ciphertext it has
    produced so far. *)
Record Cipher := mkCipher {
  cipher_key : Buffer;
  cipher_iv : Buffer;
  cipher_out : Buffer
}.

Definition createCipheriv (key iv : Buffer) : JS Cipher :=
  let* _ := check_key_iv key iv in
  ret (mkCipher key iv []).

(** [cipher.update(data)]: the cipher afterwards, and the ciphertext of [data]. *)
Definition cipher_update (c : Cipher) (data : Buffer) : Cipher * Buffer :=
  let out := ctr_xor (cipher_key c) (cipher_iv c) (length (cipher_out c)) data in
  (mkCipher (cipher_key c) (cipher_iv c) (cipher_out c ++ out), out).

(** [cipher.final()]: GCM has no buffered block left. *)
Definition cipher_final (c : Cipher) : Buffer := [].

Definition getAuthTag (c : Cipher) : Buffer :=
  gcm_tag (cipher_key c) (cipher_iv c) (cipher_out c).

(** A decipher object: key, IV, the tag set for verification and the
    ciphertext consumed so far. *)
Record Decipher := mkDecipher {
  decipher_key : Buffer;
  decipher_iv : Buffer;
  decipher_tag : option Buffer;
  decipher_in : Buffer
}.

Definition createDecipheriv (key iv : Buffer) : JS Decipher :=
  let* _ := check_key_iv key iv in
  ret (mkDecipher key iv None []).

(** [decipher.setAuthTag(tag)] with [authTagLength: 16]. *)
Definition setAuthTag (d : Decipher) (tag : Buffer) : JS Decipher :=
  if bool_decide (length tag = 16) then
    ret (mkDecipher (decipher_key d) (decipher_iv d) (Some tag) (decipher_in d))
  else
    throw (TypeError ("Invalid authentication tag length: " +:+ show_nat (length tag))).

(** [decipher.update(data)]: plaintext octets leave the decipher at once,
    before the tag is checked. *)
Definition decipher_update (d : Decipher) (data : Buffer) : Decipher * Buffer :=
  let out := ctr_xor (decipher_key d) (decipher_iv d) (length (decipher_in d)) data in
  (mkDecipher (decipher_key d) (decipher_iv d) (decipher_tag d) (decipher_in d ++ data),
   out).

(** [decipher.final()]: throws unless the tag that was set is the tag of the
    ciphertext consumed. *)
Definition decipher_final (d : Decipher) : JS Buffer :=
  match decipher_tag d with
  | Some t =>
      if bool_decide (t = gcm_tag (decipher_key d) (decipher_iv d) (decipher_in d))
      then ret []
      else throw (Error "Unsupported state or unable to authenticate data")
  | None => throw (Error "Unsupported state or unable to authenticate data")
  end.

End with_primitives.

(** [crypto.timingSafeEqual(a, b)]: throws on Buffers of different lengths. *)
Definition timingSafeEqual (a b : Buffer) : JS bool :=
  if bool_decide (length a = length b) then ret (bool_decide (a = b))
  else throw (RangeError "Input buffers must have the same byte length").

End Crypto.

(** ** Node's [path] and [fs] modules, as far as the source uses them

    POSIX paths.  The root ["/"] and the working directory ["."] always
    exist; an operation fails only for the structural reasons written out
    below (a missing entry, a directory where a file is needed or the
    reverse, a file that may not be read). *)

Module Path.

(** The loop of [path.dirname]: from index [i] down to 1, over the
    characters [path[i], path[i-1], ...]; the index of the slash that ends
    the directory part, if there is one. *)
Fixpoint dirname_scan (i : nat) (chars : list ascii) (matchedSlash : bool) : option nat :=
  match i, chars with
  | S i', c :: rest =>
      if Ascii.eqb c "/"%char then
        if matchedSlash then dirname_scan i' rest true else Some i
      else dirname_scan i' rest false
  | _, _ => None
  end.

Definition dirname (path : string) : string :=
  match path with
  | EmptyString => "."
  | String c0 _ =>
      let hasRoot := Ascii.eqb c0 "/"%char in
      match dirname_scan (String.length path - 1)
              (rev (list_ascii_of_string path)) true with
      | None => if hasRoot then "/" else "."
      | Some e => if hasRoot && (e =? 1) then "//" else substring 0 e path
      end
  end.

(** The loop of [path.basename] without a suffix, over the characters
    [path[i], path[i-1], ..., path[0]]: [start] and [end] of the last
    component ([end] is [None] for the -1 of the source).  The list holds
    the characters still to be visited, so its length is [i + 1]. *)
Fixpoint basename_scan (chars : list ascii) (matchedSlash : bool) (end_ : option nat)
    : nat * option nat :=
  match chars with
  | [] => (0, end_)
  | c :: rest =>
      if Ascii.eqb c "/"%char then
        if negb matchedSlash then (length chars, end_)
        else basename_scan rest matchedSlash end_
      else
        match end_ with
        | None => basename_scan rest false (Some (length chars))
        | Some _ => basename_scan rest matchedSlash end_
        end
  end.

Definition basename (path : string) : string :=
  match basename_scan (rev (list_ascii_of_string path)) true None with
  | (_, None) => ""
  | (start, Some e) => substring start (e - start) path
  end.

(** The state of the loop of [path.extname]; [None] is the -1 of the
    source for [startDot] and [end]. *)
Record ExtState := mkExtState {
  startDot : option nat;
  startPart : nat;
  ext_end : option nat;
  ext_matchedSlash : bool;
  preDotState : Z
}.

(** The loop of [path.extname], over [path[i], ..., path[0]]; the list
    holds the characters still to be visited, so [i] is the length of its
    tail. *)
Fixpoint extname_scan (chars : list ascii) (st : ExtState) : ExtState :=
  match chars with
  | [] => st
  | c :: rest =>
      let i := length rest in
      if Ascii.eqb c "/"%char then
        if negb (ext_matchedSlash st) then
          mkExtState (startDot st) (i + 1) (ext_end st) (ext_matchedSlash st)
            (preDotState st)
        else extname_scan rest st
      else
        let st :=
          match ext_end st with
          | None =>
              mkExtState (startDot st) (startPart st) (Some (i + 1)) false
                (preDotState st)
          | Some _ => st
          end in
        if Ascii.eqb c "."%char then
          match startDot st with
          | None =>
              extname_scan rest
                (mkExtState (Some i) (startPart st) (ext_end st)
                   (ext_matchedSlash st) (preDotState st))
          | Some _ =>
              if negb (preDotState st =? 1)%Z then
                extname_scan rest
                  (mkExtState (startDot st) (startPart st) (ext_end st)
                     (ext_matchedSlash st) 1)
              else extname_scan rest st
          end
        else
          match startDot st with
          | Some _ =>
              extname_scan rest
                (mkExtState (startDot st) (startPart st) (ext_end st)
                   (ext_matchedSlash st) (-1))
          | None => extname_scan rest st
          end
  end.

Definition extname (path : string) : string :=
  let st :=
    extname_scan (rev (list_ascii_of_string path)) (mkExtState None 0 None true 0) in
  match startDot st, ext_end st with
  | Some sd, Some e =>
      if (preDotState st =? 0)%Z
         || ((preDotState st =? 1)%Z && (sd =? e - 1) && (sd =? startPart st + 1))
      then ""
      else substring sd (e - sd) path
  | _, _ => ""
  end.

(** The components of a path, between its slashes. *)
Fixpoint components (path cur : string) : list string :=
  match path with
  | EmptyString => [cur]
  | String c rest =>
      if Ascii.eqb c "/"%char then cur :: components rest ""
      else components rest (cur +:+ String c "")
  end.

(** A file path in the form [path.resolve] gives: absolute, with no empty
    component (no doubled or trailing slash) and no [.] or [..]. *)
Definition resolved (path : string) : bool :=
  match path with
  | String "/" rest =>
      forallb (λ c, negb (String.eqb c "" || String.eqb c "." || String.eqb c ".."))
        (components rest "")
  | _ => false
  end.

End Path.

(** The files of a world are keyed by the text of their paths: a file is
    found under the spelling it was written with.  A real file system gives
    one file many spellings ([/v/a], [/v//a], [/v/./a]); a statement about
    two paths that must not name one file takes both in resolved form
    ([Path.resolved]), where different texts name different files.  Links
    are not modelled. *)
Module Fs.

Record Stats := mkStats {
  isFile : bool;
  size : nat
}.

Definition node_at (w : World) (path : string) : option Node :=
  if bool_decide (path = "/" ∨ path = ".") then Some Dir else files w !! path.

Definition enoent (call path : string) : JsError :=
  Error ("ENOENT: no such file or directory, " +:+ call +:+ " '" +:+ path +:+ "'").
Definition eisdir (call path : string) : JsError :=
  Error ("EISDIR: illegal operation on a directory, " +:+ call +:+ " '" +:+ path +:+ "'").
Definition enotdir (call path : string) : JsError :=
  Error ("ENOTDIR: not a directory, " +:+ call +:+ " '" +:+ path +:+ "'").
Definition eacces (call path : string) : JsError :=
  Error ("EACCES: permission denied, " +:+ call +:+ " '" +:+ path +:+ "'").
Definition eperm (call path : string) : JsError :=
  Error ("EPERM: operation not permitted, " +:+ call +:+ " '" +:+ path +:+ "'").
Definition eexist (call path : string) : JsError :=
  Error ("EEXIST: file already exists, " +:+ call +:+ " '" +:+ path +:+ "'").

Definition existsSync (path : string) : JS bool :=
  λ w, (Normal (bool_decide (is_Some (node_at w path))), w).

Definition statSync (path : string) : JS Stats :=
  λ w, match node_at w path with
       | Some (File content _) => (Normal (mkStats true (length content)), w)
       | Some Dir => (Normal (mkStats false 0), w)
       | None => (Throw (enoent "stat" path), w)
       end.

Definition readFileSync (path : string) : JS Buffer :=
  λ w, match node_at w path with
       | Some (File content true) => (Normal content, w)
       | Some (File _ false) => (Throw (eacces "open" path), w)
       | Some Dir => (Throw (eisdir "read" path), w)
       | None => (Throw (enoent "open" path), w)
       end.

(** Opening [path] for writing (flag [w]) and writing [data]: an existing
    file is replaced, a new one needs its directory. *)
Definition writeFileSync (path : string) (data : Buffer) : JS unit :=
  λ w, match node_at w path with
       | Some Dir => (Throw (eisdir "open" path), w)
       | Some (File _ readable) =>
           (Normal tt, set_files (<[path := File data readable]> (files w)) w)
       | None =>
           match node_at w (Path.dirname path) with
           | Some Dir => (Normal tt, set_files (<[path := File data true]> (files w)) w)
           | Some (File _ _) => (Throw (enotdir "open" path), w)
           | None => (Throw (enoent "open" path), w)
           end
       end.

Definition unlinkSync (path : string) : JS unit :=
  λ w, match node_at w path with
       | Some (File _ _) => (Normal tt, set_files (delete path (files w)) w)
       | Some Dir => (Throw (eperm "unlink" path), w)
       | None => (Throw (enoent "unlink" path), w)
       end.

(** [fs.mkdirSync(path, { recursive: true })]: the missing directories from
    the nearest existing ancestor down to [path].  A regular file at [asked],
    the path of the call, is EEXIST; a regular file at one of its ancestors
    is ENOTDIR, reported for [asked].  [fuel] bounds the walk up by the
    length of the path. *)
Fixpoint mkdir_rec (fuel : nat) (asked path : string) : JS unit :=
  λ w, match node_at w path with
       | Some Dir => (Normal tt, w)
       | Some (File _ _) =>
           (Throw (if bool_decide (path = asked) then eexist "mkdir" asked
                   else enotdir "mkdir" asked), w)
       | None =>
           match fuel with
           | 0 => (Throw (enoent "mkdir" asked), w)
           | S fuel' =>
               match mkdir_rec fuel' asked (Path.dirname path) w with
               | (Normal _, w') =>
                   (Normal tt, set_files (<[path := Dir]> (files w')) w')
               | (Throw e, w') => (Throw e, w')
               end
           end
       end.

Definition mkdirSync_recursive (path : string) : JS unit :=
  mkdir_rec (String.length path) path path.

(** The chunks a read stream delivers: at most [n] octets each. *)
Fixpoint chunks_fuel (fuel n : nat) (data : Buffer) : list Buffer :=
  match fuel, data with
  | _, [] => []
  | 0, _ => [data]
  | S fuel', _ => take n data :: chunks_fuel fuel' n (drop n data)
  end.

Definition chunks (n : nat) (data : Buffer) : list Buffer :=
  chunks_fuel (length data) n data.

(** The default [highWaterMark] of [fs.createReadStream]: 64 KiB. *)
Definition READ_STREAM_CHUNK : nat := 64 * 1024.

(** Opening a read stream: the chunks it will deliver, or the error it
    emits. *)
Definition openReadStream (path : string) : JS (list Buffer) :=
  let* content := readFileSync path in
  ret (chunks READ_STREAM_CHUNK content).

(** Opening a write stream (flag [w]): the file is created or truncated. *)
Definition openWriteStream (path : string) : JS unit := writeFileSync path [].

(** A write of the stream: the octets are appended to the file. *)
Definition writeChunk (path : string) (data : Buffer) : JS unit :=
  λ w, match files w !! path with
       | Some (File content readable) =>
           (Normal tt, set_files (<[path := File (content ++ data) readable]> (files w)) w)
       | _ => (Normal tt, w)
       end.

End Fs.

(** ** The data model (types.ts)

    Field names are global in Rocq, so the fields the interfaces share
    ([salt], [iv], [authTag], [version], ...) keep their plain names in
    [EncryptedPayload] and carry a prefix in the other records. *)

(** An encrypted payload.  The interface declares every field, but the
    validator is written for records that lack some, so each field is
    optional here ([None] is [undefined] or [null]). *)
Record EncryptedPayload := mkPayload {
  cipherText : option string;
  salt : option string;
  iv : option string;
  authTag : option string;
  version : option Z
}.

Record EncryptedPayloadRaw := mkPayloadRaw {
  raw_cipherBytes : Buffer;
  raw_salt : Buffer;
  raw_iv : Buffer;
  raw_authTag : Buffer;
  raw_version : Z
}.

Record EncryptionMetadata := mkMetadata {
  meta_salt : string;
  meta_iv : string;
  meta_authTag : string;
  meta_originalFileName : string;
  meta_mimeType : string;
  meta_originalSize : nat;
  meta_version : Z;
  meta_encryptedAt : string
}.

(** [key] is the reference of the Buffer that holds the derived key. *)
Record DerivedKeyResult := mkDerivedKey {
  dk_key : nat;
  dk_salt : Buffer;
  dk_iterations : N
}.

Record EncryptBufferOptions := mkEncryptOptions {
  opt_password : string;
  opt_salt : option Buffer;
  opt_iv : option Buffer
}.

Record DecryptionResult := mkDecryptionResult {
  data : Buffer;
  verified : bool
}.

Record DecryptFileResult := mkDecryptFileResult {
  res_outputPath : string;
  res_originalFileName : string;
  res_mimeType : string;
  res_size : nat;
  res_verified : bool
}.

(** [Buffer | ArrayBuffer | Uint8Array | string]; a [Uint8Array] is a window
    on an [ArrayBuffer]. *)
Inductive EncryptionInput :=
  | InBuffer (b : Buffer)
  | InArrayBuffer (b : Buffer)
  | InUint8Array (buffer : Buffer) (byteOffset byteLength : nat)
  | InString (s : string).

(** ** src/src/utils/decryption/constants.ts *)

Definition AES_KEY_LENGTH_BITS : nat := 256.
Definition AES_KEY_LENGTH_BYTES : nat := AES_KEY_LENGTH_BITS / 8.
Definition GCM_AUTH_TAG_LENGTH_BYTES : nat := 16.
Definition PBKDF2_ITERATIONS : N := 150000.
Definition SALT_LENGTH_BYTES : nat := 16.
Definition IV_LENGTH_BYTES : nat := 12.
Definition ENCRYPTION_FORMAT_VERSION : Z := 1.

(** The regular expression [/^[A-Za-z0-9+/]*={0,2}$/]: a run of alphabet
    characters, then at most two [=], then the end of the string. *)
Definition is_base64_alphabet (c : ascii) : bool :=
  let n := N_of_ascii c in
  ((65 <=? n) && (n <=? 90) || (97 <=? n) && (n <=? 122)
   || (48 <=? n) && (n <=? 57) || (n =? 43) || (n =? 47))%N.

Fixpoint skip_base64_alphabet (s : string) : string :=
  match s with
  | String c s' => if is_base64_alphabet c then skip_base64_alphabet s' else s
  | EmptyString => s
  end.

Definition base64Regex_test (s : string) : bool :=
  let rest := skip_base64_alphabet s in
  String.eqb rest "" || String.eqb rest "=" || String.eqb rest "==".

(** ** The encryption module *)

Module Encryption.

(** The constants of the encryption module (its constants.ts, which the
    sources carry at the end of src/src/utils/encryption/types.ts).
    [AES_KEY_LENGTH_BYTES] is [AES_KEY_LENGTH_BITS / 8] with 256 bits. *)
Definition AES_KEY_LENGTH_BYTES : nat := 32.

(** [PBKDF2_ITERATIONS = 150_000]. *)
Definition PBKDF2_ITERATIONS : N := 150000.

(** [SALT_LENGTH_BYTES = 16]. *)
Definition SALT_LENGTH_BYTES : nat := 16.

(** [IV_LENGTH_BYTES = 12]. *)
Definition IV_LENGTH_BYTES : nat := 12.

(** [ENCRYPTION_FORMAT_VERSION = 1]. *)
Definition ENCRYPTION_FORMAT_VERSION : Z := 1.

Section with_primitives.
Context `{Primitives}.

Definition toBase64 (data : Buffer) : string := Base64.encode data.

Definition fromBase64 (base64 : string) : Buffer := Base64.decode base64.

Definition isValidBase64 (str : string) : bool :=
  if String.length str =? 0 then false
  else base64Regex_test str && (String.length str mod 4 =? 0).

Definition generateIV (length : nat) : JS Buffer := Crypto.randomBytes length.

Definition generateSalt (length : nat) : JS Buffer := Crypto.randomBytes length.

Definition normalizeInput (input : EncryptionInput) : Buffer :=
  match input with
  | InBuffer b => b
  | InArrayBuffer b => b
  | InUint8Array buffer byteOffset byteLength => take byteLength (drop byteOffset buffer)
  | InString s => utf8 s
  end.

Definition validatePassword (password : string) : JS unit :=
  if String.eqb password "" then
    throw (Error "Password must be a non-empty string.")
  else if String.length password <? 8 then
    throw (Error "Password must be at least 8 characters long for adequate security.")
  else ret tt.

Definition secureWipe (buffer : nat) : JS unit := fillBuffer buffer.

Definition timingSafeEqual (a b : Buffer) : JS bool :=
  if negb (length a =? length b) then ret false
  else Crypto.timingSafeEqual a b.

(** src/src/utils/encryption/key.ts.  The first step is the instrumentation
    that counts calls. *)
Definition deriveKey (password : string) (salt : option Buffer) : JS DerivedKeyResult :=
  let* _ := record EvDeriveKey in
  if String.eqb password "" then throw (Error "Password must not be empty.")
  else
    let* usedSalt :=
      match salt with
      | Some s => ret s
      | None => Crypto.randomBytes SALT_LENGTH_BYTES
      end in
    let derivedKey :=
      Crypto.pbkdf2 password usedSalt PBKDF2_ITERATIONS AES_KEY_LENGTH_BYTES in
    let* key := allocBuffer derivedKey in
    ret (mkDerivedKey key usedSalt PBKDF2_ITERATIONS).

(** src/unnamed/part_001 *)
Definition encryptBuffer (data : EncryptionInput) (options : EncryptBufferOptions)
    : JS EncryptedPayload :=
  let* _ := validatePassword (opt_password options) in
  let plainBuffer := normalizeInput data in
  let* iv :=
    match opt_iv options with
    | Some iv => ret iv
    | None => generateIV IV_LENGTH_BYTES
    end in
  let* dk := deriveKey (opt_password options) (opt_salt options) in
  let* key := readBuffer (dk_key dk) in
  let* cipher := Crypto.createCipheriv key iv in
  let (cipher, updated) := Crypto.cipher_update cipher plainBuffer in
  let encrypted := updated ++ Crypto.cipher_final cipher in
  let authTag := Crypto.getAuthTag cipher in
  let* _ := fillBuffer (dk_key dk) in
  ret (mkPayload (Some (toBase64 encrypted)) (Some (toBase64 (dk_salt dk)))
         (Some (toBase64 iv)) (Some (toBase64 authTag))
         (Some ENCRYPTION_FORMAT_VERSION)).

Definition encryptBufferRaw (data : EncryptionInput) (options : EncryptBufferOptions)
    : JS EncryptedPayloadRaw :=
  let* _ := validatePassword (opt_password options) in
  let plainBuffer := normalizeInput data in
  let* iv :=
    match opt_iv options with
    | Some iv => ret iv
    | None => generateIV IV_LENGTH_BYTES
    end in
  let* dk := deriveKey (opt_password options) (opt_salt options) in
  let* key := readBuffer (dk_key dk) in
  let* cipher := Crypto.createCipheriv key iv in
  let (cipher, updated) := Crypto.cipher_update cipher plainBuffer in
  let cipherBytes := updated ++ Crypto.cipher_final cipher in
  let authTag := Crypto.getAuthTag cipher in
  let* _ := fillBuffer (dk_key dk) in
  ret (mkPayloadRaw cipherBytes (dk_salt dk) iv authTag ENCRYPTION_FORMAT_VERSION).

(** The rest of src/src/utils/encryption/utils.ts. *)

Definition toHex (data : Buffer) : string := Hex.encode data.

Definition fromHex (hex : string) : Buffer := Hex.decode hex.

Definition generateRandomId (byteLength : nat) : JS string :=
  let* bytes := Crypto.randomBytes byteLength in
  ret (Base64.encode_url bytes).

(** The arguments are Buffers by their type, so the [Buffer.isBuffer] tests
    of [validateSalt] and [validateIV] pass. *)
Definition validateSalt (salt : Buffer) (expectedLength : nat) : JS unit :=
  if negb (length salt =? expectedLength) then
    throw (Error ("Salt must be exactly " +:+ show_nat expectedLength
                  +:+ " bytes, got " +:+ show_nat (length salt) +:+ "."))
  else ret tt.

Definition validateIV (iv : Buffer) (expectedLength : nat) : JS unit :=
  if negb (length iv =? expectedLength) then
    throw (Error ("IV must be exactly " +:+ show_nat expectedLength
                  +:+ " bytes, got " +:+ show_nat (length iv) +:+ "."))
  else ret tt.

(** The file variants of src/unnamed/part_001.  Their options have the
    fields of [EncryptBufferOptions]; the optional progress callback is a
    flag, and a call of it is recorded in the log; [now] is what
    [new Date().toISOString()] returns at the call. *)

Definition mimeTypes : gmap string string :=
  list_to_map
    [ (".pdf", "application/pdf");
      (".doc", "application/msword");
      (".docx", "application/vnd.openxmlformats-officedocument.wordprocessingml.document");
      (".xls", "application/vnd.ms-excel");
      (".xlsx", "application/vnd.openxmlformats-officedocument.spreadsheetml.sheet");
      (".ppt", "application/vnd.ms-powerpoint");
      (".pptx", "application/vnd.openxmlformats-officedocument.presentationml.presentation");
      (".txt", "text/plain");
      (".csv", "text/csv");
      (".json", "application/json");
      (".xml", "application/xml");
      (".html", "text/html");
      (".htm", "text/html");
      (".jpg", "image/jpeg");
      (".jpeg", "image/jpeg");
      (".png", "image/png");
      (".gif", "image/gif");
      (".svg", "image/svg+xml");
      (".webp", "image/webp");
      (".mp4", "video/mp4");
      (".mp3", "audio/mpeg");
      (".wav", "audio/wav");
      (".zip", "application/zip");
      (".rar", "application/x-rar-compressed");
      (".7z", "application/x-7z-compressed");
      (".tar", "application/x-tar");
      (".gz", "application/gzip") ].

Definition guessMimeType (filePath : string) : string :=
  let ext := toLowerCase (Path.extname filePath) in
  default "application/octet-stream" (mimeTypes !! ext).

Definition check_input_file (inputPath : string) : JS Fs.Stats :=
  let* found := Fs.existsSync inputPath in
  if negb found then throw (Error ("Input file not found: " +:+ inputPath))
  else
    let* stat := Fs.statSync inputPath in
    if negb (Fs.isFile stat) then
      throw (Error ("Input path is not a file: " +:+ inputPath))
    else ret stat.

Definition ensure_output_dir (outputPath : string) : JS unit :=
  let outputDir := Path.dirname outputPath in
  let* found := Fs.existsSync outputDir in
  if negb found then Fs.mkdirSync_recursive outputDir else ret tt.

(** The Buffer that [readFileSync] returns is wiped at the end, so it is
    held by reference. *)
Definition encryptFile (inputPath outputPath : string) (options : EncryptBufferOptions)
    (now : string) : JS EncryptionMetadata :=
  let* _ := validatePassword (opt_password options) in
  let* stat := check_input_file inputPath in
  let* content := Fs.readFileSync inputPath in
  let* plainBuffer := allocBuffer content in
  let* plain := readBuffer plainBuffer in
  let* encrypted := encryptBufferRaw (InBuffer plain) options in
  let* _ := ensure_output_dir outputPath in
  let* _ := Fs.writeFileSync outputPath (raw_cipherBytes encrypted) in
  let* _ := fillBuffer plainBuffer in
  ret (mkMetadata (toBase64 (raw_salt encrypted)) (toBase64 (raw_iv encrypted))
         (toBase64 (raw_authTag encrypted)) (Path.basename inputPath)
         (guessMimeType inputPath) (Fs.size stat) ENCRYPTION_FORMAT_VERSION now).

(** The [data] handler and the pipe, chunk by chunk: the progress callback
    (when one is given), [cipher.update], and the write of the ciphertext to
    the output. *)
Fixpoint pipe_chunks (outputPath : string) (onProgress : bool) (totalBytes : nat)
    (chunks : list Buffer) (cipher : Crypto.Cipher) (bytesProcessed : nat)
    : JS Crypto.Cipher :=
  match chunks with
  | [] => ret cipher
  | chunk :: rest =>
      let bytesProcessed := bytesProcessed + length chunk in
      let* _ :=
        if onProgress then record (EvProgress bytesProcessed totalBytes) else ret tt in
      let (cipher, out) := Crypto.cipher_update cipher chunk in
      let* _ := Fs.writeChunk outputPath out in
      pipe_chunks outputPath onProgress totalBytes rest cipher bytesProcessed
  end.

(** Both streams are created before any of their events is handled, so both
    open; the events are then taken in this order: an error of the read
    stream, an error of the write stream, the chunks, the end of the cipher
    and the finish of the write stream. *)
Definition encryptFileStream (inputPath outputPath : string)
    (options : EncryptBufferOptions) (onProgress : bool) (now : string)
    : JS EncryptionMetadata :=
  let* _ := validatePassword (opt_password options) in
  let* stat := check_input_file inputPath in
  let* iv :=
    match opt_iv options with
    | Some iv => ret iv
    | None => generateIV IV_LENGTH_BYTES
    end in
  let* dk := deriveKey (opt_password options) (opt_salt options) in
  let* key := readBuffer (dk_key dk) in
  let* cipher := Crypto.createCipheriv key iv in
  let* _ := ensure_output_dir outputPath in
  let* readStream := attempt (Fs.openReadStream inputPath) in
  let* writeStream := attempt (Fs.openWriteStream outputPath) in
  let totalBytes := Fs.size stat in
  match readStream, writeStream with
  | Throw err, _ =>
      (* readStream.on("error") *)
      let* _ := fillBuffer (dk_key dk) in
      throw (Error ("Failed to read input file: " +:+ message err))
  | Normal _, Throw err =>
      (* writeStream.on("error") *)
      let* _ := fillBuffer (dk_key dk) in
      throw (Error ("Failed to write output file: " +:+ message err))
  | Normal chunks, Normal _ =>
      let* cipher := pipe_chunks outputPath onProgress totalBytes chunks cipher 0 in
      let* _ := Fs.writeChunk outputPath (Crypto.cipher_final cipher) in
      (* writeStream.on("finish") *)
      let authTag := Crypto.getAuthTag cipher in
      let* _ := fillBuffer (dk_key dk) in
      ret (mkMetadata (toBase64 (dk_salt dk)) (toBase64 iv) (toBase64 authTag)
             (Path.basename inputPath) (guessMimeType inputPath) (Fs.size stat)
             ENCRYPTION_FORMAT_VERSION now)
  end.

End with_primitives.
End Encryption.

(** ** The decryption module *)

Module Decryption.
Section with_primitives.
Context `{Primitives}.

Definition toBase64 (data : Buffer) : string := Base64.encode data.

Definition fromBase64 (base64 : string) : Buffer := Base64.decode base64.

Definition isValidBase64 (str : string) : bool :=
  if String.eqb str "" || (String.length str =? 0) then false
  else base64Regex_test str && (String.length str mod 4 =? 0).

Definition requiredFields : list string :=
  ["cipherText"; "salt"; "iv"; "authTag"; "version"].

(** [payload[field] === undefined || payload[field] === null]. *)
Definition field_missing (payload : EncryptedPayload) (field : string) : bool :=
  if String.eqb field "cipherText" then bool_decide (cipherText payload = None)
  else if String.eqb field "salt" then bool_decide (salt payload = None)
  else if String.eqb field "iv" then bool_decide (iv payload = None)
  else if String.eqb field "authTag" then bool_decide (authTag payload = None)
  else if String.eqb field "version" then bool_decide (version payload = None)
  else true.

Fixpoint check_required (fields : list string) (payload : EncryptedPayload) : JS unit :=
  match fields with
  | [] => ret tt
  | field :: rest =>
      if field_missing payload field then
        throw (DecryptionError ("Missing required field: " +:+ field) MISSING_FIELDS)
      else check_required rest payload
  end.

Definition validatePayload (payload : EncryptedPayload) : JS unit :=
  let* _ := check_required requiredFields payload in
  let* cipherText := prop "length" (cipherText payload) in
  let* salt := prop "length" (salt payload) in
  let* iv := prop "length" (iv payload) in
  let* authTag := prop "length" (authTag payload) in
  if (0 <? String.length cipherText) && negb (isValidBase64 cipherText) then
    throw (DecryptionError "cipherText is not valid base-64" INVALID_FORMAT)
  else if negb (isValidBase64 salt) then
    throw (DecryptionError "salt is not valid base-64" INVALID_FORMAT)
  else if negb (isValidBase64 iv) then
    throw (DecryptionError "iv is not valid base-64" INVALID_FORMAT)
  else if negb (isValidBase64 authTag) then
    throw (DecryptionError "authTag is not valid base-64" INVALID_FORMAT)
  else
    let saltBytes := fromBase64 salt in
    if negb (length saltBytes =? SALT_LENGTH_BYTES) then
      throw (DecryptionError
               ("Salt must be " +:+ show_nat SALT_LENGTH_BYTES +:+ " bytes, got "
                +:+ show_nat (length saltBytes)) INVALID_FORMAT)
    else
      let ivBytes := fromBase64 iv in
      if negb (length ivBytes =? IV_LENGTH_BYTES) then
        throw (DecryptionError
                 ("IV must be " +:+ show_nat IV_LENGTH_BYTES +:+ " bytes, got "
                  +:+ show_nat (length ivBytes)) INVALID_FORMAT)
      else
        let authTagBytes := fromBase64 authTag in
        if negb (length authTagBytes =? GCM_AUTH_TAG_LENGTH_BYTES) then
          throw (DecryptionError
                   ("Auth tag must be " +:+ show_nat GCM_AUTH_TAG_LENGTH_BYTES
                    +:+ " bytes, got " +:+ show_nat (length authTagBytes)) INVALID_FORMAT)
        else if negb (bool_decide (version payload = Some ENCRYPTION_FORMAT_VERSION)) then
          throw (DecryptionError
                   ("Unsupported encryption version: "
                    +:+ show_Z (default 0%Z (version payload)) +:+ " (expected "
                    +:+ show_Z ENCRYPTION_FORMAT_VERSION +:+ ")") UNSUPPORTED_VERSION)
        else ret tt.

Definition validatePassword (password : string) : JS unit :=
  if String.eqb password "" then
    throw (DecryptionError "Password must be a non-empty string." MISSING_FIELDS)
  else ret tt.

Definition secureWipe (buffer : nat) : JS unit := fillBuffer buffer.

Definition timingSafeEqual (a b : Buffer) : JS bool :=
  if negb (length a =? length b) then ret false
  else Crypto.timingSafeEqual a b.

(** src/unnamed/part_002.  The first step is the instrumentation that counts
    calls. *)
Definition deriveKey (password : string) (salt : Buffer) : JS DerivedKeyResult :=
  let* _ := record EvDeriveKey in
  if String.eqb password "" then throw (Error "Password must not be empty.")
  else if length salt =? 0 then throw (Error "Salt must be a non-empty Buffer.")
  else
    let derivedKey :=
      Crypto.pbkdf2 password salt PBKDF2_ITERATIONS AES_KEY_LENGTH_BYTES in
    let* key := allocBuffer derivedKey in
    ret (mkDerivedKey key salt PBKDF2_ITERATIONS).

(** The three substrings by which the catch blocks recognise a failed
    authentication. *)
Definition is_auth_failure (error : JsError) : bool :=
  includes (message error) "Unsupported state"
  || includes (message error) "unable to authenticate"
  || includes (message error) "auth".

Definition classify (error : JsError) : JsError :=
  if is_auth_failure error then
    DecryptionError
      "Decryption failed: incorrect password or data has been tampered with."
      WRONG_PASSWORD
  else DecryptionError ("Decryption failed: " +:+ message error) UNKNOWN.

(** The decrypt functions of src/unnamed/part_005.  Their [options] hold
    the password and nothing else, so the password is passed as such; the
    optional progress callback of the streaming variant is a flag, and a
    call of it is recorded in the log. *)
Definition decryptBuffer (payload : EncryptedPayload) (password : string)
    : JS DecryptionResult :=
  let* _ := validatePassword password in
  let* _ := validatePayload payload in
  let* cipherText := prop "cipherText" (cipherText payload) in
  let* salt := prop "salt" (salt payload) in
  let* iv := prop "iv" (iv payload) in
  let* authTag := prop "authTag" (authTag payload) in
  let cipherBytes := fromBase64 cipherText in
  let saltBytes := fromBase64 salt in
  let ivBytes := fromBase64 iv in
  let authTagBytes := fromBase64 authTag in
  let* dk := deriveKey password saltBytes in
  try_finally
    (try_catch
       (let* key := readBuffer (dk_key dk) in
        let* decipher := Crypto.createDecipheriv key ivBytes in
        let* decipher := Crypto.setAuthTag decipher authTagBytes in
        let (decipher, updated) := Crypto.decipher_update decipher cipherBytes in
        let* final := Crypto.decipher_final decipher in
        ret (mkDecryptionResult (updated ++ final) true))
       (λ error, throw (classify error)))
    (secureWipe (dk_key dk)).

Definition decryptBufferRaw (payload : EncryptedPayloadRaw) (password : string)
    : JS DecryptionResult :=
  let* _ := validatePassword password in
  let* dk := deriveKey password (raw_salt payload) in
  try_finally
    (try_catch
       (let* key := readBuffer (dk_key dk) in
        let* decipher := Crypto.createDecipheriv key (raw_iv payload) in
        let* decipher := Crypto.setAuthTag decipher (raw_authTag payload) in
        let (decipher, updated) :=
          Crypto.decipher_update decipher (raw_cipherBytes payload) in
        let* final := Crypto.decipher_final decipher in
        ret (mkDecryptionResult (updated ++ final) true))
       (λ error, throw (classify error)))
    (secureWipe (dk_key dk)).

(** The cleanup both file variants perform: the output is unlinked if it
    exists, and a failure of the unlink is ignored. *)
Definition cleanup_output (outputPath : string) : JS unit :=
  let* found := Fs.existsSync outputPath in
  if found then try_catch (Fs.unlinkSync outputPath) (λ _, ret tt)
  else ret tt.

Definition check_input_file (inputPath : string) : JS Fs.Stats :=
  let* found := Fs.existsSync inputPath in
  if negb found then
    throw (DecryptionError ("Encrypted file not found: " +:+ inputPath) FILE_ERROR)
  else
    let* stat := Fs.statSync inputPath in
    if negb (Fs.isFile stat) then
      throw (DecryptionError ("Input path is not a file: " +:+ inputPath) FILE_ERROR)
    else ret stat.

Definition ensure_output_dir (outputPath : string) : JS unit :=
  let outputDir := Path.dirname outputPath in
  let* found := Fs.existsSync outputDir in
  if negb found then Fs.mkdirSync_recursive outputDir else ret tt.

Definition decryptFile (inputPath outputPath : string) (metadata : EncryptionMetadata)
    (password : string) : JS DecryptFileResult :=
  let* _ := validatePassword password in
  let* stat := check_input_file inputPath in
  let saltBytes := fromBase64 (meta_salt metadata) in
  let ivBytes := fromBase64 (meta_iv metadata) in
  let authTagBytes := fromBase64 (meta_authTag metadata) in
  let* cipherBytes := Fs.readFileSync inputPath in
  let* dk := deriveKey password saltBytes in
  try_finally
    (try_catch
       (let* key := readBuffer (dk_key dk) in
        let* decipher := Crypto.createDecipheriv key ivBytes in
        let* decipher := Crypto.setAuthTag decipher authTagBytes in
        let (decipher, updated) := Crypto.decipher_update decipher cipherBytes in
        let* final := Crypto.decipher_final decipher in
        let plaintext := updated ++ final in
        let* _ := ensure_output_dir outputPath in
        let* _ := Fs.writeFileSync outputPath plaintext in
        ret (mkDecryptFileResult outputPath (meta_originalFileName metadata)
               (meta_mimeType metadata) (length plaintext) true))
       (λ error,
          let* _ := cleanup_output outputPath in
          if instanceof_DecryptionError error then throw error
          else throw (classify error)))
    (secureWipe (dk_key dk)).

(** The [data] handler and the pipe, chunk by chunk: the progress callback
    (when one is given), [decipher.update], and the write of the plaintext
    to the output. *)
Fixpoint pipe_chunks (outputPath : string) (onProgress : bool) (totalBytes : nat)
    (chunks : list Buffer) (decipher : Crypto.Decipher) (bytesProcessed : nat)
    : JS Crypto.Decipher :=
  match chunks with
  | [] => ret decipher
  | chunk :: rest =>
      let bytesProcessed := bytesProcessed + length chunk in
      let* _ :=
        if onProgress then record (EvProgress bytesProcessed totalBytes) else ret tt in
      let (decipher, plain) := Crypto.decipher_update decipher chunk in
      let* _ := Fs.writeChunk outputPath plain in
      pipe_chunks outputPath onProgress totalBytes rest decipher bytesProcessed
  end.

(** Both streams are created before any of their events is handled, so both
    open; the events are then taken in this order: an error of the read
    stream, an error of the write stream, the chunks, the end of the
    decipher.  The promise settles with the first handler that resolves or
    rejects. *)
Definition decryptFileStream (inputPath outputPath : string)
    (metadata : EncryptionMetadata) (password : string) (onProgress : bool)
    : JS DecryptFileResult :=
  let* _ := validatePassword password in
  let* stat := check_input_file inputPath in
  let saltBytes := fromBase64 (meta_salt metadata) in
  let ivBytes := fromBase64 (meta_iv metadata) in
  let authTagBytes := fromBase64 (meta_authTag metadata) in
  let* dk := deriveKey password saltBytes in
  let* key := readBuffer (dk_key dk) in
  let* decipher := Crypto.createDecipheriv key ivBytes in
  let* decipher := Crypto.setAuthTag decipher authTagBytes in
  let* _ := ensure_output_dir outputPath in
  let* readStream := attempt (Fs.openReadStream inputPath) in
  let* writeStream := attempt (Fs.openWriteStream outputPath) in
  let totalBytes := Fs.size stat in
  match readStream, writeStream with
  | Throw err, _ =>
      (* readStream.on("error") *)
      let* _ := secureWipe (dk_key dk) in
      throw (DecryptionError ("Failed to read encrypted file: " +:+ message err)
               FILE_ERROR)
  | Normal _, Throw err =>
      (* writeStream.on("error") *)
      let* _ := secureWipe (dk_key dk) in
      throw (DecryptionError ("Failed to write decrypted file: " +:+ message err)
               FILE_ERROR)
  | Normal chunks, Normal _ =>
      let* decipher := pipe_chunks outputPath onProgress totalBytes chunks decipher 0 in
      let* final := attempt (Crypto.decipher_final decipher) in
      match final with
      | Throw err =>
          (* decipher.on("error"): after the wipe the write stream is
             destroyed, so nothing more is written, and the output is
             unlinked *)
          let* _ := secureWipe (dk_key dk) in
          let* _ := cleanup_output outputPath in
          throw (DecryptionError
                   "Decryption failed: incorrect password or data has been tampered with."
                   WRONG_PASSWORD)
      | Normal rest =>
          let* _ := Fs.writeChunk outputPath rest in
          (* writeStream.on("finish") *)
          let* _ := secureWipe (dk_key dk) in
          let* outputStat := Fs.statSync outputPath in
          ret (mkDecryptFileResult outputPath (meta_originalFileName metadata)
                 (meta_mimeType metadata) (Fs.size outputStat) true)
      end
  end.

(** The hexadecimal helpers of src/src/utils/decryption/utils.ts. *)

Definition toHex (data : Buffer) : string := Hex.encode data.

Definition fromHex (hex : string) : Buffer := Hex.decode hex.

End with_primitives.
End Decryption.

(** ** The validator's checks as a table

    The checks of the payload validator in the order the specification
    lists them (required fields, base-64 form, decoded lengths, version),
    each with the error it raises.  The validator is compared with the first
    row that fails. *)

Definition well_formed_base64 (s : string) : bool :=
  negb (String.eqb s "") && base64Regex_test s && (String.length s mod 4 =? 0).

Definition validation_table (p : EncryptedPayload) : list (bool * JsError) :=
  let c := default "" (cipherText p) in
  let s := default "" (salt p) in
  let i := default "" (iv p) in
  let t := default "" (authTag p) in
  let invalid m := DecryptionError m INVALID_FORMAT in
  let missing f := DecryptionError ("Missing required field: " +:+ f) MISSING_FIELDS in
  [ (bool_decide (cipherText p = None), missing "cipherText");
    (bool_decide (salt p = None), missing "salt");
    (bool_decide (iv p = None), missing "iv");
    (bool_decide (authTag p = None), missing "authTag");
    (bool_decide (version p = None), missing "version");
    (negb (String.eqb c "") && negb (well_formed_base64 c),
      invalid "cipherText is not valid base-64");
    (negb (well_formed_base64 s), invalid "salt is not valid base-64");
    (negb (well_formed_base64 i), invalid "iv is not valid base-64");
    (negb (well_formed_base64 t), invalid "authTag is not valid base-64");
    (negb (length (Base64.decode s) =? 16),
      invalid ("Salt must be 16 bytes, got " +:+ show_nat (length (Base64.decode s))));
    (negb (length (Base64.decode i) =? 12),
      invalid ("IV must be 12 bytes, got " +:+ show_nat (length (Base64.decode i))));
    (negb (length (Base64.decode t) =? 16),
      invalid ("Auth tag must be 16 bytes, got "
               +:+ show_nat (length (Base64.decode t))));
    (negb (bool_decide (version p = Some 1%Z)),
      DecryptionError
        ("Unsupported encryption version: " +:+ show_Z (default 0%Z (version p))
         +:+ " (expected 1)") UNSUPPORTED_VERSION) ].

Fixpoint first_failure (table : list (bool * JsError)) : Completion unit :=
  match table with
  | [] => Normal tt
  | (failed, error) :: rest => if failed then Throw error else first_failure rest
  end.

(** ** An instance of the primitives, to run the definitions on *)

(** Not the real algorithms: the digest, the key stream and the tag depend on
    their inputs only through octet counts and positions. *)
Definition toy_primitives : Primitives := {|
  sha256_octet := λ m i, byte_of_N (N.of_nat (length m + i));
  aes256_keystream := λ key iv i, byte_of_N (N.of_nat (length iv + i));
  gcm_tag_octet := λ key iv c i, byte_of_N (N.of_nat (length c + i))
|}.

(** A world with nothing in it: the entropy source returns zeros. *)
Definition empty_world : World := mkWorld (λ _, x00) ∅ [] [].

(** ** A small vault to run the file variants on *)

(** An encrypted document, one octet long, and an unrelated report that is
    already at the path the caller names as output. *)
Definition vault_world : World :=
  mkWorld (λ _, x00)
    (<["/vault/doc.enc" := File [x2a] true]>
       (<["/vault/report.txt" := File (utf8 "quarterly report") true]>
          (<["/vault" := Dir]> ∅)))
    [] [].

(** Metadata with a 16-octet salt, a 12-octet IV and a 16-octet tag, all
    zero octets. *)
Definition vault_metadata : EncryptionMetadata :=
  mkMetadata "AAAAAAAAAAAAAAAAAAAAAA==" "AAAAAAAAAAAAAAAA" "AAAAAAAAAAAAAAAAAAAAAA=="
    "doc.txt" "text/plain" 1 1 "2026-01-15T10:30:00.000Z".

(** The same vault when the encrypted document may not be read. *)
Definition locked_vault_world : World :=
  mkWorld (λ _, x00)
    (<["/vault/doc.enc" := File [x2a] false]> (<["/vault" := Dir]> ∅))
    [] [].

(** ** Characters that need no escaping in a URL *)

(** Letters, digits, [-] and [_]: the characters that identifiers made by
    [generateRandomId] are to consist of. *)
Definition url_safe_char (c : ascii) : bool :=
  let n := N_of_ascii c in
  ((65 <=? n) && (n <=? 90) || (97 <=? n) && (n <=? 122)
   || (48 <=? n) && (n <=? 57) || (n =? 45) || (n =? 95))%N.

(** ** A vault with a plaintext document, to run the file variants on *)

Definition plain_vault_world : World :=
  mkWorld (λ _, x00)
    (<["/vault/plain.txt" := File (utf8 "Test file content") true]>
       (<["/vault" := Dir]> ∅))
    [] [].

(** ** Progress reports *)

(** What the log shows of a progress callback while a stream delivers
    [chunks], from a count of [bytesProcessed]: one report for each chunk,
    with the running count. *)
Fixpoint progress_reports (bytesProcessed totalBytes : nat) (chunks : list Buffer)
    : list Event :=
  match chunks with
  | [] => []
  | chunk :: rest =>
      EvProgress (bytesProcessed + length chunk) totalBytes
        :: progress_reports (bytesProcessed + length chunk) totalBytes rest
  end.

(** ** Altered payloads *)




(** * Properties *)

(** ** Octets *)

Lemma byte_of_N_to_N (b : byte) : byte_of_N (Byte.to_N b) = b.
Proof.
  unfold byte_of_N.
  rewrite N.mod_small by (pose proof (Byte.to_N_bounded b); lia).
  by rewrite Byte.of_to_N.
Qed.

Lemma byte_xor_involutive (a b : byte) : byte_xor (byte_xor a b) b = a.
Proof.
  unfold byte_xor.
  rewrite <- (Byte.of_bits_to_bits a) at 2.
  destruct (Byte.to_bits a) as (a0 & a1 & a2 & a3 & a4 & a5 & a6 & a7).
  destruct (Byte.to_bits b) as (b0 & b1 & b2 & b3 & b4 & b5 & b6 & b7).
  rewrite Byte.to_bits_of_bits.
  by rewrite !xorb_assoc, !xorb_nilpotent, !xorb_false_r.
Qed.

Lemma byte_of_N_eq n (b : byte) : n = Byte.to_N b → byte_of_N n = b.
Proof. intros ->. apply byte_of_N_to_N. Qed.

Ltac byte_bounds :=
  repeat match goal with
         | b : byte |- _ =>
             lazymatch goal with
             | _ : (Byte.to_N b ≤ 255)%N |- _ => fail
             | _ => pose proof (Byte.to_N_bounded b)
             end
         end.

Ltac sextet_arith :=
  byte_bounds; zify; Z.to_euclidean_division_equations; lia.

Ltac octets :=
  repeat first [ done | apply byte_of_N_eq; sextet_arith
               | apply (f_equal2 cons) ].

(** ** Base-64 *)

Section base64_facts.
Import Base64.

Lemma sextet_cases (P : N → bool) :
  forallb P (map N.of_nat (seq 0 64)) = true →
  ∀ n, (n < 64)%N → P n = true.
Proof.
  intros Hall n Hn.
  rewrite forallb_forall in Hall. apply Hall.
  rewrite <- (N2Nat.id n). apply in_map, in_seq. lia.
Qed.

Lemma unbase64_b64_char n : (n < 64)%N → unbase64 (b64_char n) = Some n.
Proof.
  intros Hn.
  apply (sextet_cases (λ n, bool_decide (unbase64 (b64_char n) = Some n)))
    in Hn; [by apply bool_decide_eq_true in Hn | by vm_compute].
Qed.

Lemma b64_char_not_pad n :
  (n < 64)%N → Ascii.eqb (b64_char n) "="%char = false.
Proof.
  intros Hn.
  apply (sextet_cases (λ n, negb (Ascii.eqb (b64_char n) "="%char)))
    in Hn; [by apply negb_true_iff in Hn | by vm_compute].
Qed.

Lemma sextets_b64_char n s :
  (n < 64)%N → sextets (String (b64_char n) s) = n :: sextets s.
Proof.
  intros Hn. simpl.
  by rewrite b64_char_not_pad, unbase64_b64_char.
Qed.

(** Induction over a buffer three octets at a time, as the encoder reads it. *)
Lemma buffer_ind3 (P : Buffer → Prop) :
  P [] → (∀ a, P [a]) → (∀ a b, P [a; b]) →
  (∀ a b c rest, P rest → P (a :: b :: c :: rest)) →
  ∀ bs, P bs.
Proof.
  intros H0 H1 H2 H3.
  fix IH 1.
  intros [|a [|b [|c rest]]]; [apply H0 | apply H1 | apply H2 | apply H3, IH].
Qed.

Lemma decode_encode (bs : Buffer) : decode (encode bs) = bs.
Proof.
  unfold decode. induction bs as [|a|a b|a b c rest IH] using buffer_ind3.
  - done.
  - cbn [encode]. rewrite !sextets_b64_char by sextet_arith. cbn. octets.
  - cbn [encode]. rewrite !sextets_b64_char by sextet_arith. cbn. octets.
  - cbn [encode]. rewrite !sextets_b64_char by sextet_arith.
    cbn [bytes_of_sextets]. rewrite IH. octets.
Qed.


Lemma encode_empty_iff (bs : Buffer) : encode bs = "" ↔ bs = [].
Proof.
  split; [|by intros ->].
  by destruct bs as [|a [|b [|c rest]]].
Qed.

End base64_facts.

(** ** Running computations *)

Lemma bind_normal {A B} (m : JS A) (k : A → JS B) w a w' :
  m w = (Normal a, w') → bind m k w = k a w'.
Proof. unfold bind. by intros ->. Qed.

Lemma bind_throw {A B} (m : JS A) (k : A → JS B) w e w' :
  m w = (Throw e, w') → bind m k w = (Throw e, w').
Proof. unfold bind. by intros ->. Qed.

Lemma try_catch_normal {A} (body : JS A) handler w a w' :
  body w = (Normal a, w') → try_catch body handler w = (Normal a, w').
Proof. unfold try_catch. by intros ->. Qed.

Lemma try_catch_throw {A} (body : JS A) handler w e w' :
  body w = (Throw e, w') → try_catch body handler w = handler e w'.
Proof. unfold try_catch. by intros ->. Qed.

Lemma try_finally_normal {A} (body : JS A) fin w r w' u w'' :
  body w = (r, w') → fin w' = (Normal u, w'') →
  try_finally body fin w = (r, w'').
Proof. unfold try_finally. by intros -> ->. Qed.

(** ** timingSafeEqual *)

(** C10: on every pair of Buffers both copies of [timingSafeEqual] return
    normally; for different lengths the result is [false], where the
    primitive of the runtime would throw, and for equal lengths it is [true]
    exactly when the Buffers are the same octets. *)
Theorem timingSafeEqual_total (a b : Buffer) (w : World) :
  ∃ r : bool,
    Encryption.timingSafeEqual a b w = (Normal r, w)
    ∧ Decryption.timingSafeEqual a b w = (Normal r, w)
    ∧ (length a ≠ length b →
       r = false ∧ ∃ e, Crypto.timingSafeEqual a b w = (Throw e, w))
    ∧ (length a = length b → (r = true ↔ a = b)).
Proof.
  unfold Encryption.timingSafeEqual, Decryption.timingSafeEqual,
    Crypto.timingSafeEqual.
  destruct (Nat.eqb_spec (length a) (length b)) as [Heq|Hne]; simpl.
  - exists (bool_decide (a = b)).
    rewrite bool_decide_true by done.
    repeat split; try done.
    + by intros ?%bool_decide_eq_true.
    + by intros ?; apply bool_decide_eq_true.
  - exists false. rewrite bool_decide_false by done.
    repeat split; try done; eauto.
Qed.

(** ** The payload validator *)

Lemma isValidBase64_well_formed s :
  Decryption.isValidBase64 s = well_formed_base64 s.
Proof. by destruct s. Qed.

Lemma encryption_isValidBase64_well_formed s :
  Encryption.isValidBase64 s = well_formed_base64 s.
Proof. by destruct s. Qed.

Lemma nonempty_length s : (0 <? String.length s) = negb (String.eqb s "").
Proof. by destruct s. Qed.

Lemma check_required_present c s i t v w :
  Decryption.check_required Decryption.requiredFields
    (mkPayload (Some c) (Some s) (Some i) (Some t) (Some v)) w = (Normal tt, w).
Proof. reflexivity. Qed.

(** C6: the validator raises the error of the first check that fails, the
    checks being, in this order: the five required fields (MISSING_FIELDS),
    the base-64 form of cipherText (only when it is not empty), salt, iv and
    authTag (INVALID_FORMAT), the decoded lengths 16, 12 and 16
    (INVALID_FORMAT), the version (UNSUPPORTED_VERSION); when no check fails
    it returns normally.  The world is left as it was. *)
Theorem validatePayload_first_failure (p : EncryptedPayload) (w : World) :
  Decryption.validatePayload p w = (first_failure (validation_table p), w).
Proof.
  destruct p as [[c|] [s|] [i|] [t|] [v|]]; try reflexivity.
  unfold Decryption.validatePayload.
  rewrite (bind_normal _ _ _ _ _ (check_required_present c s i t v w)).
  unfold validation_table.
  cbn [bind cipherText salt iv authTag version first_failure default prop ret].
  unfold id.
  rewrite !isValidBase64_well_formed, nonempty_length.
  unfold Decryption.fromBase64, SALT_LENGTH_BYTES, IV_LENGTH_BYTES,
    GCM_AUTH_TAG_LENGTH_BYTES, ENCRYPTION_FORMAT_VERSION.
  repeat match goal with
         | |- context [if ?b then _ else _] => destruct b eqn:?; cbn [negb andb] in *
         end; try done.
Qed.

(** ** Well-formed base-64 text *)

Section base64_form.
Import Base64.

Lemma b64_char_alphabet n : (n < 64)%N → is_base64_alphabet (b64_char n) = true.
Proof.
  intros Hn.
  by apply (sextet_cases (λ n, is_base64_alphabet (b64_char n))) in Hn.
Qed.

Lemma skip_b64_char n s :
  (n < 64)%N →
  skip_base64_alphabet (String (b64_char n) s) = skip_base64_alphabet s.
Proof. intros Hn. simpl. by rewrite b64_char_alphabet. Qed.

Lemma encode_regex (bs : Buffer) : base64Regex_test (encode bs) = true.
Proof.
  unfold base64Regex_test.
  induction bs as [|a|a b|a b c rest IH] using buffer_ind3.
  - done.
  - cbn [encode]. by rewrite !skip_b64_char by sextet_arith.
  - cbn [encode]. by rewrite !skip_b64_char by sextet_arith.
  - cbn [encode]. by rewrite !skip_b64_char by sextet_arith.
Qed.

Lemma encode_length_multiple (bs : Buffer) :
  ∃ k, String.length (encode bs) = 4 * k.
Proof.
  induction bs as [|a|a b|a b c rest [k IH]] using buffer_ind3.
  - by exists 0.
  - by exists 1.
  - by exists 1.
  - exists (S k). cbn [encode String.length]. rewrite IH. lia.
Qed.

Lemma encode_length (bs : Buffer) : String.length (encode bs) mod 4 = 0.
Proof.
  destruct (encode_length_multiple bs) as [k ->].
  by rewrite Nat.mul_comm, Nat.Div0.mod_mul.
Qed.

Lemma encode_well_formed (bs : Buffer) :
  bs ≠ [] → well_formed_base64 (encode bs) = true.
Proof.
  intros Hne. unfold well_formed_base64.
  rewrite encode_regex, encode_length.
  destruct (String.eqb_spec (encode bs) "") as [E|]; [|done].
  by apply encode_empty_iff in E.
Qed.

Lemma encode_eqb_empty (bs : Buffer) :
  String.eqb (encode bs) "" = bool_decide (bs = []).
Proof.
  destruct (String.eqb_spec (encode bs) "") as [E|E].
  - apply encode_empty_iff in E. by rewrite bool_decide_true.
  - rewrite bool_decide_false; [done|]. by intros ->.
Qed.

End base64_form.

(** ** The cryptographic layer *)

Section crypto_facts.
Context `{Primitives}.
Import Crypto.

Lemma length_sha256 m : length (sha256 m) = 32.
Proof. unfold sha256. by rewrite length_map, length_seq. Qed.

Lemma length_hmac_sha256 key msg : length (hmac_sha256 key msg) = 32.
Proof. apply length_sha256. Qed.

Lemma length_gcm_tag key iv c : length (gcm_tag key iv c) = 16.
Proof. unfold gcm_tag. by rewrite length_map, length_seq. Qed.

Lemma length_pbkdf2_block P S c i : length (pbkdf2_block P S c i) = 32.
Proof.
  unfold pbkdf2_block.
  apply (N.iter_invariant (c - 1) _ _
           (λ tu, length (fst tu) = 32 ∧ length (snd tu) = 32)).
  - intros [t u] [Ht Hu]. cbn [fst snd] in *. split.
    + unfold xor_buffers. rewrite length_zip_with, Ht, length_hmac_sha256. lia.
    + apply length_hmac_sha256.
  - cbn [fst snd]. split; apply length_hmac_sha256.
Qed.

Lemma pbkdf2_one_block password s c :
  pbkdf2 password s c AES_KEY_LENGTH_BYTES = pbkdf2_block (utf8 password) s c 1.
Proof.
  unfold pbkdf2. change ((AES_KEY_LENGTH_BYTES + 31) / 32) with 1.
  cbn [seq map concat]. rewrite app_nil_r.
  apply take_ge. by rewrite length_pbkdf2_block.
Qed.

Lemma length_pbkdf2 password s c :
  length (pbkdf2 password s c AES_KEY_LENGTH_BYTES) = 32.
Proof. rewrite pbkdf2_one_block. apply length_pbkdf2_block. Qed.

Lemma length_ctr_xor key iv o d : length (ctr_xor key iv o d) = length d.
Proof. apply length_imap. Qed.

(** Counter mode is its own inverse. *)
Lemma ctr_xor_involutive key iv o d : ctr_xor key iv o (ctr_xor key iv o d) = d.
Proof.
  apply list_eq. intros i. unfold ctr_xor.
  rewrite !list_lookup_imap.
  destruct (d !! i) as [b|]; [|done].
  cbn. by rewrite byte_xor_involutive.
Qed.

Lemma length_randomBytes n w r w' :
  randomBytes n w = (Normal r, w') → length r = n.
Proof. intros [= <- _]. by rewrite length_map, length_seq. Qed.




End crypto_facts.


Lemma length_utf8 s : length (utf8 s) ≤ 2 * String.length s.
Proof.
  induction s as [|c s IH]; [done|].
  cbn [utf8 String.length]. rewrite length_app.
  unfold utf8_char. destruct (N_of_ascii c <? 128)%N; cbn [length]; lia.
Qed.

(** ** Steps of the two modules *)

(** From here on PBKDF2 is used through the lemmas above only. *)
#[global] Opaque Crypto.pbkdf2_block Crypto.pbkdf2.
#[local] Arguments Crypto.pbkdf2 : simpl never.
#[local] Arguments Crypto.gcm_tag : simpl never.
#[local] Arguments Crypto.ctr_xor : simpl never.
#[local] Arguments Base64.encode : simpl never.
#[local] Arguments Base64.decode : simpl never.
#[local] Arguments fill0 : simpl never.
#[local] Arguments show_nat : simpl never.
#[local] Arguments show_Z : simpl never.
#[local] Arguments includes : simpl never.

Section steps.
Context `{Primitives}.
Import Crypto.

Lemma eqb_nonempty s : s ≠ "" → String.eqb s "" = false.
Proof. by destruct s. Qed.

Lemma long_password_nonempty s : 8 ≤ String.length s → s ≠ "".
Proof. destruct s; cbn; [lia|done]. Qed.

Lemma encryption_validatePassword_ok password w :
  8 ≤ String.length password →
  Encryption.validatePassword password w = (Normal tt, w).
Proof.
  intros Hlen. unfold Encryption.validatePassword.
  rewrite eqb_nonempty by by apply long_password_nonempty.
  by destruct (Nat.ltb_spec (String.length password) 8); [lia|].
Qed.

Lemma decryption_validatePassword_ok password w :
  password ≠ "" → Decryption.validatePassword password w = (Normal tt, w).
Proof.
  intros Hne. unfold Decryption.validatePassword. by rewrite eqb_nonempty.
Qed.

Lemma lookup_allocated (h : list Buffer) b : (h ++ [b]) !! length h = Some b.
Proof. by rewrite list_lookup_middle. Qed.

Lemma alter_allocated (h : list Buffer) b f :
  alter f (length h) (h ++ [b]) = h ++ [f b].
Proof. by rewrite alter_app_r_alt, Nat.sub_diag by lia. Qed.

Lemma check_key_iv_ok key iv w :
  length key = 32 → iv ≠ [] → length iv ≤ 128 →
  check_key_iv key iv w = (Normal tt, w).
Proof.
  intros Hk Hiv Hmax. unfold check_key_iv, GCM_IV_MAX_SIZE.
  rewrite bool_decide_true by done.
  rewrite bool_decide_false by (by destruct iv).
  rewrite bool_decide_false; [done|lia].
Qed.

Lemma check_key_iv_long key iv w :
  length key = 32 → 128 < length iv →
  check_key_iv key iv w = (Throw (TypeError "Invalid initialization vector"), w).
Proof.
  intros Hk Hmax. unfold check_key_iv, GCM_IV_MAX_SIZE.
  rewrite bool_decide_true by done.
  case_bool_decide; [done|]. by rewrite bool_decide_true.
Qed.

Lemma check_key_iv_empty key w :
  length key = 32 →
  check_key_iv key [] w = (Throw (TypeError "Invalid initialization vector"), w).
Proof.
  intros Hk. unfold check_key_iv. by rewrite bool_decide_true by done.
Qed.

Lemma encryption_deriveKey_fresh password w :
  password ≠ "" →
  let saltBytes := map (entropy w) (seq 0 16) in
  Encryption.deriveKey password None w
  = (Normal (mkDerivedKey (length (heap w)) saltBytes PBKDF2_ITERATIONS),
     mkWorld (λ i, entropy w (16 + i)) (files w)
       (heap w ++ [pbkdf2 password saltBytes PBKDF2_ITERATIONS AES_KEY_LENGTH_BYTES])
       (trace w ++ [EvDeriveKey])).
Proof.
  intros Hne. unfold Encryption.deriveKey, bind; cbn [record].
  by rewrite eqb_nonempty.
Qed.

Lemma encryption_deriveKey_given password s w :
  password ≠ "" →
  Encryption.deriveKey password (Some s) w
  = (Normal (mkDerivedKey (length (heap w)) s PBKDF2_ITERATIONS),
     mkWorld (entropy w) (files w)
       (heap w ++ [pbkdf2 password s PBKDF2_ITERATIONS AES_KEY_LENGTH_BYTES])
       (trace w ++ [EvDeriveKey])).
Proof.
  intros Hne. unfold Encryption.deriveKey, bind; cbn [record].
  by rewrite eqb_nonempty.
Qed.

Lemma decryption_deriveKey_ok password s w :
  password ≠ "" → s ≠ [] →
  Decryption.deriveKey password s w
  = (Normal (mkDerivedKey (length (heap w)) s PBKDF2_ITERATIONS),
     mkWorld (entropy w) (files w)
       (heap w ++ [pbkdf2 password s PBKDF2_ITERATIONS AES_KEY_LENGTH_BYTES])
       (trace w ++ [EvDeriveKey])).
Proof.
  intros Hne Hs. unfold Decryption.deriveKey, bind; cbn [record].
  rewrite eqb_nonempty by done. by destruct s.
Qed.

Lemma readBuffer_allocated (h : list Buffer) b e f t :
  readBuffer (length h) (mkWorld e f (h ++ [b]) t)
  = (Normal b, mkWorld e f (h ++ [b]) t).
Proof. unfold readBuffer. cbn [heap]. by rewrite lookup_allocated. Qed.

Lemma fillBuffer_allocated (h : list Buffer) b e f t :
  fillBuffer (length h) (mkWorld e f (h ++ [b]) t)
  = (Normal tt, mkWorld e f (h ++ [fill0 b]) t).
Proof. unfold fillBuffer, set_heap. cbn [heap]. by rewrite alter_allocated. Qed.

Lemma createCipheriv_ok key iv w :
  length key = 32 → iv ≠ [] → length iv ≤ 128 →
  createCipheriv key iv w = (Normal (mkCipher key iv []), w).
Proof.
  intros Hk Hiv Hmax. unfold createCipheriv.
  by rewrite (bind_normal _ _ _ _ _ (check_key_iv_ok key iv w Hk Hiv Hmax)).
Qed.

Lemma createDecipheriv_ok key iv w :
  length key = 32 → iv ≠ [] → length iv ≤ 128 →
  createDecipheriv key iv w = (Normal (mkDecipher key iv None []), w).
Proof.
  intros Hk Hiv Hmax. unfold createDecipheriv.
  by rewrite (bind_normal _ _ _ _ _ (check_key_iv_ok key iv w Hk Hiv Hmax)).
Qed.


Lemma validatePayload_accepts c s i t w :
  length s = 16 → length i = 12 → length t = 16 →
  Decryption.validatePayload
    (mkPayload (Some (Base64.encode c)) (Some (Base64.encode s))
       (Some (Base64.encode i)) (Some (Base64.encode t)) (Some 1%Z)) w
  = (Normal tt, w).
Proof.
  intros Hs Hi Ht. unfold Decryption.validatePayload.
  rewrite (bind_normal _ _ _ _ _ (check_required_present _ _ _ _ _ w)).
  cbn [bind cipherText salt iv authTag version prop ret].
  rewrite !isValidBase64_well_formed, nonempty_length.
  rewrite (encode_well_formed s), (encode_well_formed i), (encode_well_formed t)
    by (by intros ->).
  unfold Decryption.fromBase64. rewrite !decode_encode, Hs, Hi, Ht.
  rewrite encode_eqb_empty.
  destruct (decide (c = [])) as [->|Hc]; [done|].
  rewrite bool_decide_false by done.
  by rewrite encode_well_formed.
Qed.

Lemma auth_failure_classified :
  Decryption.classify (Error "Unsupported state or unable to authenticate data")
  = DecryptionError
      "Decryption failed: incorrect password or data has been tampered with."
      WRONG_PASSWORD.
Proof. reflexivity. Qed.

(** The cipher steps inside the [try] blocks, on a 32-octet key, an IV of 1
    to 128 octets and a 16-octet tag; [k] is what the block does with the
    plaintext. *)
Lemma decipher_steps {A} (k : Buffer → JS A) key ivBytes authTagBytes cipherBytes w :
  length key = 32 → ivBytes ≠ [] → length ivBytes ≤ 128 →
  length authTagBytes = 16 →
  (let* decipher := createDecipheriv key ivBytes in
   let* decipher := setAuthTag decipher authTagBytes in
   let (decipher, updated) := decipher_update decipher cipherBytes in
   let* final := decipher_final decipher in
   k (updated ++ final)) w
  = if bool_decide (authTagBytes = gcm_tag key ivBytes cipherBytes)
    then k (ctr_xor key ivBytes 0 cipherBytes) w
    else (Throw (Error "Unsupported state or unable to authenticate data"), w).
Proof.
  intros Hk Hiv Hmax Ht.
  erewrite bind_normal by by apply createDecipheriv_ok.
  unfold setAuthTag. rewrite bool_decide_true by done.
  erewrite bind_normal by reflexivity.
  unfold decipher_update, decipher_final, bind.
  cbn [decipher_key decipher_iv decipher_tag decipher_in length app].
  case_bool_decide; [|done].
  unfold ret. by rewrite app_nil_r.
Qed.

(** [decryptBuffer] on a payload whose fields are the base-64 text of any
    ciphertext, a 16-octet salt, a 12-octet IV and a 16-octet tag. *)
Lemma decryptBuffer_well_formed c s i t password w :
  password ≠ "" → length s = 16 → length i = 12 → length t = 16 →
  let key := pbkdf2 password s PBKDF2_ITERATIONS AES_KEY_LENGTH_BYTES in
  Decryption.decryptBuffer
    (mkPayload (Some (Base64.encode c)) (Some (Base64.encode s))
       (Some (Base64.encode i)) (Some (Base64.encode t)) (Some 1%Z)) password w
  = (if bool_decide (t = gcm_tag key i c)
     then Normal (mkDecryptionResult (ctr_xor key i 0 c) true)
     else Throw (DecryptionError
                   "Decryption failed: incorrect password or data has been tampered with."
                   WRONG_PASSWORD),
     mkWorld (entropy w) (files w) (heap w ++ [fill0 key])
       (trace w ++ [EvDeriveKey])).
Proof.
  intros Hne Hs Hi Ht key.
  unfold Decryption.decryptBuffer.
  rewrite (bind_normal _ _ _ _ _ (decryption_validatePassword_ok _ w Hne)).
  rewrite (bind_normal _ _ _ _ _ (validatePayload_accepts c s i t w Hs Hi Ht)).
  cbn [bind cipherText salt iv authTag version prop ret].
  unfold Decryption.fromBase64. rewrite !decode_encode.
  erewrite bind_normal
    by (apply decryption_deriveKey_ok; [done | by intros ->]).
  cbn [dk_key]. fold key.
  assert (i ≠ []) as Hiv by (by intros ->).
  unfold Decryption.secureWipe.
  case_bool_decide as Htag.
  - eapply try_finally_normal; [|apply fillBuffer_allocated].
    apply try_catch_normal.
    erewrite bind_normal by apply readBuffer_allocated.
    rewrite (decipher_steps (λ p, ret (mkDecryptionResult p true)))
      by first [apply length_pbkdf2 | done | lia].
    by rewrite bool_decide_true.
  - eapply try_finally_normal; [|apply fillBuffer_allocated].
    erewrite try_catch_throw; [by rewrite auth_failure_classified|].
    erewrite bind_normal by apply readBuffer_allocated.
    rewrite (decipher_steps (λ p, ret (mkDecryptionResult p true)))
      by first [apply length_pbkdf2 | done | lia].
    by rewrite bool_decide_false.
Qed.

(** ** Round trip *)


End steps.


(** ** Fresh randomness *)

Section fresh_randomness.
Context `{Primitives}.
Import Crypto.


End fresh_randomness.



(** ** The key Buffer of encryptBuffer *)

Section key_wipe.
Context `{Primitives}.
Import Crypto.

(** C3 fails on the code: when the cipher step of [encryptBuffer] throws
    (here [createCipheriv], on an empty IV supplied by the caller), the
    error leaves the function while the Buffer of the derived key still
    holds the key; on the path without an error the same Buffer ends up
    zeroed. *)
Theorem encryptBuffer_throw_keeps_key (d : EncryptionInput) (password : string)
    (s : Buffer) (w : World) :
  8 ≤ String.length password →
  (∃ w',
     Encryption.encryptBuffer d (mkEncryptOptions password (Some s) (Some [])) w
     = (Throw (TypeError "Invalid initialization vector"), w')
     ∧ heap w' !! length (heap w)
       = Some (pbkdf2 password s PBKDF2_ITERATIONS AES_KEY_LENGTH_BYTES))
  ∧ (∃ payload w',
       Encryption.encryptBuffer d (mkEncryptOptions password (Some s) (Some [x00])) w
       = (Normal payload, w')
       ∧ heap w' !! length (heap w) = Some (repeat x00 32)).
Proof.
  intros Hlen.
  pose proof (long_password_nonempty _ Hlen) as Hne.
  split.
  - eexists. unfold Encryption.encryptBuffer.
    rewrite (bind_normal _ _ _ _ _ (encryption_validatePassword_ok _ w Hlen)).
    cbn [opt_iv opt_salt opt_password].
    erewrite bind_normal by reflexivity.
    erewrite bind_normal by (by apply encryption_deriveKey_given).
    cbn [dk_key dk_salt].
    erewrite bind_normal by apply readBuffer_allocated.
    split.
    + erewrite bind_throw; [reflexivity|].
      unfold createCipheriv.
      erewrite bind_throw; [reflexivity|].
      apply check_key_iv_empty, length_pbkdf2.
    + cbn [heap]. apply lookup_allocated.
  - eexists _, _. unfold Encryption.encryptBuffer.
    rewrite (bind_normal _ _ _ _ _ (encryption_validatePassword_ok _ w Hlen)).
    cbn [opt_iv opt_salt opt_password].
    erewrite bind_normal by reflexivity.
    erewrite bind_normal by (by apply encryption_deriveKey_given).
    cbn [dk_key dk_salt].
    erewrite bind_normal by apply readBuffer_allocated.
    erewrite bind_normal
      by (apply createCipheriv_ok; [apply length_pbkdf2 | done | cbn; lia]).
    unfold cipher_update.
    erewrite bind_normal by apply fillBuffer_allocated.
    split; [reflexivity|].
    cbn [heap]. rewrite lookup_allocated. unfold fill0.
    by rewrite length_pbkdf2.
Qed.

End key_wipe.

Lemma encryptBuffer_throw_keeps_key_witness :
  8 ≤ String.length "test-password-123"
  ∧ (∃ w',
       @Encryption.encryptBuffer toy_primitives (InString "secret")
         (mkEncryptOptions "test-password-123" (Some (repeat x00 16)) (Some []))
         empty_world
       = (Throw (TypeError "Invalid initialization vector"), w')
       ∧ heap w' !! length (heap empty_world)
         = Some (@Crypto.pbkdf2 toy_primitives "test-password-123" (repeat x00 16)
                   PBKDF2_ITERATIONS AES_KEY_LENGTH_BYTES))
  ∧ (∃ payload w',
       @Encryption.encryptBuffer toy_primitives (InString "secret")
         (mkEncryptOptions "test-password-123" (Some (repeat x00 16)) (Some [x00]))
         empty_world
       = (Normal payload, w')
       ∧ heap w' !! length (heap empty_world) = Some (repeat x00 32)).
Proof.
  split; [cbn; lia|].
  apply (@encryptBuffer_throw_keeps_key toy_primitives); cbn; lia.
Defined.

(** ** Files *)

Lemma node_at_file w path content readable :
  Fs.node_at w path = Some (File content readable) →
  files w !! path = Some (File content readable).
Proof. unfold Fs.node_at. by case_bool_decide. Qed.

Lemma node_at_same_files w1 w2 path :
  files w1 = files w2 → Fs.node_at w1 path = Fs.node_at w2 path.
Proof. unfold Fs.node_at. by intros ->. Qed.

Lemma node_at_insert_ne w path other node :
  path ≠ other →
  Fs.node_at (set_files (<[other := node]> (files w)) w) path = Fs.node_at w path.
Proof.
  intros Hne. unfold Fs.node_at. cbn [files set_files].
  by rewrite lookup_insert_ne.
Qed.

Lemma existsSync_found w path node :
  Fs.node_at w path = Some node → Fs.existsSync path w = (Normal true, w).
Proof.
  intros Hn. unfold Fs.existsSync. rewrite Hn.
  by rewrite bool_decide_true by eauto.
Qed.

Lemma existsSync_missing w path :
  Fs.node_at w path = None → Fs.existsSync path w = (Normal false, w).
Proof.
  intros Hn. unfold Fs.existsSync. rewrite Hn.
  rewrite bool_decide_false; [done|]. by intros [? ?].
Qed.

Lemma check_input_file_ok w inputPath content readable :
  Fs.node_at w inputPath = Some (File content readable) →
  Decryption.check_input_file inputPath w
  = (Normal (Fs.mkStats true (length content)), w).
Proof.
  intros Hn. unfold Decryption.check_input_file.
  erewrite bind_normal by by eapply existsSync_found.
  cbn [negb]. unfold bind, Fs.statSync. by rewrite Hn.
Qed.

Lemma unlinkSync_file w path content readable :
  Fs.node_at w path = Some (File content readable) →
  Fs.unlinkSync path w = (Normal tt, set_files (delete path (files w)) w).
Proof. intros Hn. unfold Fs.unlinkSync. by rewrite Hn. Qed.

Lemma cleanup_output_file w path content readable :
  Fs.node_at w path = Some (File content readable) →
  Decryption.cleanup_output path w
  = (Normal tt, set_files (delete path (files w)) w).
Proof.
  intros Hn. unfold Decryption.cleanup_output.
  erewrite bind_normal by by eapply existsSync_found.
  apply try_catch_normal. by eapply unlinkSync_file.
Qed.

Section file_cleanup.
Context `{Primitives}.
Import Crypto.

(** The cipher steps when they do not all succeed: some error that is not a
    [DecryptionError] is thrown, and the world is as it was. *)
Lemma decipher_steps_fail {A} (k : Buffer → JS A) key ivBytes authTagBytes cipherBytes w :
  length key = 32 →
  ¬ (ivBytes ≠ [] ∧ length ivBytes ≤ 128 ∧ length authTagBytes = 16
     ∧ authTagBytes = gcm_tag key ivBytes cipherBytes) →
  ∃ e,
    instanceof_DecryptionError e = false
    ∧ (let* decipher := createDecipheriv key ivBytes in
       let* decipher := setAuthTag decipher authTagBytes in
       let (decipher, updated) := decipher_update decipher cipherBytes in
       let* final := decipher_final decipher in
       k (updated ++ final)) w = (Throw e, w).
Proof.
  intros Hk Hfail.
  destruct (decide (ivBytes = [])) as [->|Hiv].
  { eexists. split; [|erewrite bind_throw; [reflexivity|]].
    2: { unfold createDecipheriv. erewrite bind_throw; [reflexivity|].
         by apply check_key_iv_empty. }
    done. }
  destruct (decide (length ivBytes ≤ 128)) as [Hmax|Hmax].
  2: { eexists. split; [|erewrite bind_throw; [reflexivity|]].
       2: { unfold createDecipheriv. erewrite bind_throw; [reflexivity|].
            apply check_key_iv_long; [done|lia]. }
       done. }
  erewrite bind_normal by by apply createDecipheriv_ok.
  unfold setAuthTag.
  case_bool_decide as Ht; [|eexists; split; [|reflexivity]; done].
  erewrite bind_normal by reflexivity.
  unfold decipher_update, decipher_final, bind.
  cbn [decipher_key decipher_iv decipher_tag decipher_in length app].
  case_bool_decide as Htag; [by destruct Hfail|].
  eexists; split; [|reflexivity]; done.
Qed.

(** C9: when the decryption inside [decryptFile] fails (an empty IV, a tag
    of the wrong length, or a tag that does not verify, as for a wrong
    password), the file found at [outputPath] is unlinked, although it was
    there before the call and this call never wrote to it; every other path
    is left as it was. *)
Theorem decryptFile_failure_unlinks_existing (inputPath outputPath : string)
    (metadata : EncryptionMetadata) (password : string)
    (cipherBytes old : Buffer) (readable : bool) (w : World) :
  password ≠ "" →
  Fs.node_at w inputPath = Some (File cipherBytes true) →
  Fs.node_at w outputPath = Some (File old readable) →
  Decryption.fromBase64 (meta_salt metadata) ≠ [] →
  ¬ (Decryption.fromBase64 (meta_iv metadata) ≠ []
     ∧ length (Decryption.fromBase64 (meta_authTag metadata)) = 16
     ∧ Decryption.fromBase64 (meta_authTag metadata)
       = gcm_tag (pbkdf2 password (Decryption.fromBase64 (meta_salt metadata))
                    PBKDF2_ITERATIONS AES_KEY_LENGTH_BYTES)
           (Decryption.fromBase64 (meta_iv metadata)) cipherBytes) →
  ∃ m code w',
    Decryption.decryptFile inputPath outputPath metadata password w
    = (Throw (DecryptionError m code), w')
    ∧ files w' = delete outputPath (files w)
    ∧ files w' !! outputPath = None.
Proof.
  intros Hne Hin Hout Hsalt Hfail.
  unfold Decryption.decryptFile.
  rewrite (bind_normal _ _ _ _ _ (decryption_validatePassword_ok _ w Hne)).
  erewrite bind_normal by by eapply check_input_file_ok.
  erewrite bind_normal by (unfold Fs.readFileSync; by rewrite Hin).
  erewrite bind_normal by by apply decryption_deriveKey_ok.
  cbn [dk_key].
  set (key := pbkdf2 _ _ _ _) in *.
  set (w1 := mkWorld _ _ (heap w ++ [key]) _).
  destruct (decipher_steps_fail
              (λ plaintext,
                 let* _ := Decryption.ensure_output_dir outputPath in
                 let* _ := Fs.writeFileSync outputPath plaintext in
                 ret (mkDecryptFileResult outputPath (meta_originalFileName metadata)
                        (meta_mimeType metadata) (length plaintext) true))
              key (Decryption.fromBase64 (meta_iv metadata))
              (Decryption.fromBase64 (meta_authTag metadata)) cipherBytes w1
              (length_pbkdf2 _ _ _)) as (e & He & Hblock).
  { intros (Hiv & _ & Htag). apply Hfail. by split. }
  assert (Fs.node_at w1 outputPath = Some (File old readable)) as Hout1
    by (by rewrite (node_at_same_files w1 w)).
  destruct (Decryption.classify e) as [| | |m code] eqn:Hclass;
    try (unfold Decryption.classify in Hclass;
         destruct (Decryption.is_auth_failure e); discriminate Hclass).
  exists m, code. eexists. split; [|split].
  - eapply try_finally_normal; [|apply fillBuffer_allocated].
    erewrite try_catch_throw.
    2: { erewrite bind_normal by apply readBuffer_allocated. exact Hblock. }
    erewrite bind_normal by by eapply cleanup_output_file.
    rewrite He, Hclass. reflexivity.
  - reflexivity.
  - cbn [files]. apply lookup_delete_eq.
Qed.

End file_cleanup.

(** The tag of the toy primitives does not look at the key. *)
Lemma toy_gcm_tag key ivBytes c :
  @Crypto.gcm_tag toy_primitives key ivBytes c
  = map (λ i, byte_of_N (N.of_nat (length c + i))) (seq 0 16).
Proof. reflexivity. Qed.

Lemma decryptFile_failure_unlinks_existing_witness :
  ∃ m code w',
    @Decryption.decryptFile toy_primitives "/vault/doc.enc" "/vault/report.txt"
      vault_metadata "wrong-password-999" vault_world
    = (Throw (DecryptionError m code), w')
    ∧ files w' = delete "/vault/report.txt" (files vault_world)
    ∧ files w' !! "/vault/report.txt" = None.
Proof.
  apply (@decryptFile_failure_unlinks_existing toy_primitives _ _ _ _
           [x2a] (utf8 "quarterly report") true).
  - done.
  - by vm_compute.
  - by vm_compute.
  - by vm_compute.
  - intros (_ & _ & E). rewrite toy_gcm_tag in E. by vm_compute in E.
Defined.

(** ** The streaming variant *)

Section stream_cleanup.
Context `{Primitives}.
Import Crypto.

Lemma setAuthTag_ok d t w :
  length t = 16 →
  setAuthTag d t w
  = (Normal (mkDecipher (decipher_key d) (decipher_iv d) (Some t) (decipher_in d)), w).
Proof. intros Ht. unfold setAuthTag. by rewrite bool_decide_true. Qed.

Lemma ensure_output_dir_present w outputPath node :
  Fs.node_at w (Path.dirname outputPath) = Some node →
  Decryption.ensure_output_dir outputPath w = (Normal tt, w).
Proof.
  intros Hd. unfold Decryption.ensure_output_dir.
  by erewrite bind_normal by by eapply existsSync_found.
Qed.

(** C5 fails on the code: when the read stream of [decryptFileStream] emits
    an error (here the encrypted file may not be read), the promise is
    rejected with FILE_ERROR while the output file, which the write stream
    has created, stays at [outputPath]; the handler of that error does not
    unlink it. *)
Theorem decryptFileStream_read_error_keeps_output (inputPath outputPath : string)
    (metadata : EncryptionMetadata) (password : string) (onProgress : bool)
    (cipherBytes : Buffer) (w : World) :
  password ≠ "" →
  Fs.node_at w inputPath = Some (File cipherBytes false) →
  Fs.node_at w outputPath = None →
  Fs.node_at w (Path.dirname outputPath) = Some Dir →
  Decryption.fromBase64 (meta_salt metadata) ≠ [] →
  Decryption.fromBase64 (meta_iv metadata) ≠ [] →
  length (Decryption.fromBase64 (meta_iv metadata)) ≤ 128 →
  length (Decryption.fromBase64 (meta_authTag metadata)) = 16 →
  ∃ m w',
    Decryption.decryptFileStream inputPath outputPath metadata password onProgress w
    = (Throw (DecryptionError m FILE_ERROR), w')
    ∧ files w' !! outputPath = Some (File [] true).
Proof.
  intros Hne Hin Hout Hdir Hsalt Hiv Hmax Htag.
  unfold Decryption.decryptFileStream.
  rewrite (bind_normal _ _ _ _ _ (decryption_validatePassword_ok _ w Hne)).
  erewrite bind_normal by by eapply check_input_file_ok.
  erewrite bind_normal by by apply decryption_deriveKey_ok.
  cbn [dk_key].
  set (key := pbkdf2 _ _ _ _).
  erewrite bind_normal by apply readBuffer_allocated.
  erewrite bind_normal
    by (apply createDecipheriv_ok; [apply length_pbkdf2 | done | done]).
  erewrite bind_normal by by apply setAuthTag_ok.
  set (w1 := mkWorld _ _ (heap w ++ [key]) _).
  erewrite bind_normal
    by (eapply ensure_output_dir_present;
        by rewrite (node_at_same_files w1 w)).
  assert (Fs.openReadStream inputPath w1 = (Throw (Fs.eacces "open" inputPath), w1))
    as Hread.
  { unfold Fs.openReadStream. apply bind_throw.
    unfold Fs.readFileSync. by rewrite (node_at_same_files w1 w), Hin. }
  erewrite bind_normal by (unfold attempt; by rewrite Hread).
  assert (Fs.openWriteStream outputPath w1
          = (Normal tt, set_files (<[outputPath := File [] true]> (files w1)) w1))
    as Hopen.
  { unfold Fs.openWriteStream, Fs.writeFileSync.
    by rewrite !(node_at_same_files w1 w), Hout, Hdir. }
  erewrite bind_normal by (unfold attempt; by rewrite Hopen).
  cbv beta iota.
  unfold Decryption.secureWipe.
  erewrite bind_normal by apply fillBuffer_allocated.
  eexists _, _. split; [reflexivity|].
  cbn [files]. apply lookup_insert_eq.
Qed.

End stream_cleanup.

Example dirname_examples :
  Path.dirname "/vault/doc.txt" = "/vault"
  ∧ Path.dirname "/vault/out/" = "/vault"
  ∧ Path.dirname "doc.txt" = "."
  ∧ Path.dirname "/doc.txt" = "/"
  ∧ Path.dirname "a//b" = "a/"
  ∧ Path.dirname "" = ".".
Proof. by vm_compute. Qed.

Lemma decryptFileStream_read_error_keeps_output_witness :
  ∃ m w',
    @Decryption.decryptFileStream toy_primitives "/vault/doc.enc" "/vault/doc.txt"
      vault_metadata "test-password-123" true locked_vault_world
    = (Throw (DecryptionError m FILE_ERROR), w')
    ∧ files w' !! "/vault/doc.txt" = Some (File [] true).
Proof.
  apply (@decryptFileStream_read_error_keeps_output toy_primitives _ _ _ _ _ [x2a]);
    first [by vm_compute | vm_compute; lia].
Defined.

Lemma concat_chunks_fuel fuel n (data : Buffer) :
  concat (Fs.chunks_fuel fuel n data) = data.
Proof.
  revert data. induction fuel as [|fuel IH]; intros [|b data]; try done.
  - cbn. by rewrite app_nil_r.
  - cbn [Fs.chunks_fuel concat]. rewrite IH. apply take_drop.
Qed.

Lemma concat_chunks n (data : Buffer) : concat (Fs.chunks n data) = data.
Proof. apply concat_chunks_fuel. Qed.

Lemma node_at_none w path :
  Fs.node_at w path = None →
  ¬ (path = "/" ∨ path = ".") ∧ files w !! path = None.
Proof. unfold Fs.node_at. by case_bool_decide. Qed.

Lemma node_at_regular w path :
  ¬ (path = "/" ∨ path = ".") → Fs.node_at w path = files w !! path.
Proof. intros Hp. unfold Fs.node_at. by rewrite bool_decide_false. Qed.

Section stream_auth_failure.
Context `{Primitives}.
Import Crypto.

(** The pipe writes to the output as it goes: afterwards the decipher has
    consumed all the chunks and the output file holds what was written. *)
Lemma pipe_chunks_run outputPath onProgress totalBytes chunks d n w content readable :
  files w !! outputPath = Some (File content readable) →
  ∃ w' content',
    Decryption.pipe_chunks outputPath onProgress totalBytes chunks d n w
    = (Normal (mkDecipher (decipher_key d) (decipher_iv d) (decipher_tag d)
                 (decipher_in d ++ concat chunks)), w')
    ∧ files w' = <[outputPath := File content' readable]> (files w)
    ∧ heap w' = heap w.
Proof.
  revert d n w content.
  induction chunks as [|chunk rest IH]; intros d n w content Hout.
  - exists w, content. cbn [Decryption.pipe_chunks concat].
    rewrite app_nil_r. destruct d.
    repeat split. by rewrite insert_id.
  - cbn [Decryption.pipe_chunks concat].
    set (w0 := if onProgress
               then set_trace (trace w ++ [EvProgress (n + length chunk) totalBytes]) w
               else w).
    assert ((if onProgress
             then record (EvProgress (n + length chunk) totalBytes)
             else ret tt) w = (Normal tt, w0)) as Hrec
      by (unfold w0; by destruct onProgress).
    rewrite (bind_normal _ _ _ _ _ Hrec).
    assert (files w0 = files w ∧ heap w0 = heap w) as [Hf0 Hh0]
      by (unfold w0; by destruct onProgress).
    unfold decipher_update.
    set (plain := ctr_xor _ _ _ chunk).
    assert (Fs.writeChunk outputPath plain w0
            = (Normal tt,
               set_files (<[outputPath := File (content ++ plain) readable]> (files w0)) w0))
      as Hwrite by (unfold Fs.writeChunk; by rewrite Hf0, Hout).
    rewrite (bind_normal _ _ _ _ _ Hwrite).
    edestruct (IH (mkDecipher (decipher_key d) (decipher_iv d) (decipher_tag d)
                     (decipher_in d ++ chunk)) (n + length chunk)
                 (set_files (<[outputPath := File (content ++ plain) readable]> (files w0)) w0)
                 (content ++ plain))
      as (w' & content' & Hrun & Hfiles & Hheap).
    { cbn [files set_files]. apply lookup_insert_eq. }
    exists w', content'. rewrite Hrun.
    cbn [decipher_key decipher_iv decipher_tag decipher_in] in *.
    rewrite <- app_assoc. repeat split.
    + rewrite Hfiles. cbn [files set_files]. by rewrite insert_insert_eq, Hf0.
    + by rewrite Hheap.
Qed.

(** X1: when the tag does not verify at the end of the stream, the handler
    of the decipher error unlinks the output that the pipe has written and
    the promise is rejected with WRONG_PASSWORD: this handler does the
    cleanup that the handlers of the read and write errors leave out. *)
Theorem decryptFileStream_auth_failure_unlinks_output (inputPath outputPath : string)
    (metadata : EncryptionMetadata) (password : string) (onProgress : bool)
    (cipherBytes : Buffer) (w : World) :
  password ≠ "" →
  Fs.node_at w inputPath = Some (File cipherBytes true) →
  Fs.node_at w outputPath = None →
  Fs.node_at w (Path.dirname outputPath) = Some Dir →
  Decryption.fromBase64 (meta_salt metadata) ≠ [] →
  Decryption.fromBase64 (meta_iv metadata) ≠ [] →
  length (Decryption.fromBase64 (meta_iv metadata)) ≤ 128 →
  length (Decryption.fromBase64 (meta_authTag metadata)) = 16 →
  Decryption.fromBase64 (meta_authTag metadata)
  ≠ gcm_tag (pbkdf2 password (Decryption.fromBase64 (meta_salt metadata))
               PBKDF2_ITERATIONS AES_KEY_LENGTH_BYTES)
      (Decryption.fromBase64 (meta_iv metadata)) cipherBytes →
  ∃ w',
    Decryption.decryptFileStream inputPath outputPath metadata password onProgress w
    = (Throw (DecryptionError
                "Decryption failed: incorrect password or data has been tampered with."
                WRONG_PASSWORD), w')
    ∧ files w' !! outputPath = None.
Proof.
  intros Hne Hin Hout Hdir Hsalt Hiv Hmax Htag Hbad.
  destruct (node_at_none _ _ Hout) as [Hreg Hnone].
  unfold Decryption.decryptFileStream.
  rewrite (bind_normal _ _ _ _ _ (decryption_validatePassword_ok _ w Hne)).
  erewrite bind_normal by by eapply check_input_file_ok.
  erewrite bind_normal by by apply decryption_deriveKey_ok.
  cbn [dk_key].
  set (key := pbkdf2 _ _ _ _) in *.
  erewrite bind_normal by apply readBuffer_allocated.
  erewrite bind_normal
    by (apply createDecipheriv_ok; [apply length_pbkdf2 | done | done]).
  erewrite bind_normal by by apply setAuthTag_ok.
  set (w1 := mkWorld _ _ (heap w ++ [key]) _).
  erewrite bind_normal
    by (eapply ensure_output_dir_present;
        by rewrite (node_at_same_files w1 w)).
  assert (Fs.openReadStream inputPath w1
          = (Normal (Fs.chunks Fs.READ_STREAM_CHUNK cipherBytes), w1)) as Hread.
  { unfold Fs.openReadStream. erewrite bind_normal; [reflexivity|].
    unfold Fs.readFileSync. by rewrite (node_at_same_files w1 w), Hin. }
  erewrite bind_normal by (unfold attempt; by rewrite Hread).
  assert (Fs.openWriteStream outputPath w1
          = (Normal tt, set_files (<[outputPath := File [] true]> (files w1)) w1))
    as Hopen.
  { unfold Fs.openWriteStream, Fs.writeFileSync.
    by rewrite !(node_at_same_files w1 w), Hout, Hdir. }
  erewrite bind_normal by (unfold attempt; by rewrite Hopen).
  cbv beta iota.
  edestruct (pipe_chunks_run outputPath onProgress (length cipherBytes)
               (Fs.chunks Fs.READ_STREAM_CHUNK cipherBytes)
               (mkDecipher key (Decryption.fromBase64 (meta_iv metadata))
                  (Some (Decryption.fromBase64 (meta_authTag metadata))) []) 0
               (set_files (<[outputPath := File [] true]> (files w1)) w1) [] true)
    as (w3 & content' & Hrun & Hfiles & Hheap).
  { cbn [files set_files]. apply lookup_insert_eq. }
  cbn [Fs.size]. rewrite (bind_normal _ _ _ _ _ Hrun).
  rewrite concat_chunks.
  cbn [decipher_key decipher_iv decipher_tag decipher_in app].
  assert (decipher_final
            (mkDecipher key (Decryption.fromBase64 (meta_iv metadata))
               (Some (Decryption.fromBase64 (meta_authTag metadata))) cipherBytes) w3
          = (Throw (Error "Unsupported state or unable to authenticate data"), w3))
    as Hfinal.
  { unfold decipher_final.
    cbn [decipher_key decipher_iv decipher_tag decipher_in].
    by rewrite bool_decide_false. }
  erewrite bind_normal by (unfold attempt; by rewrite Hfinal).
  cbv beta iota.
  erewrite bind_normal by reflexivity.
  erewrite bind_normal.
  2: { eapply (cleanup_output_file _ _ content' true).
       rewrite node_at_regular by done. cbn [files set_heap].
       rewrite Hfiles. apply lookup_insert_eq. }
  eexists. split; [reflexivity|].
  cbn [files set_files]. apply lookup_delete_eq.
Qed.

End stream_auth_failure.

Lemma decryptFileStream_auth_failure_unlinks_output_witness :
  ∃ w',
    @Decryption.decryptFileStream toy_primitives "/vault/doc.enc" "/vault/doc.txt"
      vault_metadata "wrong-password-999" true vault_world
    = (Throw (DecryptionError
                "Decryption failed: incorrect password or data has been tampered with."
                WRONG_PASSWORD), w')
    ∧ files w' !! "/vault/doc.txt" = None.
Proof.
  apply (@decryptFileStream_auth_failure_unlinks_output toy_primitives _ _ _ _ _ [x2a]).
  1-8: first [by vm_compute | vm_compute; lia].
  rewrite toy_gcm_tag. by vm_compute.
Defined.

(** ** The key Buffer of decryptBuffer *)

Section decrypt_key_wipe.
Context `{Primitives}.
Import Crypto.

(** X2: on a well-formed payload [decryptBuffer] leaves the Buffer of the
    derived key zeroed, whether it returns the plaintext or raises
    WRONG_PASSWORD: its [finally] block does what [encryptBuffer] does on
    the path without an error only. *)
Theorem decryptBuffer_wipes_key (c s i t : Buffer) (password : string) (w : World) :
  password ≠ "" → length s = 16 → length i = 12 → length t = 16 →
  ∃ r w',
    Decryption.decryptBuffer
      (mkPayload (Some (Decryption.toBase64 c)) (Some (Decryption.toBase64 s))
         (Some (Decryption.toBase64 i)) (Some (Decryption.toBase64 t))
         (Some ENCRYPTION_FORMAT_VERSION)) password w
    = (r, w')
    ∧ heap w' !! length (heap w) = Some (repeat x00 32).
Proof.
  intros Hne Hs Hi Ht. eexists _, _. split.
  - by apply decryptBuffer_well_formed.
  - cbn [heap]. rewrite lookup_allocated. unfold fill0.
    by rewrite length_pbkdf2.
Qed.

End decrypt_key_wipe.

Lemma decryptBuffer_wipes_key_witness :
  ∃ r w',
    @Decryption.decryptBuffer toy_primitives
      (mkPayload (Some (Decryption.toBase64 [x2a]))
         (Some (Decryption.toBase64 (repeat x00 16)))
         (Some (Decryption.toBase64 (repeat x00 12)))
         (Some (Decryption.toBase64 (repeat x00 16)))
         (Some ENCRYPTION_FORMAT_VERSION)) "wrong-password-999" empty_world
    = (r, w')
    ∧ heap w' !! length (heap empty_world) = Some (repeat x00 32).
Proof.
  apply (@decryptBuffer_wipes_key toy_primitives); done.
Defined.

(** * More of the two modules *)

(** ** The encoders and decoders of utils.ts *)

(** X3: base-64 text produced by [toBase64] decodes to the octets it was
    made from, in each module and from the encryption module to the
    decryption module. *)
Theorem fromBase64_toBase64 (b : Buffer) :
  Encryption.fromBase64 (Encryption.toBase64 b) = b
  ∧ Decryption.fromBase64 (Decryption.toBase64 b) = b
  ∧ Decryption.fromBase64 (Encryption.toBase64 b) = b.
Proof. repeat split; apply decode_encode. Qed.

(** X4: [isValidBase64] accepts the base-64 text of every Buffer but the
    empty one, whose text is the empty string. *)
Theorem isValidBase64_toBase64 (b : Buffer) :
  Encryption.isValidBase64 (Encryption.toBase64 b) = bool_decide (b ≠ [])
  ∧ Decryption.isValidBase64 (Decryption.toBase64 b) = bool_decide (b ≠ []).
Proof.
  rewrite encryption_isValidBase64_well_formed, isValidBase64_well_formed.
  unfold Encryption.toBase64, Decryption.toBase64.
  destruct (decide (b = [])) as [->|Hne].
  - by rewrite bool_decide_false by (by intros []).
  - by rewrite encode_well_formed, bool_decide_true.
Qed.

Section hex_facts.
Import Hex.

Lemma unhex_hex_char n : (n < 16)%N → unhex (hex_char n) = Some n.
Proof.
  intros Hn.
  assert (forallb (λ n, bool_decide (unhex (hex_char n) = Some n))
            (map N.of_nat (seq 0 16)) = true) as Hall by (by vm_compute).
  rewrite forallb_forall in Hall.
  eapply bool_decide_eq_true_1, Hall.
  rewrite <- (N2Nat.id n). apply in_map, in_seq. lia.
Qed.

Lemma hex_decode_encode_app (bs : Buffer) (s : string) :
  decode (encode bs +:+ s) = bs ++ decode s.
Proof.
  induction bs as [|b rest IH]; [done|].
  cbn [encode].
  change (String ?a (String ?b ?r) +:+ s) with (String a (String b (r +:+ s))).
  cbn [decode app].
  rewrite !unhex_hex_char by sextet_arith.
  rewrite IH. f_equal. apply byte_of_N_eq. sextet_arith.
Qed.

Lemma hex_encode_length (bs : Buffer) : String.length (encode bs) = 2 * length bs.
Proof. induction bs as [|b rest IH]; [done|]. cbn [encode String.length length]. lia. Qed.

End hex_facts.

(** X5: hexadecimal text produced by [toHex] has two digits for each octet
    and decodes to the octets it was made from; text that follows it is
    decoded after them. *)
Theorem fromHex_toHex (b : Buffer) (s : string) :
  Encryption.fromHex (Encryption.toHex b) = b
  ∧ Decryption.fromHex (Decryption.toHex b) = b
  ∧ String.length (Encryption.toHex b) = 2 * length b
  ∧ Encryption.fromHex (Encryption.toHex b +:+ s) = b ++ Encryption.fromHex s.
Proof.
  unfold Encryption.fromHex, Encryption.toHex, Decryption.fromHex, Decryption.toHex.
  pose proof (hex_decode_encode_app b "") as E.
  assert (Hex.encode b +:+ "" = Hex.encode b) as Hnil.
  { generalize (Hex.encode b). intros t. induction t as [|c t IH]; [done|].
    change (String c t +:+ "") with (String c (t +:+ "")). by rewrite IH. }
  rewrite Hnil, app_nil_r in E.
  repeat split; [done | done | apply hex_encode_length | apply hex_decode_encode_app].
Qed.

Section base64url_facts.
Import Base64.

Lemma unbase64_b64url_char n : (n < 64)%N → unbase64 (b64url_char n) = Some n.
Proof.
  intros Hn.
  apply (sextet_cases (λ n, bool_decide (unbase64 (b64url_char n) = Some n)))
    in Hn; [by apply bool_decide_eq_true in Hn | by vm_compute].
Qed.

Lemma b64url_char_not_pad n :
  (n < 64)%N → Ascii.eqb (b64url_char n) "="%char = false.
Proof.
  intros Hn.
  apply (sextet_cases (λ n, negb (Ascii.eqb (b64url_char n) "="%char)))
    in Hn; [by apply negb_true_iff in Hn | by vm_compute].
Qed.

Lemma b64url_char_safe n : (n < 64)%N → url_safe_char (b64url_char n) = true.
Proof.
  intros Hn.
  by apply (sextet_cases (λ n, url_safe_char (b64url_char n))) in Hn.
Qed.

Lemma sextets_b64url_char n s :
  (n < 64)%N → sextets (String (b64url_char n) s) = n :: sextets s.
Proof.
  intros Hn. simpl.
  by rewrite b64url_char_not_pad, unbase64_b64url_char.
Qed.

Lemma decode_encode_url (bs : Buffer) : decode (encode_url bs) = bs.
Proof.
  unfold decode. induction bs as [|a|a b|a b c rest IH] using buffer_ind3.
  - done.
  - cbn [encode_url]. rewrite !sextets_b64url_char by sextet_arith. cbn. octets.
  - cbn [encode_url]. rewrite !sextets_b64url_char by sextet_arith. cbn. octets.
  - cbn [encode_url]. rewrite !sextets_b64url_char by sextet_arith.
    cbn [bytes_of_sextets]. rewrite IH. octets.
Qed.

Lemma encode_url_length (bs : Buffer) :
  String.length (encode_url bs) = (4 * length bs + 2) / 3.
Proof.
  induction bs as [|a|a b|a b c rest IH] using buffer_ind3; [done..|].
  cbn [encode_url String.length length]. rewrite IH.
  replace (4 * S (S (S (length rest))) + 2) with ((4 * length rest + 2) + 4 * 3) by lia.
  rewrite Nat.div_add by lia. lia.
Qed.

Lemma encode_url_safe (bs : Buffer) :
  Forall (λ c, url_safe_char c = true) (list_ascii_of_string (encode_url bs)).
Proof.
  induction bs as [|a|a b|a b c rest IH] using buffer_ind3;
    cbn [encode_url list_ascii_of_string];
    repeat first [ apply Forall_nil_2 | done
                 | apply Forall_cons_2; [apply b64url_char_safe; sextet_arith|] ].
Qed.

End base64url_facts.

(** X6: for every byte length, [generateRandomId] returns an identifier of
    ceil(4n/3) characters, all of them letters, digits, [-] or [_] (no
    padding), and the base-64 decoder recovers from it the random octets it
    was made of. *)
Theorem generateRandomId_url_safe (byteLength : nat) (w : World) :
  ∃ id w',
    Encryption.generateRandomId byteLength w = (Normal id, w')
    ∧ String.length id = (4 * byteLength + 2) / 3
    ∧ Forall (λ c, url_safe_char c = true) (list_ascii_of_string id)
    ∧ Encryption.fromBase64 id = map (entropy w) (seq 0 byteLength).
Proof.
  eexists _, _. split; [reflexivity|].
  split; [|split].
  - by rewrite encode_url_length, length_map, length_seq.
  - apply encode_url_safe.
  - apply decode_encode_url.
Qed.

(** X7: a salt made by [generateSalt] for [n] bytes passes [validateSalt]
    for [m] bytes exactly when [n = m], and an IV made by [generateIV]
    passes [validateIV] likewise; otherwise the validator throws an Error
    that names both lengths.  With the default lengths on both sides (16
    for salts, 12 for IVs) the validators accept. *)
Theorem generated_values_validate (n m : nat) (w : World) :
  (let* salt := Encryption.generateSalt n in Encryption.validateSalt salt m) w
  = ((if bool_decide (n = m) then Normal tt
      else Throw (Error ("Salt must be exactly " +:+ show_nat m +:+ " bytes, got "
                         +:+ show_nat n +:+ "."))),
     set_entropy (λ i, entropy w (n + i)) w)
  ∧ (let* iv := Encryption.generateIV n in Encryption.validateIV iv m) w
    = ((if bool_decide (n = m) then Normal tt
        else Throw (Error ("IV must be exactly " +:+ show_nat m +:+ " bytes, got "
                           +:+ show_nat n +:+ "."))),
       set_entropy (λ i, entropy w (n + i)) w).
Proof.
  unfold Encryption.generateSalt, Encryption.generateIV, Crypto.randomBytes,
    Encryption.validateSalt, Encryption.validateIV, bind.
  rewrite length_map, length_seq.
  case_bool_decide as E.
  - subst m. by rewrite Nat.eqb_refl.
  - apply Nat.eqb_neq in E. by rewrite E.
Qed.

(** ** What the validator accepts *)

Section decoded_length.
Import Base64.

Lemma alphabet_char c :
  is_base64_alphabet c = true →
  Ascii.eqb c "="%char = false ∧ ∃ n, unbase64 c = Some n.
Proof.
  destruct c as [[] [] [] [] [] [] [] []]; vm_compute;
    first [ discriminate | intros _; split; [reflexivity | eexists; reflexivity] ].
Qed.

Lemma sextets_alphabet c s :
  is_base64_alphabet c = true → ∃ n, sextets (String c s) = n :: sextets s.
Proof.
  intros Hc. destruct (alphabet_char c Hc) as [Hpad [n Hn]].
  exists n. cbn [sextets]. by rewrite Hpad, Hn.
Qed.

Lemma regex_pad s :
  base64Regex_test s = true → String.length (skip_base64_alphabet s) ≤ 2.
Proof.
  unfold base64Regex_test. rewrite !orb_true_iff, !String.eqb_eq.
  intros [[-> | ->] | ->]; cbn; lia.
Qed.

(** The text the validator accepts is groups of four characters, and each
    group gives three octets, less the padding of the last one. *)
Lemma decode_length_regex n : ∀ s,
  String.length s = 4 * n → base64Regex_test s = true →
  length (decode s) + String.length (skip_base64_alphabet s) = 3 * n.
Proof.
  induction n as [|n IH]; intros s Hlen Hre.
  { by destruct s. }
  destruct s as [|c1 [|c2 [|c3 [|c4 s']]]]; try (cbn in Hlen; lia).
  assert (String.length s' = 4 * n) as Hlen' by (cbn in Hlen; lia).
  pose proof Hre as Hre'.
  unfold base64Regex_test in Hre, Hre'.
  rewrite !orb_true_iff, !String.eqb_eq in Hre.
  cbn [skip_base64_alphabet] in *.
  destruct (is_base64_alphabet c1) eqn:H1; [|by destruct Hre as [[?|?]|?]].
  destruct (is_base64_alphabet c2) eqn:H2; [|by destruct Hre as [[?|?]|?]].
  destruct (sextets_alphabet c1 (String c2 (String c3 (String c4 s'))) H1) as [n1 E1].
  destruct (sextets_alphabet c2 (String c3 (String c4 s')) H2) as [n2 E2].
  unfold decode. rewrite E1, E2.
  destruct (is_base64_alphabet c3) eqn:H3.
  - destruct (sextets_alphabet c3 (String c4 s') H3) as [n3 E3]. rewrite E3.
    destruct (is_base64_alphabet c4) eqn:H4.
    + destruct (sextets_alphabet c4 s' H4) as [n4 E4]. rewrite E4.
      cbn [bytes_of_sextets length].
      specialize (IH s' Hlen' Hre'). unfold decode in IH. lia.
    + assert (c4 = "="%char ∧ s' = "") as [-> ->].
      { destruct Hre as [[?|E]|E]; [done|by injection E|].
        injection E as -> ->. cbn in Hlen'. lia. }
      cbn in *. lia.
  - assert (c3 = "="%char ∧ c4 = "="%char ∧ s' = "") as (-> & -> & ->).
    { destruct Hre as [[?|E]|E]; [done|done|by injection E]. }
    cbn in *. lia.
Qed.

Lemma decoded_length s :
  well_formed_base64 s = true →
  ∃ k pad,
    String.length s = 4 * k ∧ pad ≤ 2 ∧ length (decode s) + pad = 3 * k.
Proof.
  unfold well_formed_base64. rewrite !andb_true_iff, Nat.eqb_eq.
  intros [[_ Hre] Hmod].
  exists (String.length s / 4), (String.length (skip_base64_alphabet s)).
  assert (String.length s = 4 * (String.length s / 4)) as Hlen.
  { pose proof (Nat.div_mod_eq (String.length s) 4). lia. }
  split; [done|]. split; [by apply regex_pad|].
  by apply decode_length_regex.
Qed.

End decoded_length.

(** X8: a payload that [validatePayload] accepts has all five fields and the
    supported version, its salt and authTag are base-64 text of exactly 24
    characters and its iv of exactly 16, and its cipherText has a length
    that is a multiple of four. *)
Theorem validatePayload_field_lengths (p : EncryptedPayload) (w : World) :
  Decryption.validatePayload p w = (Normal tt, w) →
  ∃ c s i t,
    p = mkPayload (Some c) (Some s) (Some i) (Some t) (Some ENCRYPTION_FORMAT_VERSION)
    ∧ String.length s = 24 ∧ String.length i = 16 ∧ String.length t = 24
    ∧ String.length c mod 4 = 0.
Proof.
  destruct p as [[c|] [s|] [i|] [t|] [v|]]; try (intros Hv; by lazy in Hv).
  unfold Decryption.validatePayload.
  rewrite (bind_normal _ _ _ _ _ (check_required_present c s i t v w)).
  cbn [bind cipherText salt iv authTag version prop ret].
  rewrite !isValidBase64_well_formed, nonempty_length.
  unfold Decryption.fromBase64, SALT_LENGTH_BYTES, IV_LENGTH_BYTES,
    GCM_AUTH_TAG_LENGTH_BYTES.
  destruct (negb (String.eqb c "") && negb (well_formed_base64 c)) eqn:Hc; [done|].
  destruct (well_formed_base64 s) eqn:Hs; [|done].
  destruct (well_formed_base64 i) eqn:Hi; [|done].
  destruct (well_formed_base64 t) eqn:Ht; [|done].
  cbn [negb].
  destruct (length (Base64.decode s) =? 16) eqn:Ls; [|done].
  destruct (length (Base64.decode i) =? 12) eqn:Li; [|done].
  destruct (length (Base64.decode t) =? 16) eqn:Lt; [|done].
  cbn [negb]. case_bool_decide as Hv; [|done]. intros _.
  injection Hv as ->.
  apply Nat.eqb_eq in Ls, Li, Lt.
  destruct (decoded_length s Hs) as (ks & ps & Hks & Hps & Hds).
  destruct (decoded_length i Hi) as (ki & pi & Hki & Hpi & Hdi).
  destruct (decoded_length t Ht) as (kt & pt & Hkt & Hpt & Hdt).
  exists c, s, i, t. repeat split; try lia.
  destruct (String.eqb_spec c "") as [->|Hne]; [done|].
  cbn [negb andb] in Hc. apply negb_false_iff in Hc.
  unfold well_formed_base64 in Hc. rewrite !andb_true_iff, Nat.eqb_eq in Hc.
  by destruct Hc as [_ Hc].
Qed.

Lemma validatePayload_field_lengths_witness :
  ∃ c s i t,
    mkPayload (Some "SGVsbG8=") (Some "AAAAAAAAAAAAAAAAAAAAAA==") (Some "AAAAAAAAAAAAAAAA")
      (Some "AAAAAAAAAAAAAAAAAAAAAA==") (Some 1%Z)
    = mkPayload (Some c) (Some s) (Some i) (Some t) (Some ENCRYPTION_FORMAT_VERSION)
    ∧ String.length s = 24 ∧ String.length i = 16 ∧ String.length t = 24
    ∧ String.length c mod 4 = 0.
Proof.
  apply (validatePayload_field_lengths _ empty_world). by vm_compute.
Defined.

(** ** The buffer variants with any salt and IV *)


Section buffer_variants.
Context `{Primitives}.
Import Crypto.

(** The IV and the salt an encryption uses, and the entropy source it
    leaves: what the options give is used as given, what they leave out is
    drawn, the IV first. *)
Lemma encryptBufferRaw_run d password so io w :
  8 ≤ String.length password → io ≠ Some [] →
  (∀ i, io = Some i → length i ≤ 128) →
  let ivBytes := default (map (entropy w) (seq 0 12)) io in
  let e1 := match io with Some _ => entropy w | None => λ i, entropy w (12 + i) end in
  let saltBytes := default (map e1 (seq 0 16)) so in
  let e2 := match so with Some _ => e1 | None => λ i, e1 (16 + i) end in
  let key := pbkdf2 password saltBytes PBKDF2_ITERATIONS AES_KEY_LENGTH_BYTES in
  let c := ctr_xor key ivBytes 0 (Encryption.normalizeInput d) in
  Encryption.encryptBufferRaw d (mkEncryptOptions password so io) w
  = (Normal (mkPayloadRaw c saltBytes ivBytes (gcm_tag key ivBytes c) 1),
     mkWorld e2 (files w) (heap w ++ [fill0 key]) (trace w ++ [EvDeriveKey])).
Proof.
  intros Hlen Hio Hmax ivBytes e1 saltBytes e2 key c.
  pose proof (long_password_nonempty _ Hlen) as Hne.
  assert (ivBytes ≠ []) as Hiv.
  { unfold ivBytes. destruct io as [i|]; cbn; [by intros ->|done]. }
  assert (length ivBytes ≤ 128) as Hmax'.
  { unfold ivBytes. destruct io as [i|]; cbn; [by apply Hmax|lia]. }
  unfold Encryption.encryptBufferRaw.
  rewrite (bind_normal _ _ _ _ _ (encryption_validatePassword_ok _ w Hlen)).
  cbn [opt_iv opt_salt opt_password].
  assert ((match io with
           | Some iv => ret iv
           | None => Encryption.generateIV Encryption.IV_LENGTH_BYTES
           end) w = (Normal ivBytes, set_entropy e1 w)) as Hdraw.
  { unfold ivBytes, e1. destruct io; [by destruct w|reflexivity]. }
  rewrite (bind_normal _ _ _ _ _ Hdraw).
  assert (Encryption.deriveKey password so (set_entropy e1 w)
          = (Normal (mkDerivedKey (length (heap w)) saltBytes PBKDF2_ITERATIONS),
             mkWorld e2 (files w) (heap w ++ [key]) (trace w ++ [EvDeriveKey])))
    as Hkey.
  { unfold saltBytes, e2, key. destruct so.
    - by rewrite encryption_deriveKey_given.
    - by rewrite encryption_deriveKey_fresh. }
  rewrite (bind_normal _ _ _ _ _ Hkey).
  cbn [dk_key dk_salt].
  erewrite bind_normal by apply readBuffer_allocated.
  erewrite bind_normal
    by (apply createCipheriv_ok; [apply length_pbkdf2 | done | done]).
  unfold cipher_update, cipher_final, getAuthTag.
  cbn [cipher_key cipher_iv cipher_out length app].
  erewrite bind_normal by apply fillBuffer_allocated.
  rewrite app_nil_r. reflexivity.
Qed.


Lemma classify_invalid_iv :
  Decryption.classify (TypeError "Invalid initialization vector")
  = DecryptionError "Decryption failed: Invalid initialization vector" UNKNOWN.
Proof. reflexivity. Qed.

Lemma classify_tag_length n :
  Decryption.classify
    (TypeError ("Invalid authentication tag length: " +:+ show_nat n))
  = DecryptionError
      "Decryption failed: incorrect password or data has been tampered with."
      WRONG_PASSWORD.
Proof.
  unfold Decryption.classify, Decryption.is_auth_failure. cbn [message].
  assert (includes ("Invalid authentication tag length: " +:+ show_nat n) "auth"
          = true) as -> by (by lazy).
  by rewrite orb_true_r.
Qed.

(** The guarded block of the buffer variants once the key is derived: how
    it completes, and that the key Buffer is zeroed however it does. *)
Lemma guarded_decipher key ivBytes authTagBytes cipherBytes e f h t :
  length key = 32 →
  try_finally
    (try_catch
       (let* key := readBuffer (length h) in
        let* decipher := createDecipheriv key ivBytes in
        let* decipher := setAuthTag decipher authTagBytes in
        let (decipher, updated) := decipher_update decipher cipherBytes in
        let* final := decipher_final decipher in
        ret (mkDecryptionResult (updated ++ final) true))
       (λ error, throw (Decryption.classify error)))
    (Decryption.secureWipe (length h)) (mkWorld e f (h ++ [key]) t)
  = ((if bool_decide (ivBytes = [] ∨ 128 < length ivBytes) then
        Throw (DecryptionError "Decryption failed: Invalid initialization vector"
                 UNKNOWN)
      else if bool_decide (authTagBytes = gcm_tag key ivBytes cipherBytes) then
        Normal (mkDecryptionResult (ctr_xor key ivBytes 0 cipherBytes) true)
      else
        Throw (DecryptionError
                 "Decryption failed: incorrect password or data has been tampered with."
                 WRONG_PASSWORD)),
     mkWorld e f (h ++ [fill0 key]) t).
Proof.
  intros Hk.
  eapply try_finally_normal; [|apply fillBuffer_allocated].
  unfold try_catch.
  erewrite bind_normal by apply readBuffer_allocated.
  case_bool_decide as Hiv.
  { unfold createDecipheriv.
    erewrite bind_throw; [|erewrite bind_throw; [reflexivity|]].
    2: { destruct Hiv as [->|Hiv];
           [by apply check_key_iv_empty|by apply check_key_iv_long]. }
    by rewrite classify_invalid_iv. }
  erewrite bind_normal by (apply createDecipheriv_ok; [done|tauto|lia]).
  unfold setAuthTag.
  destruct (decide (length authTagBytes = 16)) as [Ht|Ht].
  - rewrite (bool_decide_true (length authTagBytes = 16)) by done.
    erewrite bind_normal by reflexivity.
    unfold decipher_update, decipher_final, bind.
    cbn [decipher_key decipher_iv decipher_tag decipher_in length app].
    case_bool_decide as Htag.
    + unfold ret. by rewrite app_nil_r.
    + unfold throw. by rewrite auth_failure_classified.
  - rewrite (bool_decide_false (length authTagBytes = 16)) by done.
    rewrite bool_decide_false.
    2: { intros ->. by rewrite length_gcm_tag in Ht. }
    unfold bind, throw. by rewrite classify_tag_length.
Qed.

(** [decryptBufferRaw] once the password and the salt are not empty. *)
Lemma decryptBufferRaw_run raw password w :
  password ≠ "" → raw_salt raw ≠ [] →
  let key := pbkdf2 password (raw_salt raw) PBKDF2_ITERATIONS AES_KEY_LENGTH_BYTES in
  Decryption.decryptBufferRaw raw password w
  = ((if bool_decide (raw_iv raw = [] ∨ 128 < length (raw_iv raw)) then
        Throw (DecryptionError "Decryption failed: Invalid initialization vector"
                 UNKNOWN)
      else if bool_decide (raw_authTag raw
                           = gcm_tag key (raw_iv raw) (raw_cipherBytes raw)) then
        Normal (mkDecryptionResult (ctr_xor key (raw_iv raw) 0 (raw_cipherBytes raw))
                  true)
      else
        Throw (DecryptionError
                 "Decryption failed: incorrect password or data has been tampered with."
                 WRONG_PASSWORD)),
     mkWorld (entropy w) (files w) (heap w ++ [fill0 key])
       (trace w ++ [EvDeriveKey])).
Proof.
  intros Hne Hs key. unfold Decryption.decryptBufferRaw.
  rewrite (bind_normal _ _ _ _ _ (decryption_validatePassword_ok _ w Hne)).
  erewrite bind_normal by by apply decryption_deriveKey_ok.
  cbn [dk_key]. apply guarded_decipher, length_pbkdf2.
Qed.

(** X9: the raw round trip.  For every plaintext, every password of at
    least 8 characters, a salt that is drawn afresh or given by the caller
    and not empty, and an IV that is drawn afresh or given by the caller
    with 1 to 128 octets, [encryptBufferRaw] returns a payload and
    [decryptBufferRaw] of it with the same password, in whatever world,
    returns the plaintext with [verified = true]. *)
Theorem decryptBufferRaw_encryptBufferRaw (d : EncryptionInput)
    (options : EncryptBufferOptions) (w : World) :
  8 ≤ String.length (opt_password options) →
  opt_salt options ≠ Some [] → opt_iv options ≠ Some [] →
  (∀ iv, opt_iv options = Some iv → length iv ≤ 128) →
  ∃ raw w1,
    Encryption.encryptBufferRaw d options w = (Normal raw, w1)
    ∧ ∀ w2, ∃ w3,
        Decryption.decryptBufferRaw raw (opt_password options) w2
        = (Normal (mkDecryptionResult (Encryption.normalizeInput d) true), w3).
Proof.
  destruct options as [password so io]. cbn [opt_password opt_salt opt_iv].
  intros Hlen Hso Hio Hmax. eexists _, _.
  split; [by apply encryptBufferRaw_run|].
  intros w2. eexists.
  pose proof (long_password_nonempty _ Hlen) as Hne.
  rewrite decryptBufferRaw_run; cbn [raw_salt raw_iv raw_authTag raw_cipherBytes].
  - rewrite bool_decide_false.
    2: { destruct io as [i|]; cbn.
         - specialize (Hmax i eq_refl). intros [->|?]; [done|lia].
         - intros [?|?]; [done|lia]. }
    rewrite bool_decide_true by done.
    by rewrite ctr_xor_involutive.
  - done.
  - destruct so as [s|]; cbn; [by intros ->|done].
Qed.

End buffer_variants.

Lemma decryptBufferRaw_encryptBufferRaw_witness :
  ∃ raw w1,
    @Encryption.encryptBufferRaw toy_primitives (InString "Raw buffer test data")
      (mkEncryptOptions "test-password-123" (Some [x01]) None) empty_world
    = (Normal raw, w1)
    ∧ ∀ w2, ∃ w3,
        @Decryption.decryptBufferRaw toy_primitives raw "test-password-123" w2
        = (Normal (mkDecryptionResult (utf8 "Raw buffer test data") true), w3).
Proof.
  apply (@decryptBufferRaw_encryptBufferRaw toy_primitives (InString "Raw buffer test data")
           (mkEncryptOptions "test-password-123" (Some [x01]) None)); cbn; first [lia | done].
Defined.

Section raw_outcome.
Context `{Primitives}.
Import Crypto.

(** X10: how [decryptBufferRaw] completes, on every payload and password.
    An empty password is a [DecryptionError] MISSING_FIELDS; an empty salt
    is the plain [Error] of [deriveKey], which is outside the guarded block;
    an IV that the cipher does not take (empty, or longer than 128 octets)
    is a [DecryptionError] UNKNOWN; a tag that is not the tag of the
    ciphertext under the derived key (a tag of another length included) is
    WRONG_PASSWORD; otherwise the plaintext is returned with
    [verified = true].  In the last three cases the key Buffer is zeroed. *)
Theorem decryptBufferRaw_outcome (raw : EncryptedPayloadRaw) (password : string)
    (w : World) :
  let key := pbkdf2 password (raw_salt raw) PBKDF2_ITERATIONS AES_KEY_LENGTH_BYTES in
  let w' := mkWorld (entropy w) (files w) (heap w ++ [repeat x00 32])
              (trace w ++ [EvDeriveKey]) in
  Decryption.decryptBufferRaw raw password w
  = if bool_decide (password = "") then
      (Throw (DecryptionError "Password must be a non-empty string." MISSING_FIELDS), w)
    else if bool_decide (raw_salt raw = []) then
      (Throw (Error "Salt must be a non-empty Buffer."),
       set_trace (trace w ++ [EvDeriveKey]) w)
    else if bool_decide (raw_iv raw = [] ∨ 128 < length (raw_iv raw)) then
      (Throw (DecryptionError "Decryption failed: Invalid initialization vector"
                UNKNOWN), w')
    else if bool_decide (raw_authTag raw
                         = gcm_tag key (raw_iv raw) (raw_cipherBytes raw)) then
      (Normal (mkDecryptionResult (ctr_xor key (raw_iv raw) 0 (raw_cipherBytes raw))
                 true), w')
    else
      (Throw (DecryptionError
                "Decryption failed: incorrect password or data has been tampered with."
                WRONG_PASSWORD), w').
Proof.
  intros key w'.
  case_bool_decide as Hp; [by subst password|].
  case_bool_decide as Hs.
  { unfold Decryption.decryptBufferRaw.
    rewrite (bind_normal _ _ _ _ _ (decryption_validatePassword_ok _ w Hp)).
    apply bind_throw. unfold Decryption.deriveKey, bind. cbn [record].
    rewrite eqb_nonempty by done. by rewrite Hs. }
  rewrite decryptBufferRaw_run by done.
  unfold w', fill0. rewrite length_pbkdf2.
  by repeat case_bool_decide.
Qed.

End raw_outcome.

(** ** What decryptBuffer does with payloads of other shapes *)

Section payload_shapes.
Context `{Primitives}.
Import Crypto.



End payload_shapes.


Section error_codes.
Context `{Primitives}.
Import Crypto.

(** What the validator has established when it returns, and what it throws
    when it does not. *)
Lemma validatePayload_inv p w r w' :
  Decryption.validatePayload p w = (r, w') →
  w' = w
  ∧ match r with
    | Normal _ =>
        ∃ c s i t,
          p = mkPayload (Some c) (Some s) (Some i) (Some t) (Some 1%Z)
          ∧ length (Base64.decode s) = 16 ∧ length (Base64.decode i) = 12
          ∧ length (Base64.decode t) = 16
    | Throw e =>
        ∃ m code,
          e = DecryptionError m code
          ∧ (code = MISSING_FIELDS ∨ code = INVALID_FORMAT
             ∨ code = UNSUPPORTED_VERSION)
    end.
Proof.
  destruct p as [[c|] [s|] [i|] [t|] [v|]];
    try (intros Hv; lazy in Hv; injection Hv as <- <-; split; [done|]; by eauto 6).
  unfold Decryption.validatePayload.
  rewrite (bind_normal _ _ _ _ _ (check_required_present c s i t v w)).
  cbn [bind cipherText salt iv authTag version prop ret].
  unfold Decryption.fromBase64, SALT_LENGTH_BYTES, IV_LENGTH_BYTES,
    GCM_AUTH_TAG_LENGTH_BYTES, ENCRYPTION_FORMAT_VERSION.
  repeat match goal with
         | |- context [if ?b then _ else _] => destruct b eqn:?
         end;
    intros [= <- <-]; (split; [done|]); try (by eauto 6).
  repeat match goal with
         | Hb : negb _ = false |- _ => apply negb_false_iff in Hb
         end.
  exists c, s, i, t.
  repeat match goal with
         | Hb : (_ =? _) = true |- _ => apply Nat.eqb_eq in Hb
         | Hb : bool_decide _ = true |- _ => apply bool_decide_eq_true in Hb
         end.
  repeat split; try done. by match goal with Hv : Some v = _ |- _ => injection Hv as -> end.
Qed.

(** X12: whatever the payload and the password, an error that leaves
    [decryptBuffer] is a [DecryptionError] whose code is MISSING_FIELDS,
    INVALID_FORMAT, UNSUPPORTED_VERSION or WRONG_PASSWORD: a ciphertext or a
    tag that was altered is reported as WRONG_PASSWORD, and the codes
    INTEGRITY_CHECK_FAILED, FILE_ERROR and UNKNOWN never leave it. *)
Theorem decryptBuffer_error_codes (payload : EncryptedPayload) (password : string)
    (w w' : World) (e : JsError) :
  Decryption.decryptBuffer payload password w = (Throw e, w') →
  ∃ m code,
    e = DecryptionError m code
    ∧ (code = MISSING_FIELDS ∨ code = INVALID_FORMAT
       ∨ code = UNSUPPORTED_VERSION ∨ code = WRONG_PASSWORD).
Proof.
  unfold Decryption.decryptBuffer.
  destruct (String.eqb_spec password "") as [->|Hne].
  { intros [= <- <-]. by eauto 7. }
  rewrite (bind_normal _ _ _ _ _ (decryption_validatePassword_ok _ w Hne)).
  destruct (Decryption.validatePayload payload w) as [r w1] eqn:Hv.
  destruct (validatePayload_inv _ _ _ _ Hv) as [-> Hr].
  destruct r as [[]|e1].
  2: { rewrite (bind_throw _ _ _ _ _ Hv). intros [= <- <-].
       destruct Hr as (m & code & -> & [?|[?|?]]); by eauto 7. }
  rewrite (bind_normal _ _ _ _ _ Hv).
  destruct Hr as (c & s & i & t & -> & Hs & Hi & Ht).
  cbn [bind cipherText salt iv authTag version prop ret].
  unfold Decryption.fromBase64.
  erewrite bind_normal
    by (apply decryption_deriveKey_ok; [done | intros E; by rewrite E in Hs]).
  cbn [dk_key].
  rewrite guarded_decipher by apply length_pbkdf2.
  rewrite bool_decide_false by (intros [E|E]; [by rewrite E in Hi|lia]).
  case_bool_decide; intros [= <- <-]. by eauto 7.
Qed.

End error_codes.

Lemma decryptBuffer_error_codes_witness :
  ∃ m code,
    DecryptionError "Missing required field: salt" MISSING_FIELDS = DecryptionError m code
    ∧ (code = MISSING_FIELDS ∨ code = INVALID_FORMAT
       ∨ code = UNSUPPORTED_VERSION ∨ code = WRONG_PASSWORD).
Proof.
  apply (@decryptBuffer_error_codes toy_primitives
           (mkPayload (Some "SGVsbG8=") None None None None) "test-password-123"
           empty_world empty_world).
  reflexivity.
Defined.

Section raw_lengths.
Context `{Primitives}.
Import Crypto.

(** X13: with a fresh salt and IV, [encryptBufferRaw] returns a ciphertext
    of exactly the length of the plaintext, a 16-octet salt, a 12-octet IV
    and a 16-octet tag under version 1, and leaves the Buffer of the derived
    key zeroed. *)
Theorem encryptBufferRaw_lengths (d : EncryptionInput) (password : string)
    (w : World) :
  8 ≤ String.length password →
  ∃ raw w1,
    Encryption.encryptBufferRaw d (mkEncryptOptions password None None) w
    = (Normal raw, w1)
    ∧ length (raw_cipherBytes raw) = length (Encryption.normalizeInput d)
    ∧ length (raw_salt raw) = 16 ∧ length (raw_iv raw) = 12
    ∧ length (raw_authTag raw) = 16 ∧ raw_version raw = 1%Z
    ∧ heap w1 = heap w ++ [repeat x00 32].
Proof.
  intros Hlen. eexists _, _.
  split; [by apply encryptBufferRaw_run|].
  cbn [raw_cipherBytes raw_salt raw_iv raw_authTag raw_version heap default].
  rewrite length_ctr_xor, !length_map, !length_seq, length_gcm_tag.
  unfold fill0. by rewrite length_pbkdf2.
Qed.

End raw_lengths.

Lemma encryptBufferRaw_lengths_witness :
  ∃ raw w1,
    @Encryption.encryptBufferRaw toy_primitives (InString "raw test data")
      (mkEncryptOptions "test-password-123" None None) empty_world
    = (Normal raw, w1)
    ∧ length (raw_cipherBytes raw) = length (utf8 "raw test data")
    ∧ length (raw_salt raw) = 16 ∧ length (raw_iv raw) = 12
    ∧ length (raw_authTag raw) = 16 ∧ raw_version raw = 1%Z
    ∧ heap w1 = heap empty_world ++ [repeat x00 32].
Proof.
  apply (@encryptBufferRaw_lengths toy_primitives (InString "raw test data")).
  cbn; lia.
Defined.

(** ** The file variants *)

Lemma readFileSync_ok w path content :
  Fs.node_at w path = Some (File content true) →
  Fs.readFileSync path w = (Normal content, w).
Proof. intros Hn. unfold Fs.readFileSync. by rewrite Hn. Qed.

Lemma writeFileSync_new w path content :
  Fs.node_at w path = None → Fs.node_at w (Path.dirname path) = Some Dir →
  Fs.writeFileSync path content w
  = (Normal tt, set_files (<[path := File content true]> (files w)) w).
Proof. intros Hn Hd. unfold Fs.writeFileSync. by rewrite Hn, Hd. Qed.

Lemma encryption_check_input_file_ok w inputPath content readable :
  Fs.node_at w inputPath = Some (File content readable) →
  Encryption.check_input_file inputPath w
  = (Normal (Fs.mkStats true (length content)), w).
Proof.
  intros Hn. unfold Encryption.check_input_file.
  erewrite bind_normal by by eapply existsSync_found.
  cbn [negb]. unfold bind, Fs.statSync. by rewrite Hn.
Qed.

Lemma encryption_ensure_output_dir_present w outputPath node :
  Fs.node_at w (Path.dirname outputPath) = Some node →
  Encryption.ensure_output_dir outputPath w = (Normal tt, w).
Proof.
  intros Hd. unfold Encryption.ensure_output_dir.
  by erewrite bind_normal by by eapply existsSync_found.
Qed.

Lemma alter_allocated_before (h : list Buffer) a b f :
  alter f (length h) (h ++ [a; b]) = h ++ [f a; b].
Proof. by rewrite alter_app_r_alt, Nat.sub_diag by lia. Qed.

Section file_variants.
Context `{Primitives}.
Import Crypto.

(** Counter mode works through its input piece by piece. *)
Lemma ctr_xor_app key iv o (a b : Buffer) :
  ctr_xor key iv o (a ++ b)
  = ctr_xor key iv o a ++ ctr_xor key iv (o + length a) b.
Proof.
  unfold ctr_xor. rewrite imap_app. f_equal.
  apply imap_ext. intros i x _. cbn. by rewrite Nat.add_assoc.
Qed.

(** [encryptFile] on a readable file, for an output path that is free and
    whose directory exists. *)
Lemma encryptFile_run inputPath outputPath password so io now content w :
  8 ≤ String.length password → io ≠ Some [] →
  (∀ i, io = Some i → length i ≤ 128) →
  Fs.node_at w inputPath = Some (File content true) →
  Fs.node_at w outputPath = None →
  Fs.node_at w (Path.dirname outputPath) = Some Dir →
  let ivBytes := default (map (entropy w) (seq 0 12)) io in
  let e1 := match io with Some _ => entropy w | None => λ i, entropy w (12 + i) end in
  let saltBytes := default (map e1 (seq 0 16)) so in
  let e2 := match so with Some _ => e1 | None => λ i, e1 (16 + i) end in
  let key := pbkdf2 password saltBytes PBKDF2_ITERATIONS AES_KEY_LENGTH_BYTES in
  let c := ctr_xor key ivBytes 0 content in
  Encryption.encryptFile inputPath outputPath (mkEncryptOptions password so io) now w
  = (Normal (mkMetadata (Base64.encode saltBytes) (Base64.encode ivBytes)
               (Base64.encode (gcm_tag key ivBytes c)) (Path.basename inputPath)
               (Encryption.guessMimeType inputPath) (length content) 1 now),
     mkWorld e2 (<[outputPath := File c true]> (files w))
       (heap w ++ [fill0 content; fill0 key]) (trace w ++ [EvDeriveKey])).
Proof.
  intros Hlen Hio Hmax Hin Hout Hdir ivBytes e1 saltBytes e2 key c.
  unfold Encryption.encryptFile. cbn [opt_password].
  rewrite (bind_normal _ _ _ _ _ (encryption_validatePassword_ok _ w Hlen)).
  erewrite bind_normal by by eapply encryption_check_input_file_ok.
  erewrite bind_normal by by apply readFileSync_ok.
  erewrite bind_normal by reflexivity.
  erewrite bind_normal.
  2: { unfold readBuffer, set_heap. cbn [heap]. by rewrite lookup_allocated. }
  erewrite bind_normal by by apply encryptBufferRaw_run.
  cbn [Encryption.normalizeInput entropy files heap trace set_heap
       raw_cipherBytes raw_salt raw_iv raw_authTag].
  fold ivBytes e1 saltBytes e2 key c.
  set (w1 := mkWorld e2 _ _ _).
  erewrite bind_normal
    by (eapply encryption_ensure_output_dir_present;
        by rewrite (node_at_same_files w1 w)).
  erewrite bind_normal
    by (apply writeFileSync_new; by rewrite (node_at_same_files w1 w)).
  unfold bind, fillBuffer, ret, set_heap, set_files, w1.
  cbn [heap entropy files trace Fs.size Encryption.toBase64].
  rewrite <- app_assoc. cbn [app].
  by rewrite alter_allocated_before.
Qed.

(** [decryptFile] on a readable file, for an output path that is free and
    whose directory exists, with a salt that is not empty and an IV of 1 to
    128 octets. *)
Lemma decryptFile_run inputPath outputPath metadata password cipherBytes w :
  password ≠ "" →
  Fs.node_at w inputPath = Some (File cipherBytes true) →
  Fs.node_at w outputPath = None →
  Fs.node_at w (Path.dirname outputPath) = Some Dir →
  Decryption.fromBase64 (meta_salt metadata) ≠ [] →
  Decryption.fromBase64 (meta_iv metadata) ≠ [] →
  length (Decryption.fromBase64 (meta_iv metadata)) ≤ 128 →
  let saltBytes := Decryption.fromBase64 (meta_salt metadata) in
  let ivBytes := Decryption.fromBase64 (meta_iv metadata) in
  let key := pbkdf2 password saltBytes PBKDF2_ITERATIONS AES_KEY_LENGTH_BYTES in
  let plain := ctr_xor key ivBytes 0 cipherBytes in
  Decryption.decryptFile inputPath outputPath metadata password w
  = if bool_decide (Decryption.fromBase64 (meta_authTag metadata)
                    = gcm_tag key ivBytes cipherBytes) then
      (Normal (mkDecryptFileResult outputPath (meta_originalFileName metadata)
                 (meta_mimeType metadata) (length cipherBytes) true),
       mkWorld (entropy w) (<[outputPath := File plain true]> (files w))
         (heap w ++ [fill0 key]) (trace w ++ [EvDeriveKey]))
    else
      (Throw (DecryptionError
                "Decryption failed: incorrect password or data has been tampered with."
                WRONG_PASSWORD),
       mkWorld (entropy w) (files w) (heap w ++ [fill0 key])
         (trace w ++ [EvDeriveKey])).
Proof.
  intros Hne Hin Hout Hdir Hsalt Hiv Hmax saltBytes ivBytes key plain.
  unfold Decryption.decryptFile.
  rewrite (bind_normal _ _ _ _ _ (decryption_validatePassword_ok _ w Hne)).
  erewrite bind_normal by by eapply check_input_file_ok.
  erewrite bind_normal by by apply readFileSync_ok.
  erewrite bind_normal by by apply decryption_deriveKey_ok.
  cbn [dk_key]. fold saltBytes ivBytes key.
  set (w1 := mkWorld _ _ (heap w ++ [key]) _).
  unfold Decryption.secureWipe.
  destruct (decide (length (Decryption.fromBase64 (meta_authTag metadata)) = 16))
    as [Ht|Ht].
  - case_bool_decide as Htag.
    + eapply try_finally_normal; [|apply fillBuffer_allocated].
      apply try_catch_normal.
      erewrite bind_normal by apply readBuffer_allocated.
      rewrite (decipher_steps
                 (λ plaintext,
                    let* _ := Decryption.ensure_output_dir outputPath in
                    let* _ := Fs.writeFileSync outputPath plaintext in
                    ret (mkDecryptFileResult outputPath (meta_originalFileName metadata)
                           (meta_mimeType metadata) (length plaintext) true)))
        by first [apply length_pbkdf2 | done | lia].
      rewrite bool_decide_true by done.
      erewrite bind_normal
        by (eapply ensure_output_dir_present;
            by rewrite (node_at_same_files _ w)).
      erewrite bind_normal
        by (apply writeFileSync_new; by rewrite (node_at_same_files _ w)).
      unfold ret. by rewrite length_ctr_xor.
    + eapply try_finally_normal; [|apply fillBuffer_allocated].
      erewrite try_catch_throw.
      2: { erewrite bind_normal by apply readBuffer_allocated.
           rewrite (decipher_steps
                 (λ plaintext,
                    let* _ := Decryption.ensure_output_dir outputPath in
                    let* _ := Fs.writeFileSync outputPath plaintext in
                    ret (mkDecryptFileResult outputPath (meta_originalFileName metadata)
                           (meta_mimeType metadata) (length plaintext) true)))
        by first [apply length_pbkdf2 | done | lia].
           by rewrite bool_decide_false. }
      erewrite bind_normal.
      2: { unfold Decryption.cleanup_output.
           erewrite bind_normal
             by (apply existsSync_missing; by rewrite (node_at_same_files _ w)).
           reflexivity. }
      cbn [instanceof_DecryptionError]. by rewrite auth_failure_classified.
  - rewrite bool_decide_false.
    2: { intros E. by rewrite E, length_gcm_tag in Ht. }
    eapply try_finally_normal; [|apply fillBuffer_allocated].
    erewrite try_catch_throw.
    2: { erewrite bind_normal by apply readBuffer_allocated.
         erewrite bind_normal
           by (apply createDecipheriv_ok; [apply length_pbkdf2 | done | done]).
         apply bind_throw. unfold setAuthTag. by rewrite bool_decide_false. }
    erewrite bind_normal.
    2: { unfold Decryption.cleanup_output.
         erewrite bind_normal
           by (apply existsSync_missing; by rewrite (node_at_same_files _ w)).
         reflexivity. }
    cbn [instanceof_DecryptionError]. by rewrite classify_tag_length.
Qed.

(** The pipe of [encryptFileStream]: afterwards the cipher has produced the
    ciphertext of all the chunks and the output file holds it. *)
Lemma encrypt_pipe_run outputPath onProgress totalBytes chunks c n w content readable :
  files w !! outputPath = Some (File content readable) →
  let out := ctr_xor (cipher_key c) (cipher_iv c) (length (cipher_out c))
               (concat chunks) in
  ∃ w',
    Encryption.pipe_chunks outputPath onProgress totalBytes chunks c n w
    = (Normal (mkCipher (cipher_key c) (cipher_iv c) (cipher_out c ++ out)), w')
    ∧ files w' = <[outputPath := File (content ++ out) readable]> (files w)
    ∧ heap w' = heap w ∧ entropy w' = entropy w.
Proof.
  revert c n w content.
  induction chunks as [|chunk rest IH]; intros c n w content Hout.
  - exists w. cbn [Encryption.pipe_chunks concat].
    unfold ctr_xor. cbn [imap]. rewrite !app_nil_r. destruct c.
    repeat split. by rewrite insert_id.
  - cbn [Encryption.pipe_chunks concat]. cbv zeta.
    set (w0 := if onProgress
               then set_trace (trace w ++ [EvProgress (n + length chunk) totalBytes]) w
               else w).
    assert ((if onProgress
             then record (EvProgress (n + length chunk) totalBytes)
             else ret tt) w = (Normal tt, w0)) as Hrec
      by (unfold w0; by destruct onProgress).
    rewrite (bind_normal _ _ _ _ _ Hrec).
    assert (files w0 = files w ∧ heap w0 = heap w ∧ entropy w0 = entropy w)
      as (Hf0 & Hh0 & He0) by (unfold w0; by destruct onProgress).
    unfold cipher_update.
    set (out1 := ctr_xor _ _ _ chunk).
    assert (Fs.writeChunk outputPath out1 w0
            = (Normal tt,
               set_files (<[outputPath := File (content ++ out1) readable]> (files w0)) w0))
      as Hwrite by (unfold Fs.writeChunk; by rewrite Hf0, Hout).
    rewrite (bind_normal _ _ _ _ _ Hwrite).
    edestruct (IH (mkCipher (cipher_key c) (cipher_iv c) (cipher_out c ++ out1))
                 (n + length chunk)
                 (set_files (<[outputPath := File (content ++ out1) readable]> (files w0)) w0)
                 (content ++ out1))
      as (w' & Hrun & Hfiles & Hheap & Hent).
    { cbn [files set_files]. apply lookup_insert_eq. }
    exists w'. rewrite Hrun, Hfiles, Hheap, Hent.
    cbn [cipher_key cipher_iv cipher_out files heap entropy set_files].
    rewrite ctr_xor_app. fold out1.
    rewrite length_app, (length_ctr_xor _ _ _ chunk : length out1 = length chunk).
    by rewrite insert_insert_eq, Hf0, Hh0, He0, <- !app_assoc.
Qed.

(** The pipe of [decryptFileStream], with what it has written. *)
Lemma decrypt_pipe_run outputPath onProgress totalBytes chunks d n w content readable :
  files w !! outputPath = Some (File content readable) →
  let out := ctr_xor (decipher_key d) (decipher_iv d) (length (decipher_in d))
               (concat chunks) in
  ∃ w',
    Decryption.pipe_chunks outputPath onProgress totalBytes chunks d n w
    = (Normal (mkDecipher (decipher_key d) (decipher_iv d) (decipher_tag d)
                 (decipher_in d ++ concat chunks)), w')
    ∧ files w' = <[outputPath := File (content ++ out) readable]> (files w)
    ∧ heap w' = heap w ∧ entropy w' = entropy w.
Proof.
  revert d n w content.
  induction chunks as [|chunk rest IH]; intros d n w content Hout.
  - exists w. cbn [Decryption.pipe_chunks concat].
    unfold ctr_xor. cbn [imap]. rewrite !app_nil_r. destruct d.
    repeat split. by rewrite insert_id.
  - cbn [Decryption.pipe_chunks concat]. cbv zeta.
    set (w0 := if onProgress
               then set_trace (trace w ++ [EvProgress (n + length chunk) totalBytes]) w
               else w).
    assert ((if onProgress
             then record (EvProgress (n + length chunk) totalBytes)
             else ret tt) w = (Normal tt, w0)) as Hrec
      by (unfold w0; by destruct onProgress).
    rewrite (bind_normal _ _ _ _ _ Hrec).
    assert (files w0 = files w ∧ heap w0 = heap w ∧ entropy w0 = entropy w)
      as (Hf0 & Hh0 & He0) by (unfold w0; by destruct onProgress).
    unfold decipher_update.
    set (out1 := ctr_xor _ _ _ chunk).
    assert (Fs.writeChunk outputPath out1 w0
            = (Normal tt,
               set_files (<[outputPath := File (content ++ out1) readable]> (files w0)) w0))
      as Hwrite by (unfold Fs.writeChunk; by rewrite Hf0, Hout).
    rewrite (bind_normal _ _ _ _ _ Hwrite).
    edestruct (IH (mkDecipher (decipher_key d) (decipher_iv d) (decipher_tag d)
                     (decipher_in d ++ chunk))
                 (n + length chunk)
                 (set_files (<[outputPath := File (content ++ out1) readable]> (files w0)) w0)
                 (content ++ out1))
      as (w' & Hrun & Hfiles & Hheap & Hent).
    { cbn [files set_files]. apply lookup_insert_eq. }
    exists w'. rewrite Hrun, Hfiles, Hheap, Hent.
    cbn [decipher_key decipher_iv decipher_tag decipher_in files heap entropy set_files].
    rewrite ctr_xor_app. fold out1. rewrite length_app.
    by rewrite insert_insert_eq, Hf0, Hh0, He0, <- !app_assoc.
Qed.

Lemma writeChunk_trace path chunk w :
  ∃ w', Fs.writeChunk path chunk w = (Normal tt, w') ∧ trace w' = trace w.
Proof.
  unfold Fs.writeChunk. destruct (files w !! path) as [[content readable|]|]; eauto.
Qed.

(** What the pipes add to the log. *)
Lemma encrypt_pipe_trace outputPath onProgress totalBytes chunks : ∀ c n w,
  trace (Encryption.pipe_chunks outputPath onProgress totalBytes chunks c n w).2
  = trace w ++ (if onProgress then progress_reports n totalBytes chunks else []).
Proof.
  induction chunks as [|chunk rest IH]; intros c n w.
  { cbn. destruct onProgress; by rewrite app_nil_r. }
  cbn [Encryption.pipe_chunks progress_reports]. cbv zeta.
  unfold cipher_update, bind.
  destruct onProgress; cbn [record ret].
  - destruct (writeChunk_trace outputPath
                (ctr_xor (cipher_key c) (cipher_iv c) (length (cipher_out c)) chunk)
                (set_trace (trace w ++ [EvProgress (n + length chunk) totalBytes]) w))
      as (w' & -> & Htr).
    rewrite IH, Htr. cbn [trace set_trace]. by rewrite <- app_assoc.
  - destruct (writeChunk_trace outputPath
                (ctr_xor (cipher_key c) (cipher_iv c) (length (cipher_out c)) chunk) w)
      as (w' & -> & Htr).
    by rewrite IH, Htr.
Qed.

Lemma decrypt_pipe_trace outputPath onProgress totalBytes chunks : ∀ d n w,
  trace (Decryption.pipe_chunks outputPath onProgress totalBytes chunks d n w).2
  = trace w ++ (if onProgress then progress_reports n totalBytes chunks else []).
Proof.
  induction chunks as [|chunk rest IH]; intros d n w.
  { cbn. destruct onProgress; by rewrite app_nil_r. }
  cbn [Decryption.pipe_chunks progress_reports]. cbv zeta.
  unfold decipher_update, bind.
  destruct onProgress; cbn [record ret].
  - destruct (writeChunk_trace outputPath
                (ctr_xor (decipher_key d) (decipher_iv d) (length (decipher_in d)) chunk)
                (set_trace (trace w ++ [EvProgress (n + length chunk) totalBytes]) w))
      as (w' & -> & Htr).
    rewrite IH, Htr. cbn [trace set_trace]. by rewrite <- app_assoc.
  - destruct (writeChunk_trace outputPath
                (ctr_xor (decipher_key d) (decipher_iv d) (length (decipher_in d)) chunk) w)
      as (w' & -> & Htr).
    by rewrite IH, Htr.
Qed.

Lemma openReadStream_ok w path content :
  Fs.node_at w path = Some (File content true) →
  Fs.openReadStream path w = (Normal (Fs.chunks Fs.READ_STREAM_CHUNK content), w).
Proof.
  intros Hn. unfold Fs.openReadStream.
  by erewrite bind_normal by by apply readFileSync_ok.
Qed.

Lemma openWriteStream_new w path :
  Fs.node_at w path = None → Fs.node_at w (Path.dirname path) = Some Dir →
  Fs.openWriteStream path w
  = (Normal tt, set_files (<[path := File [] true]> (files w)) w).
Proof. apply writeFileSync_new. Qed.

Lemma writeChunk_file w path content readable chunk :
  files w !! path = Some (File content readable) →
  Fs.writeChunk path chunk w
  = (Normal tt, set_files (<[path := File (content ++ chunk) readable]> (files w)) w).
Proof. intros Hf. unfold Fs.writeChunk. by rewrite Hf. Qed.

(** [encryptFileStream] under the conditions of [encryptFile_run]: the
    same metadata and the same file. *)
Lemma encryptFileStream_run inputPath outputPath password so io onProgress now content w :
  8 ≤ String.length password → io ≠ Some [] →
  (∀ i, io = Some i → length i ≤ 128) →
  Fs.node_at w inputPath = Some (File content true) →
  Fs.node_at w outputPath = None →
  Fs.node_at w (Path.dirname outputPath) = Some Dir →
  let ivBytes := default (map (entropy w) (seq 0 12)) io in
  let e1 := match io with Some _ => entropy w | None => λ i, entropy w (12 + i) end in
  let saltBytes := default (map e1 (seq 0 16)) so in
  let e2 := match so with Some _ => e1 | None => λ i, e1 (16 + i) end in
  let key := pbkdf2 password saltBytes PBKDF2_ITERATIONS AES_KEY_LENGTH_BYTES in
  let c := ctr_xor key ivBytes 0 content in
  ∃ w',
    Encryption.encryptFileStream inputPath outputPath
      (mkEncryptOptions password so io) onProgress now w
    = (Normal (mkMetadata (Base64.encode saltBytes) (Base64.encode ivBytes)
                 (Base64.encode (gcm_tag key ivBytes c)) (Path.basename inputPath)
                 (Encryption.guessMimeType inputPath) (length content) 1 now), w')
    ∧ files w' = <[outputPath := File c true]> (files w)
    ∧ heap w' = heap w ++ [fill0 key] ∧ entropy w' = e2
    ∧ trace w'
      = trace w
        ++ EvDeriveKey
           :: (if onProgress
               then progress_reports 0 (length content)
                      (Fs.chunks Fs.READ_STREAM_CHUNK content)
               else []).
Proof.
  intros Hlen Hio Hmax Hin Hout Hdir ivBytes e1 saltBytes e2 key c.
  pose proof (long_password_nonempty _ Hlen) as Hne.
  assert (ivBytes ≠ []) as Hiv.
  { unfold ivBytes. destruct io as [i|]; cbn; [by intros ->|done]. }
  assert (length ivBytes ≤ 128) as Hmax'.
  { unfold ivBytes. destruct io as [i|]; cbn; [by apply Hmax|lia]. }
  unfold Encryption.encryptFileStream. cbn [opt_password opt_iv opt_salt].
  rewrite (bind_normal _ _ _ _ _ (encryption_validatePassword_ok _ w Hlen)).
  erewrite bind_normal by by eapply encryption_check_input_file_ok.
  assert ((match io with
           | Some iv => ret iv
           | None => Encryption.generateIV Encryption.IV_LENGTH_BYTES
           end) w = (Normal ivBytes, set_entropy e1 w)) as Hdraw.
  { unfold ivBytes, e1. destruct io; [by destruct w|reflexivity]. }
  rewrite (bind_normal _ _ _ _ _ Hdraw).
  assert (Encryption.deriveKey password so (set_entropy e1 w)
          = (Normal (mkDerivedKey (length (heap w)) saltBytes PBKDF2_ITERATIONS),
             mkWorld e2 (files w) (heap w ++ [key]) (trace w ++ [EvDeriveKey])))
    as Hkey.
  { unfold saltBytes, e2, key. destruct so.
    - by rewrite encryption_deriveKey_given.
    - by rewrite encryption_deriveKey_fresh. }
  rewrite (bind_normal _ _ _ _ _ Hkey).
  cbn [dk_key dk_salt].
  erewrite bind_normal by apply readBuffer_allocated.
  erewrite bind_normal
    by (apply createCipheriv_ok; [apply length_pbkdf2 | done | done]).
  set (w1 := mkWorld e2 _ (heap w ++ [key]) _).
  erewrite bind_normal
    by (eapply encryption_ensure_output_dir_present;
        by rewrite (node_at_same_files w1 w)).
  erewrite bind_normal
    by (unfold attempt; erewrite openReadStream_ok;
        [reflexivity | by rewrite (node_at_same_files w1 w)]).
  erewrite bind_normal
    by (unfold attempt; erewrite openWriteStream_new;
        [reflexivity | by rewrite (node_at_same_files w1 w) ..]).
  cbv beta iota.
  edestruct (encrypt_pipe_run outputPath onProgress (length content)
               (Fs.chunks Fs.READ_STREAM_CHUNK content) (mkCipher key ivBytes []) 0
               (set_files (<[outputPath := File [] true]> (files w1)) w1) [] true)
    as (w3 & Hrun & Hfiles & Hheap & Hent).
  { cbn [files set_files]. apply lookup_insert_eq. }
  pose proof (encrypt_pipe_trace outputPath onProgress (length content)
                (Fs.chunks Fs.READ_STREAM_CHUNK content) (mkCipher key ivBytes []) 0
                (set_files (<[outputPath := File [] true]> (files w1)) w1)) as Htr.
  rewrite Hrun in Htr. cbn [snd trace set_files] in Htr.
  cbn [Fs.size]. rewrite (bind_normal _ _ _ _ _ Hrun).
  rewrite concat_chunks in *.
  cbn [cipher_key cipher_iv cipher_out app length files set_files] in *.
  fold c in Hfiles |- *.
  rewrite insert_insert_eq in Hfiles.
  erewrite bind_normal.
  2: { eapply writeChunk_file. rewrite Hfiles. apply lookup_insert_eq. }
  unfold cipher_final, getAuthTag, fillBuffer, bind, ret.
  cbn [cipher_key cipher_iv cipher_out heap files set_files set_heap entropy].
  eexists. split; [reflexivity|].
  cbn [files heap entropy trace set_heap set_files].
  rewrite Hfiles, Hheap, Hent, Htr, app_nil_r, insert_insert_eq.
  unfold w1. cbn [heap entropy files trace set_files]. rewrite alter_allocated.
  rewrite <- app_assoc. repeat split.
Qed.

(** [decryptFileStream] under the conditions of [decryptFile_run], with a
    tag of 16 octets. *)
Lemma decryptFileStream_run inputPath outputPath metadata password onProgress
    cipherBytes w :
  password ≠ "" →
  Fs.node_at w inputPath = Some (File cipherBytes true) →
  Fs.node_at w outputPath = None →
  Fs.node_at w (Path.dirname outputPath) = Some Dir →
  Decryption.fromBase64 (meta_salt metadata) ≠ [] →
  Decryption.fromBase64 (meta_iv metadata) ≠ [] →
  length (Decryption.fromBase64 (meta_iv metadata)) ≤ 128 →
  length (Decryption.fromBase64 (meta_authTag metadata)) = 16 →
  let saltBytes := Decryption.fromBase64 (meta_salt metadata) in
  let ivBytes := Decryption.fromBase64 (meta_iv metadata) in
  let key := pbkdf2 password saltBytes PBKDF2_ITERATIONS AES_KEY_LENGTH_BYTES in
  let plain := ctr_xor key ivBytes 0 cipherBytes in
  let verifies :=
    bool_decide (Decryption.fromBase64 (meta_authTag metadata)
                 = gcm_tag key ivBytes cipherBytes) in
  ∃ w',
    Decryption.decryptFileStream inputPath outputPath metadata password onProgress w
    = ((if verifies then
          Normal (mkDecryptFileResult outputPath (meta_originalFileName metadata)
                    (meta_mimeType metadata) (length cipherBytes) true)
        else
          Throw (DecryptionError
                   "Decryption failed: incorrect password or data has been tampered with."
                   WRONG_PASSWORD)), w')
    ∧ files w' = (if verifies then <[outputPath := File plain true]> (files w)
                  else files w)
    ∧ heap w' = heap w ++ [fill0 key] ∧ entropy w' = entropy w
    ∧ trace w'
      = trace w
        ++ EvDeriveKey
           :: (if onProgress
               then progress_reports 0 (length cipherBytes)
                      (Fs.chunks Fs.READ_STREAM_CHUNK cipherBytes)
               else []).
Proof.
  intros Hne Hin Hout Hdir Hsalt Hiv Hmax Htag saltBytes ivBytes key plain verifies.
  destruct (node_at_none _ _ Hout) as [Hreg Hnone].
  unfold Decryption.decryptFileStream.
  rewrite (bind_normal _ _ _ _ _ (decryption_validatePassword_ok _ w Hne)).
  erewrite bind_normal by by eapply check_input_file_ok.
  erewrite bind_normal by by apply decryption_deriveKey_ok.
  cbn [dk_key]. fold saltBytes ivBytes key.
  erewrite bind_normal by apply readBuffer_allocated.
  erewrite bind_normal
    by (apply createDecipheriv_ok; [apply length_pbkdf2 | done | done]).
  erewrite bind_normal by by apply setAuthTag_ok.
  set (w1 := mkWorld _ _ (heap w ++ [key]) _).
  erewrite bind_normal
    by (eapply ensure_output_dir_present;
        by rewrite (node_at_same_files w1 w)).
  erewrite bind_normal
    by (unfold attempt; erewrite openReadStream_ok;
        [reflexivity | by rewrite (node_at_same_files w1 w)]).
  erewrite bind_normal
    by (unfold attempt; erewrite openWriteStream_new;
        [reflexivity | by rewrite (node_at_same_files w1 w) ..]).
  cbv beta iota.
  edestruct (decrypt_pipe_run outputPath onProgress (length cipherBytes)
               (Fs.chunks Fs.READ_STREAM_CHUNK cipherBytes)
               (mkDecipher key ivBytes
                  (Some (Decryption.fromBase64 (meta_authTag metadata))) []) 0
               (set_files (<[outputPath := File [] true]> (files w1)) w1) [] true)
    as (w3 & Hrun & Hfiles & Hheap & Hent).
  { cbn [files set_files]. apply lookup_insert_eq. }
  pose proof (decrypt_pipe_trace outputPath onProgress (length cipherBytes)
                (Fs.chunks Fs.READ_STREAM_CHUNK cipherBytes)
                (mkDecipher key ivBytes
                   (Some (Decryption.fromBase64 (meta_authTag metadata))) []) 0
                (set_files (<[outputPath := File [] true]> (files w1)) w1)) as Htr.
  rewrite Hrun in Htr. cbn [snd trace set_files] in Htr.
  assert (trace w3
          = trace w
            ++ EvDeriveKey
               :: (if onProgress
                   then progress_reports 0 (length cipherBytes)
                          (Fs.chunks Fs.READ_STREAM_CHUNK cipherBytes)
                   else [])) as Htrace.
  { rewrite Htr. unfold w1. cbn [trace]. by rewrite <- app_assoc. }
  clear Htr.
  cbn [Fs.size]. rewrite (bind_normal _ _ _ _ _ Hrun).
  rewrite concat_chunks in *.
  cbn [decipher_key decipher_iv decipher_tag decipher_in app length files set_files] in *.
  fold plain in Hfiles.
  rewrite insert_insert_eq in Hfiles.
  unfold Decryption.secureWipe.
  unfold verifies. case_bool_decide as Hv.
  - erewrite bind_normal.
    2: { unfold attempt, decipher_final.
         cbn [decipher_key decipher_iv decipher_tag decipher_in].
         rewrite bool_decide_true by done. reflexivity. }
    cbv beta iota.
    erewrite bind_normal.
    2: { eapply writeChunk_file. rewrite Hfiles. apply lookup_insert_eq. }
    erewrite bind_normal by reflexivity.
    erewrite bind_normal.
    2: { unfold Fs.statSync. rewrite node_at_regular by done.
         cbn [files set_files fillBuffer set_heap].
         rewrite lookup_insert_eq. reflexivity. }
    eexists. split; [|split; [|split; [|split]]].
    + unfold ret. apply (f_equal2 pair); [|reflexivity].
      do 2 f_equal. cbn [Fs.size]. rewrite app_nil_r. apply length_ctr_xor.
    + cbn [files set_files set_heap]. rewrite Hfiles, app_nil_r, insert_insert_eq.
      reflexivity.
    + cbn [heap set_heap set_files]. rewrite Hheap. unfold w1. cbn [heap set_files].
      rewrite alter_allocated. reflexivity.
    + cbn [entropy set_heap set_files]. rewrite Hent. reflexivity.
    + cbn [trace set_heap set_files]. exact Htrace.
  - erewrite bind_normal.
    2: { unfold attempt, decipher_final.
         cbn [decipher_key decipher_iv decipher_tag decipher_in].
         rewrite bool_decide_false by done. reflexivity. }
    cbv beta iota.
    erewrite bind_normal by reflexivity.
    erewrite bind_normal.
    2: { eapply (cleanup_output_file _ _ plain true).
         rewrite node_at_regular by done. cbn [files set_heap].
         rewrite Hfiles. apply lookup_insert_eq. }
    eexists. split; [reflexivity|]. split; [|split; [|split]].
    + cbn [files set_files set_heap]. rewrite Hfiles.
      rewrite delete_insert_eq, delete_id; [reflexivity|].
      unfold w1. by cbn [files].
    + cbn [heap set_heap set_files]. rewrite Hheap. unfold w1. cbn [heap set_files].
      rewrite alter_allocated. reflexivity.
    + cbn [entropy set_heap set_files]. rewrite Hent. reflexivity.
    + cbn [trace set_heap set_files]. exact Htrace.
Qed.

(** The stream variant when the tag verifies, with the decoded salt and IV
    named. *)
Lemma decryptFileStream_verified inputPath outputPath metadata password onProgress
    cipherBytes saltBytes ivBytes w :
  password ≠ "" →
  Fs.node_at w inputPath = Some (File cipherBytes true) →
  Fs.node_at w outputPath = None →
  Fs.node_at w (Path.dirname outputPath) = Some Dir →
  Decryption.fromBase64 (meta_salt metadata) = saltBytes →
  Decryption.fromBase64 (meta_iv metadata) = ivBytes →
  saltBytes ≠ [] → ivBytes ≠ [] → length ivBytes ≤ 128 →
  Decryption.fromBase64 (meta_authTag metadata)
  = gcm_tag (pbkdf2 password saltBytes PBKDF2_ITERATIONS AES_KEY_LENGTH_BYTES)
      ivBytes cipherBytes →
  ∃ w',
    Decryption.decryptFileStream inputPath outputPath metadata password onProgress w
    = (Normal (mkDecryptFileResult outputPath (meta_originalFileName metadata)
                 (meta_mimeType metadata) (length cipherBytes) true), w')
    ∧ files w'
      = <[outputPath :=
            File (ctr_xor (pbkdf2 password saltBytes PBKDF2_ITERATIONS
                             AES_KEY_LENGTH_BYTES) ivBytes 0 cipherBytes) true]>
          (files w)
    ∧ ∃ reports, trace w' = trace w ++ EvDeriveKey :: reports.
Proof.
  intros Hne Hin Hout Hdir <- <- Hsalt Hiv Hmax Htag.
  destruct (decryptFileStream_run inputPath outputPath metadata password onProgress
              cipherBytes w Hne Hin Hout Hdir Hsalt Hiv Hmax)
    as (w' & Hrun & Hfiles & _ & _ & Htrace).
  { rewrite Htag. apply length_gcm_tag. }
  exists w'. rewrite Hrun, Hfiles.
  rewrite bool_decide_true by done. split; [done|]. split; [done|by eexists].
Qed.

End file_variants.

Lemma node_at_inserted w path node :
  ¬ (path = "/" ∨ path = ".") →
  Fs.node_at (set_files (<[path := node]> (files w)) w) path = Some node.
Proof.
  intros Hreg. rewrite node_at_regular by done.
  cbn [files set_files]. apply lookup_insert_eq.
Qed.

Lemma node_at_files w path fs :
  Fs.node_at (set_files fs w) path
  = if bool_decide (path = "/" ∨ path = ".") then Some Dir else fs !! path.
Proof. reflexivity. Qed.

(** What a world with one more file shows at the paths of a round trip:
    the new file, and the other paths as before. *)
Lemma node_at_after_write w w1 encPath c :
  Fs.node_at w encPath = None →
  files w1 = <[encPath := File c true]> (files w) →
  Fs.node_at w1 encPath = Some (File c true)
  ∧ ∀ path, path ≠ encPath → Fs.node_at w1 path = Fs.node_at w path.
Proof.
  intros Hnone Hfiles.
  destruct (node_at_none _ _ Hnone) as [Hreg _].
  split.
  - rewrite node_at_regular by done. rewrite Hfiles. apply lookup_insert_eq.
  - intros path Hne. unfold Fs.node_at. rewrite Hfiles.
    by rewrite lookup_insert_ne.
Qed.

Section file_round_trips.
Context `{Primitives}.
Import Crypto.

(** X14: the round trip through files.  For a readable file, a password of
    at least 8 characters, a salt that is drawn afresh or given and not
    empty, an IV that is drawn afresh or given with 1 to 128 octets, and
    two free paths in existing directories, [encryptFile] writes a ciphertext of the length of the plaintext and
    returns metadata with which [decryptFile], under the same password,
    writes the original content to the output path and reports its size,
    the original file name and MIME type; the input file is left as it
    was. *)
Theorem decryptFile_encryptFile (inputPath encPath outPath : string)
    (options : EncryptBufferOptions) (now : string) (content : Buffer) (w : World) :
  8 ≤ String.length (opt_password options) →
  opt_salt options ≠ Some [] → opt_iv options ≠ Some [] →
  (∀ iv, opt_iv options = Some iv → length iv ≤ 128) →
  Fs.node_at w inputPath = Some (File content true) →
  Fs.node_at w encPath = None → Fs.node_at w (Path.dirname encPath) = Some Dir →
  Fs.node_at w outPath = None → Fs.node_at w (Path.dirname outPath) = Some Dir →
  encPath ≠ outPath →
  ∃ metadata w1 w2 c,
    Encryption.encryptFile inputPath encPath options now w = (Normal metadata, w1)
    ∧ Fs.node_at w1 encPath = Some (File c true) ∧ length c = length content
    ∧ Decryption.decryptFile encPath outPath metadata (opt_password options) w1
      = (Normal (mkDecryptFileResult outPath (Path.basename inputPath)
                   (Encryption.guessMimeType inputPath) (length content) true), w2)
    ∧ Fs.node_at w2 outPath = Some (File content true)
    ∧ Fs.node_at w2 inputPath = Some (File content true).
Proof.
  destruct options as [password so io]. cbn [opt_password opt_salt opt_iv].
  intros Hlen Hso Hio Hmax Hin Henc Hencdir Hout Houtdir Hne.
  pose proof (long_password_nonempty _ Hlen) as Hpw.
  set (ivBytes := default (map (entropy w) (seq 0 12)) io).
  set (e1 := match io with Some _ => entropy w | None => λ i, entropy w (12 + i) end).
  set (saltBytes := default (map e1 (seq 0 16)) so).
  set (key := pbkdf2 password saltBytes PBKDF2_ITERATIONS AES_KEY_LENGTH_BYTES).
  set (c := ctr_xor key ivBytes 0 content).
  assert (ivBytes ≠ []) as Hiv.
  { unfold ivBytes. destruct io as [i|]; cbn; [by intros ->|done]. }
  assert (length ivBytes ≤ 128) as Hmax'.
  { unfold ivBytes. destruct io as [i|]; cbn; [by apply Hmax|lia]. }
  assert (saltBytes ≠ []) as Hsalt.
  { unfold saltBytes. destruct so as [s|]; cbn; [by intros ->|done]. }
  eexists _, _, _, c.
  split; [by apply encryptFile_run|].
  set (w1 := mkWorld _ _ _ _).
  destruct (node_at_after_write w w1 encPath c Henc eq_refl) as [Hc Hother].
  assert (encPath ≠ inputPath) as Hne_in by (intros ->; by rewrite Hin in Henc).
  assert (Path.dirname outPath ≠ encPath) as Hne_dir
    by (intros E; by rewrite E, Henc in Houtdir).
  split; [exact Hc|]. split; [apply length_ctr_xor|].
  split.
  - rewrite (decryptFile_run encPath outPath _ password c w1);
      cbn [meta_salt meta_iv meta_authTag meta_originalFileName meta_mimeType];
      unfold Decryption.fromBase64; rewrite ?decode_encode;
      [ | done | exact Hc | by rewrite Hother | by rewrite Hother | done | done
        | exact Hmax' ].
    fold key c. rewrite bool_decide_true by done.
    unfold c at 1. rewrite length_ctr_xor. reflexivity.
  - cbn [files]. split.
    + destruct (node_at_none _ _ Hout) as [Hreg _].
      rewrite node_at_regular by done. cbn [files].
      rewrite lookup_insert_eq. unfold c. by rewrite ctr_xor_involutive.
    + assert (inputPath ≠ outPath) as Hio' by (intros ->; by rewrite Hin in Hout).
      unfold Fs.node_at. cbn [files].
      rewrite !lookup_insert_ne by done. exact Hin.
Qed.

End file_round_trips.

Lemma decryptFile_encryptFile_witness :
  ∃ metadata w1 w2 c,
    @Encryption.encryptFile toy_primitives "/vault/plain.txt" "/vault/plain.txt.enc"
      (mkEncryptOptions "test-password-123" None None) "2026-01-15T10:30:00.000Z"
      plain_vault_world
    = (Normal metadata, w1)
    ∧ Fs.node_at w1 "/vault/plain.txt.enc" = Some (File c true)
    ∧ length c = length (utf8 "Test file content")
    ∧ @Decryption.decryptFile toy_primitives "/vault/plain.txt.enc"
        "/vault/plain-decrypted.txt" metadata "test-password-123" w1
      = (Normal (mkDecryptFileResult "/vault/plain-decrypted.txt"
                   (Path.basename "/vault/plain.txt")
                   (Encryption.guessMimeType "/vault/plain.txt")
                   (length (utf8 "Test file content")) true), w2)
    ∧ Fs.node_at w2 "/vault/plain-decrypted.txt"
      = Some (File (utf8 "Test file content") true)
    ∧ Fs.node_at w2 "/vault/plain.txt" = Some (File (utf8 "Test file content") true).
Proof.
  apply (@decryptFile_encryptFile toy_primitives "/vault/plain.txt"
           "/vault/plain.txt.enc" "/vault/plain-decrypted.txt"
           (mkEncryptOptions "test-password-123" None None));
    first [ by vm_compute | vm_compute; lia ].
Defined.

Section stream_variants.
Context `{Primitives}.
Import Crypto.

(** X15: the round trip through the stream variants, with or without
    progress callbacks: under the conditions of the buffered round trip,
    and with the two output paths in resolved form, so that their different
    texts name different files, [encryptFileStream] writes a ciphertext of
    the length of the plaintext and [decryptFileStream] with its metadata
    and the same password resolves with [verified = true] and the size of
    the plaintext, the output file holding the original content. *)
Theorem decryptFileStream_encryptFileStream (inputPath encPath outPath : string)
    (options : EncryptBufferOptions) (now : string) (progress1 progress2 : bool)
    (content : Buffer) (w : World) :
  8 ≤ String.length (opt_password options) →
  opt_salt options ≠ Some [] → opt_iv options ≠ Some [] →
  (∀ iv, opt_iv options = Some iv → length iv ≤ 128) →
  Fs.node_at w inputPath = Some (File content true) →
  Fs.node_at w encPath = None → Fs.node_at w (Path.dirname encPath) = Some Dir →
  Fs.node_at w outPath = None → Fs.node_at w (Path.dirname outPath) = Some Dir →
  Path.resolved encPath = true → Path.resolved outPath = true →
  encPath ≠ outPath →
  ∃ metadata w1 w2 c,
    Encryption.encryptFileStream inputPath encPath options progress1 now w
    = (Normal metadata, w1)
    ∧ Fs.node_at w1 encPath = Some (File c true) ∧ length c = length content
    ∧ Decryption.decryptFileStream encPath outPath metadata (opt_password options)
        progress2 w1
      = (Normal (mkDecryptFileResult outPath (Path.basename inputPath)
                   (Encryption.guessMimeType inputPath) (length content) true), w2)
    ∧ Fs.node_at w2 outPath = Some (File content true)
    ∧ Fs.node_at w2 inputPath = Some (File content true).
Proof.
  destruct options as [password so io]. cbn [opt_password opt_salt opt_iv].
  intros Hlen Hso Hio Hmax Hin Henc Hencdir Hout Houtdir _ _ Hne.
  pose proof (long_password_nonempty _ Hlen) as Hpw.
  destruct (encryptFileStream_run inputPath encPath password so io progress1 now
              content w Hlen Hio Hmax Hin Henc Hencdir)
    as (w1 & Hrun1 & Hfiles1 & _ & _).
  revert Hrun1 Hfiles1.
  set (ivBytes := default (map (entropy w) (seq 0 12)) io).
  set (e1 := match io with Some _ => entropy w | None => λ i, entropy w (12 + i) end).
  set (saltBytes := default (map e1 (seq 0 16)) so).
  set (key := pbkdf2 password saltBytes PBKDF2_ITERATIONS AES_KEY_LENGTH_BYTES).
  set (c := ctr_xor key ivBytes 0 content).
  intros Hrun1 Hfiles1.
  assert (ivBytes ≠ []) as Hiv.
  { unfold ivBytes. destruct io as [i|]; cbn; [by intros ->|done]. }
  assert (length ivBytes ≤ 128) as Hmax'.
  { unfold ivBytes. destruct io as [i|]; cbn; [by apply Hmax|lia]. }
  assert (saltBytes ≠ []) as Hsalt.
  { unfold saltBytes. destruct so as [s|]; cbn; [by intros ->|done]. }
  destruct (node_at_after_write w w1 encPath c Henc Hfiles1) as [Hc Hother].
  assert (Path.dirname outPath ≠ encPath) as Hne_dir
    by (intros E; by rewrite E, Henc in Houtdir).
  destruct (decryptFileStream_verified encPath outPath
              (mkMetadata (Base64.encode saltBytes) (Base64.encode ivBytes)
                 (Base64.encode (gcm_tag key ivBytes c)) (Path.basename inputPath)
                 (Encryption.guessMimeType inputPath) (length content) 1 now)
              password progress2 c saltBytes ivBytes w1)
    as (w2 & Hrun2 & Hfiles2 & _);
    [ done | exact Hc | by rewrite Hother | by rewrite Hother
    | apply decode_encode | apply decode_encode | done | done | exact Hmax'
    | apply decode_encode | ].
  eexists _, w1, w2, c.
  split; [exact Hrun1|]. split; [exact Hc|]. split; [apply length_ctr_xor|].
  split.
  { rewrite Hrun2. cbn [meta_originalFileName meta_mimeType].
    by rewrite (length_ctr_xor _ _ _ content : length c = _). }
  destruct (node_at_none _ _ Hout) as [Hreg _].
  split.
  - rewrite node_at_regular by done. rewrite Hfiles2.
    rewrite lookup_insert_eq. fold key. unfold c.
    by rewrite ctr_xor_involutive.
  - assert (inputPath ≠ outPath) as Hio' by (intros ->; by rewrite Hin in Hout).
    assert (inputPath ≠ encPath) as Hie by (intros ->; by rewrite Hin in Henc).
    unfold Fs.node_at. rewrite Hfiles2, Hfiles1.
    rewrite !lookup_insert_ne by done. exact Hin.
Qed.

(** X16: on a readable input, a free output path in an existing directory,
    a password of at least 8 characters and an IV that is drawn afresh or
    given with 1 to 128 octets, [encryptFileStream] returns the metadata
    that [encryptFile] returns, tag included, and leaves the same files and
    the same entropy source: a file encrypted by either can be decrypted by
    either decryption variant. *)
Theorem encryptFileStream_as_encryptFile (inputPath outputPath : string)
    (options : EncryptBufferOptions) (onProgress : bool) (now : string)
    (content : Buffer) (w : World) :
  8 ≤ String.length (opt_password options) → opt_iv options ≠ Some [] →
  (∀ iv, opt_iv options = Some iv → length iv ≤ 128) →
  Fs.node_at w inputPath = Some (File content true) →
  Fs.node_at w outputPath = None →
  Fs.node_at w (Path.dirname outputPath) = Some Dir →
  ∃ metadata w1 w2,
    Encryption.encryptFile inputPath outputPath options now w = (Normal metadata, w1)
    ∧ Encryption.encryptFileStream inputPath outputPath options onProgress now w
      = (Normal metadata, w2)
    ∧ files w1 = files w2 ∧ entropy w1 = entropy w2.
Proof.
  destruct options as [password so io]. cbn [opt_password opt_salt opt_iv].
  intros Hlen Hio Hmax Hin Hout Hdir.
  destruct (encryptFileStream_run inputPath outputPath password so io onProgress now
              content w Hlen Hio Hmax Hin Hout Hdir)
    as (w2 & Hrun2 & Hfiles2 & _ & Hent2 & _).
  eexists _, _, w2.
  split; [by apply encryptFile_run|]. split; [exact Hrun2|].
  cbn [files entropy]. by rewrite Hfiles2, Hent2.
Qed.

(** X17: on a readable input, a free output path in an existing directory,
    and metadata with a salt that is not empty, an IV of 1 to 128 octets
    and a tag of 16 octets, [decryptFileStream] completes as [decryptFile]
    does: both give
    the same result and leave the same files and Buffers, and when the tag
    does not verify both throw the same WRONG_PASSWORD error with no file
    at the output path. *)
Theorem decryptFileStream_as_decryptFile (inputPath outputPath : string)
    (metadata : EncryptionMetadata) (password : string) (onProgress : bool)
    (cipherBytes : Buffer) (w : World) :
  password ≠ "" →
  Fs.node_at w inputPath = Some (File cipherBytes true) →
  Fs.node_at w outputPath = None →
  Fs.node_at w (Path.dirname outputPath) = Some Dir →
  Decryption.fromBase64 (meta_salt metadata) ≠ [] →
  Decryption.fromBase64 (meta_iv metadata) ≠ [] →
  length (Decryption.fromBase64 (meta_iv metadata)) ≤ 128 →
  length (Decryption.fromBase64 (meta_authTag metadata)) = 16 →
  ∃ r w1 w2,
    Decryption.decryptFile inputPath outputPath metadata password w = (r, w1)
    ∧ Decryption.decryptFileStream inputPath outputPath metadata password onProgress w
      = (r, w2)
    ∧ files w1 = files w2 ∧ heap w1 = heap w2
    ∧ (∀ e, r = Throw e → Fs.node_at w2 outputPath = None).
Proof.
  intros Hne Hin Hout Hdir Hsalt Hiv Hmax Htag.
  destruct (decryptFileStream_run inputPath outputPath metadata password onProgress
              cipherBytes w Hne Hin Hout Hdir Hsalt Hiv Hmax Htag)
    as (w2 & Hrun2 & Hfiles2 & Hheap2 & _).
  rewrite (decryptFile_run inputPath outputPath metadata password cipherBytes w)
    by done.
  case_bool_decide as Hv.
  - eexists _, _, w2. split; [reflexivity|]. split; [exact Hrun2|].
    cbn [files heap]. rewrite Hfiles2, Hheap2. by repeat split.
  - eexists _, _, w2. split; [reflexivity|]. split; [exact Hrun2|].
    cbn [files heap]. rewrite Hfiles2, Hheap2. repeat split.
    intros _ _. unfold Fs.node_at in *. by rewrite Hfiles2.
Qed.

End stream_variants.

Lemma decryptFileStream_encryptFileStream_witness :
  ∃ metadata w1 w2 c,
    @Encryption.encryptFileStream toy_primitives "/vault/plain.txt"
      "/vault/plain.txt.enc" (mkEncryptOptions "test-password-123" None None) false
      "2026-01-15T10:30:00.000Z" plain_vault_world
    = (Normal metadata, w1)
    ∧ Fs.node_at w1 "/vault/plain.txt.enc" = Some (File c true)
    ∧ length c = length (utf8 "Test file content")
    ∧ @Decryption.decryptFileStream toy_primitives "/vault/plain.txt.enc"
        "/vault/plain-decrypted.txt" metadata "test-password-123" true w1
      = (Normal (mkDecryptFileResult "/vault/plain-decrypted.txt"
                   (Path.basename "/vault/plain.txt")
                   (Encryption.guessMimeType "/vault/plain.txt")
                   (length (utf8 "Test file content")) true), w2)
    ∧ Fs.node_at w2 "/vault/plain-decrypted.txt"
      = Some (File (utf8 "Test file content") true)
    ∧ Fs.node_at w2 "/vault/plain.txt" = Some (File (utf8 "Test file content") true).
Proof.
  apply (@decryptFileStream_encryptFileStream toy_primitives "/vault/plain.txt"
           "/vault/plain.txt.enc" "/vault/plain-decrypted.txt"
           (mkEncryptOptions "test-password-123" None None));
    first [ by vm_compute | vm_compute; lia ].
Defined.

Lemma encryptFileStream_as_encryptFile_witness :
  ∃ metadata w1 w2,
    @Encryption.encryptFile toy_primitives "/vault/plain.txt" "/vault/plain.txt.enc"
      (mkEncryptOptions "test-password-123" None None) "2026-01-15T10:30:00.000Z"
      plain_vault_world
    = (Normal metadata, w1)
    ∧ @Encryption.encryptFileStream toy_primitives "/vault/plain.txt"
        "/vault/plain.txt.enc" (mkEncryptOptions "test-password-123" None None) true
        "2026-01-15T10:30:00.000Z" plain_vault_world
      = (Normal metadata, w2)
    ∧ files w1 = files w2 ∧ entropy w1 = entropy w2.
Proof.
  apply (@encryptFileStream_as_encryptFile toy_primitives "/vault/plain.txt"
           "/vault/plain.txt.enc" (mkEncryptOptions "test-password-123" None None)
           true "2026-01-15T10:30:00.000Z" (utf8 "Test file content"));
    first [ by vm_compute | vm_compute; lia ].
Defined.

Lemma decryptFileStream_as_decryptFile_witness :
  ∃ r w1 w2,
    @Decryption.decryptFile toy_primitives "/vault/doc.enc" "/vault/doc.txt"
      vault_metadata "test-password-123" vault_world
    = (r, w1)
    ∧ @Decryption.decryptFileStream toy_primitives "/vault/doc.enc" "/vault/doc.txt"
        vault_metadata "test-password-123" true vault_world
      = (r, w2)
    ∧ files w1 = files w2 ∧ heap w1 = heap w2
    ∧ (∀ e, r = Throw e → Fs.node_at w2 "/vault/doc.txt" = None).
Proof.
  apply (@decryptFileStream_as_decryptFile toy_primitives "/vault/doc.enc"
           "/vault/doc.txt" vault_metadata "test-password-123" true [x2a]);
    first [ by vm_compute | vm_compute; lia ].
Defined.

(** ** File names *)

Lemma append_cons c a b : String c a +:+ b = String c (a +:+ b).
Proof. reflexivity. Qed.

Lemma append_assoc a b c : (a +:+ b) +:+ c = a +:+ (b +:+ c).
Proof.
  induction a as [|x a IH]; [done|]. by rewrite !append_cons, IH.
Qed.

Lemma list_ascii_append a b :
  list_ascii_of_string (a +:+ b) = list_ascii_of_string a ++ list_ascii_of_string b.
Proof.
  induction a as [|x a IH]; [done|].
  rewrite append_cons. cbn [list_ascii_of_string app]. by rewrite IH.
Qed.

Lemma length_list_ascii s : length (list_ascii_of_string s) = String.length s.
Proof. induction s as [|x s IH]; [done|]. cbn. by rewrite IH. Qed.

Lemma length_append a b : String.length (a +:+ b) = String.length a + String.length b.
Proof. by rewrite <- !length_list_ascii, list_ascii_append, length_app. Qed.

Lemma substring_all s : substring 0 (String.length s) s = s.
Proof. induction s as [|x s IH]; [done|]. cbn. by rewrite IH. Qed.

Lemma substring_append a b :
  substring (String.length a) (String.length b) (a +:+ b) = b.
Proof.
  induction a as [|x a IH]; [apply substring_all|].
  rewrite append_cons. cbn [String.length substring]. exact IH.
Qed.

Section path_facts.
Import Path.

Lemma basename_scan_component l rest e :
  Forall (λ c, c ≠ "/"%char) l →
  basename_scan (l ++ rest) false (Some e) = basename_scan rest false (Some e).
Proof.
  induction 1 as [|c l Hc _ IH]; [done|].
  cbn [app basename_scan].
  by rewrite (proj2 (Ascii.eqb_neq _ _) Hc).
Qed.

(** The last component of a path is the part after the last slash. *)
Lemma basename_last dir name :
  name ≠ "" → Forall (λ c, c ≠ "/"%char) (list_ascii_of_string name) →
  dir = "" ∨ (∃ d, dir = d +:+ "/") →
  basename (dir +:+ name) = name.
Proof.
  intros Hne Hname Hdir. unfold basename.
  rewrite list_ascii_append, rev_app_distr.
  destruct (rev (list_ascii_of_string name)) as [|c l] eqn:Hrev.
  { apply (f_equal (@length _)) in Hrev.
    rewrite length_rev, length_list_ascii in Hrev. by destruct name. }
  assert (Forall (λ c, c ≠ "/"%char) (c :: l)) as Hcl.
  { rewrite <- Hrev. by apply Forall_rev. }
  apply Forall_cons in Hcl as [Hc Hl].
  cbn [app basename_scan].
  rewrite (proj2 (Ascii.eqb_neq _ _) Hc).
  rewrite basename_scan_component by done.
  assert (length (c :: l ++ rev (list_ascii_of_string dir))
          = String.length dir + String.length name) as ->.
  { change (c :: l ++ ?r) with ((c :: l) ++ r).
    rewrite <- Hrev, length_app, !length_rev, !length_list_ascii. lia. }
  destruct Hdir as [->|[d ->]].
  - cbn. rewrite Nat.sub_0_r. apply substring_all.
  - rewrite list_ascii_append, rev_app_distr. cbn [list_ascii_of_string rev app].
    cbn [basename_scan Ascii.eqb Bool.eqb negb]. cbn [length].
    rewrite length_rev, length_list_ascii.
    replace (S (String.length d)) with (String.length (d +:+ "/"))
      by (rewrite length_append; cbn; lia).
    replace (String.length (d +:+ "/") + String.length name
             - String.length (d +:+ "/")) with (String.length name) by lia.
    apply substring_append.
Qed.

Lemma extname_scan_extension l rest st :
  Forall (λ c, c ≠ "/"%char ∧ c ≠ "."%char) l →
  startDot st = None → is_Some (ext_end st) →
  extname_scan (l ++ rest) st = extname_scan rest st.
Proof.
  intros Hl Hsd [e He]. induction Hl as [|c l [Hc1 Hc2] _ IH]; [done|].
  cbn [app extname_scan].
  rewrite (proj2 (Ascii.eqb_neq _ _) Hc1), (proj2 (Ascii.eqb_neq _ _) Hc2).
  rewrite He. cbv zeta. by rewrite Hsd.
Qed.

Lemma extname_scan_stem l rest sd sp e : ∀ p,
  Forall (λ c, c ≠ "/"%char) l →
  ∃ p',
    extname_scan (l ++ rest) (mkExtState (Some sd) sp (Some e) false p)
    = extname_scan rest (mkExtState (Some sd) sp (Some e) false p')
    ∧ (p ≠ 0%Z ∨ l ≠ [] → p' ≠ 0%Z).
Proof.
  intros p Hl. revert p.
  induction Hl as [|c l Hc _ IH]; intros p.
  { exists p. split; [done|]. by intros [?|?]. }
  cbn [app extname_scan ext_end ext_matchedSlash startDot preDotState startPart].
  rewrite (proj2 (Ascii.eqb_neq _ _) Hc). cbv zeta.
  cbn [ext_end ext_matchedSlash startDot preDotState startPart].
  assert (∀ q, q ≠ 0%Z →
            ∃ p', extname_scan (l ++ rest) (mkExtState (Some sd) sp (Some e) false q)
                  = extname_scan rest (mkExtState (Some sd) sp (Some e) false p')
                  ∧ (p ≠ 0%Z ∨ c :: l ≠ [] → p' ≠ 0%Z)) as Hstep.
  { intros q Hq. destruct (IH q) as (p' & Hrun & Hp').
    exists p'. split; [done|]. intros _. apply Hp'. by left. }
  destruct (Ascii.eqb c "."%char).
  - destruct (Z.eqb_spec p 1) as [->|Hp]; cbn [negb]; by apply Hstep.
  - by apply Hstep.
Qed.

(** The extension of a file name with a stem: the part from its last dot. *)
Lemma extname_last dir stem ext :
  stem ≠ "" → Forall (λ c, c ≠ "/"%char) (list_ascii_of_string stem) →
  ext ≠ "" →
  Forall (λ c, c ≠ "/"%char ∧ c ≠ "."%char) (list_ascii_of_string ext) →
  dir = "" ∨ (∃ d, dir = d +:+ "/") →
  extname (dir +:+ stem +:+ "." +:+ ext) = "." +:+ ext.
Proof.
  intros Hstem Hstemc Hext Hextc Hdir. unfold extname.
  rewrite !list_ascii_append, !rev_app_distr.
  cbn [list_ascii_of_string rev app]. rewrite <- !app_assoc. cbn [app].
  destruct (rev (list_ascii_of_string ext)) as [|c l] eqn:Hrev.
  { apply (f_equal (@length _)) in Hrev.
    rewrite length_rev, length_list_ascii in Hrev. by destruct ext. }
  assert (Forall (λ c, c ≠ "/"%char ∧ c ≠ "."%char) (c :: l)) as Hcl.
  { rewrite <- Hrev. by apply Forall_rev. }
  apply Forall_cons in Hcl as [[Hc1 Hc2] Hl].
  set (tail := "."%char :: rev (list_ascii_of_string stem)
               ++ rev (list_ascii_of_string dir)).
  cbn [app extname_scan ext_end ext_matchedSlash startDot preDotState startPart].
  rewrite (proj2 (Ascii.eqb_neq _ _) Hc1), (proj2 (Ascii.eqb_neq _ _) Hc2).
  cbv zeta. cbn [ext_end ext_matchedSlash startDot preDotState startPart].
  rewrite extname_scan_extension by (cbn; eauto).
  unfold tail.
  cbn [extname_scan ext_end ext_matchedSlash startDot preDotState startPart
       Ascii.eqb Bool.eqb negb].
  cbv zeta. cbn [ext_end ext_matchedSlash startDot preDotState startPart].
  set (sd := length (rev (list_ascii_of_string stem) ++ rev (list_ascii_of_string dir))).
  set (e := length (l ++ tail) + 1).
  assert (sd = String.length dir + String.length stem) as Hsd.
  { unfold sd. rewrite length_app, !length_rev, !length_list_ascii. lia. }
  assert (e = sd + 1 + String.length ext) as He.
  { unfold e, tail. rewrite length_app. cbn [length]. fold sd.
    assert (S (length l) = String.length ext) as <-; [|lia].
    change (S (length l)) with (length (c :: l)).
    by rewrite <- Hrev, length_rev, length_list_ascii. }
  destruct (extname_scan_stem (rev (list_ascii_of_string stem))
              (rev (list_ascii_of_string dir)) sd 0 e 0%Z)
    as (p' & Hrun & Hp'); [by apply Forall_rev|].
  unfold tail in e. fold e. rewrite Hrun. clear Hrun.
  assert (p' ≠ 0%Z) as Hp.
  { apply Hp'. right. intros E. apply (f_equal (@length _)) in E.
    rewrite length_rev, length_list_ascii in E. by destruct stem. }
  assert (∃ sp,
            extname_scan (rev (list_ascii_of_string dir))
              (mkExtState (Some sd) 0 (Some e) false p')
            = mkExtState (Some sd) sp (Some e) false p') as [sp ->].
  { destruct Hdir as [->|[d ->]]; [by exists 0|].
    rewrite list_ascii_append, rev_app_distr. cbn. eauto. }
  cbn [startDot ext_end preDotState startPart].
  destruct (Z.eqb_spec p' 0) as [?|_]; [done|].
  destruct (Nat.eqb_spec sd (e - 1)) as [?|_];
    [destruct ext; [done|cbn in He; lia]|].
  rewrite andb_false_r. cbn [orb andb].
  replace sd with (String.length (dir +:+ stem))
    by (rewrite length_append; lia).
  replace (e - String.length (dir +:+ stem)) with (String.length ("." +:+ ext))
    by (rewrite !length_append in *; cbn [String.length]; lia).
  rewrite <- append_assoc. apply substring_append.
Qed.

End path_facts.

Section file_metadata.
Context `{Primitives}.
Import Crypto.

(** X18: the metadata of [encryptFile].  For an input path made of a
    directory part (empty or ending in a slash), a non-empty stem without a
    slash and a non-empty extension without a slash or a dot, the metadata
    name the file [stem.ext], give the MIME type that the table has for the
    extension in lower case (or application/octet-stream when it has
    none), the size of the content, version 1 and the time of the call. *)
Theorem encryptFile_metadata (dir stem ext outputPath : string)
    (options : EncryptBufferOptions) (now : string) (content : Buffer) (w : World) :
  8 ≤ String.length (opt_password options) → opt_iv options ≠ Some [] →
  (∀ iv, opt_iv options = Some iv → length iv ≤ 128) →
  Fs.node_at w (dir +:+ stem +:+ "." +:+ ext) = Some (File content true) →
  Fs.node_at w outputPath = None →
  Fs.node_at w (Path.dirname outputPath) = Some Dir →
  stem ≠ "" → Forall (λ c, c ≠ "/"%char) (list_ascii_of_string stem) →
  ext ≠ "" →
  Forall (λ c, c ≠ "/"%char ∧ c ≠ "."%char) (list_ascii_of_string ext) →
  dir = "" ∨ (∃ d, dir = d +:+ "/") →
  ∃ metadata w1,
    Encryption.encryptFile (dir +:+ stem +:+ "." +:+ ext) outputPath options now w
    = (Normal metadata, w1)
    ∧ meta_originalFileName metadata = stem +:+ "." +:+ ext
    ∧ meta_mimeType metadata
      = default "application/octet-stream"
          (Encryption.mimeTypes !! ("." +:+ toLowerCase ext))
    ∧ meta_originalSize metadata = length content
    ∧ meta_version metadata = 1%Z ∧ meta_encryptedAt metadata = now.
Proof.
  destruct options as [password so io]. cbn [opt_password opt_salt opt_iv].
  intros Hlen Hio Hmax Hin Hout Hdir Hstem Hstemc Hext Hextc Hshape.
  eexists _, _. split; [by apply encryptFile_run|].
  cbn [meta_originalFileName meta_mimeType meta_originalSize meta_version
       meta_encryptedAt].
  repeat split.
  - apply basename_last; [by destruct stem| |done].
    rewrite !list_ascii_append. cbn [list_ascii_of_string].
    apply Forall_app. split; [done|].
    apply Forall_cons. split; [done|].
    eapply Forall_impl; [exact Hextc|]. by intros c [? _].
  - unfold Encryption.guessMimeType. by rewrite extname_last.
Qed.

(** X19: when [encryptFile] succeeds, the two Buffers it held secrets in
    are zeroed: the Buffer with the content of the plaintext file and the
    Buffer of the derived key. *)
Theorem encryptFile_wipes_buffers (inputPath outputPath : string)
    (options : EncryptBufferOptions) (now : string) (content : Buffer) (w : World) :
  8 ≤ String.length (opt_password options) → opt_iv options ≠ Some [] →
  (∀ iv, opt_iv options = Some iv → length iv ≤ 128) →
  Fs.node_at w inputPath = Some (File content true) →
  Fs.node_at w outputPath = None →
  Fs.node_at w (Path.dirname outputPath) = Some Dir →
  ∃ metadata w1,
    Encryption.encryptFile inputPath outputPath options now w = (Normal metadata, w1)
    ∧ heap w1 = heap w ++ [repeat x00 (length content); repeat x00 32].
Proof.
  destruct options as [password so io]. cbn [opt_password opt_salt opt_iv].
  intros Hlen Hio Hmax Hin Hout Hdir.
  eexists _, _. split; [by apply encryptFile_run|].
  cbn [heap]. unfold fill0. by rewrite length_pbkdf2.
Qed.


(** X21: the key of the decryption module is the key of the encryption
    module.  For a password that is not empty, [deriveKey] of the encryption
    module returns a 32-octet key with the salt it used (the salt given, or
    the next 16 random octets), and [deriveKey] of the decryption module,
    given that salt, derives the same key in whatever world; an empty salt,
    which the encryption module accepts, is rejected by the decryption
    module with an [Error]. *)
Theorem deriveKey_rederives (password : string) (salt : option Buffer) (w w2 : World) :
  password ≠ "" →
  ∃ dk w1 key,
    Encryption.deriveKey password salt w = (Normal dk, w1)
    ∧ heap w1 !! dk_key dk = Some key ∧ length key = 32
    ∧ dk_salt dk = default (map (entropy w) (seq 0 16)) salt
    ∧ (dk_salt dk ≠ [] →
       ∃ dk2 w3,
         Decryption.deriveKey password (dk_salt dk) w2 = (Normal dk2, w3)
         ∧ heap w3 !! dk_key dk2 = Some key)
    ∧ (dk_salt dk = [] →
       Decryption.deriveKey password (dk_salt dk) w2
       = (Throw (Error "Salt must be a non-empty Buffer."),
          set_trace (trace w2 ++ [EvDeriveKey]) w2)).
Proof.
  intros Hne.
  assert (∀ s, s ≠ [] →
            ∃ dk2 w3,
              Decryption.deriveKey password s w2 = (Normal dk2, w3)
              ∧ heap w3 !! dk_key dk2
                = Some (pbkdf2 password s PBKDF2_ITERATIONS AES_KEY_LENGTH_BYTES))
    as Hre.
  { intros s Hs. eexists _, _. split; [by apply decryption_deriveKey_ok|].
    cbn [heap dk_key]. apply lookup_allocated. }
  assert (Decryption.deriveKey password [] w2
          = (Throw (Error "Salt must be a non-empty Buffer."),
             set_trace (trace w2 ++ [EvDeriveKey]) w2)) as Hempty.
  { unfold Decryption.deriveKey, bind. cbn [record]. by rewrite eqb_nonempty. }
  destruct salt as [s|].
  - eexists _, _, _. split; [by apply encryption_deriveKey_given|].
    cbn [heap dk_key dk_salt].
    split; [apply lookup_allocated|]. split; [apply length_pbkdf2|].
    split; [done|].
    split; [apply Hre|]. by intros ->.
  - eexists _, _, _. split; [by apply encryption_deriveKey_fresh|].
    cbn [heap dk_key dk_salt].
    split; [apply lookup_allocated|]. split; [apply length_pbkdf2|].
    split; [done|].
    split; [apply Hre|]. clear. intros E. cbn in E. discriminate E.
Qed.

End file_metadata.


Lemma encryptFile_metadata_witness :
  ∃ metadata w1,
    @Encryption.encryptFile toy_primitives ("/vault/" +:+ "plain" +:+ "." +:+ "txt")
      "/vault/plain.txt.enc" (mkEncryptOptions "test-password-123" None None)
      "2026-01-15T10:30:00.000Z" plain_vault_world
    = (Normal metadata, w1)
    ∧ meta_originalFileName metadata = "plain" +:+ "." +:+ "txt"
    ∧ meta_mimeType metadata
      = default "application/octet-stream"
          (Encryption.mimeTypes !! ("." +:+ toLowerCase "txt"))
    ∧ meta_originalSize metadata = length (utf8 "Test file content")
    ∧ meta_version metadata = 1%Z
    ∧ meta_encryptedAt metadata = "2026-01-15T10:30:00.000Z".
Proof.
  apply (@encryptFile_metadata toy_primitives "/vault/" "plain" "txt");
    first [ by vm_compute | vm_compute; lia | by repeat constructor
          | right; by exists "/vault" ].
Defined.

Lemma encryptFile_wipes_buffers_witness :
  ∃ metadata w1,
    @Encryption.encryptFile toy_primitives "/vault/plain.txt" "/vault/plain.txt.enc"
      (mkEncryptOptions "test-password-123" None None) "2026-01-15T10:30:00.000Z"
      plain_vault_world
    = (Normal metadata, w1)
    ∧ heap w1
      = heap plain_vault_world
        ++ [repeat x00 (length (utf8 "Test file content")); repeat x00 32].
Proof.
  apply (@encryptFile_wipes_buffers toy_primitives "/vault/plain.txt"
           "/vault/plain.txt.enc" (mkEncryptOptions "test-password-123" None None));
    first [ by vm_compute | vm_compute; lia ].
Defined.


Lemma deriveKey_rederives_witness :
  ∃ dk w1 key,
    @Encryption.deriveKey toy_primitives "test-password" None empty_world
    = (Normal dk, w1)
    ∧ heap w1 !! dk_key dk = Some key ∧ length key = 32
    ∧ dk_salt dk = default (map (entropy empty_world) (seq 0 16)) None
    ∧ (dk_salt dk ≠ [] →
       ∃ dk2 w3,
         @Decryption.deriveKey toy_primitives "test-password" (dk_salt dk) empty_world
         = (Normal dk2, w3)
         ∧ heap w3 !! dk_key dk2 = Some key)
    ∧ (dk_salt dk = [] →
       @Decryption.deriveKey toy_primitives "test-password" (dk_salt dk) empty_world
       = (Throw (Error "Salt must be a non-empty Buffer."),
          set_trace (trace empty_world ++ [EvDeriveKey]) empty_world)).
Proof.
  apply (@deriveKey_rederives toy_primitives "test-password" None empty_world
           empty_world).
  done.
Defined.

(** ** The two forms of the buffer variants *)

Section two_forms.
Context `{Primitives}.
Import Crypto.

(** X22: [encryptBuffer] is [encryptBufferRaw] followed by base-64: on
    every input, options and world it fails when [encryptBufferRaw] fails,
    with the same error, and otherwise returns the base-64 text of the
    fields that [encryptBufferRaw] returns, leaving the same world. *)
Theorem encryptBuffer_as_encryptBufferRaw (d : EncryptionInput)
    (options : EncryptBufferOptions) (w : World) :
  Encryption.encryptBuffer d options w
  = match Encryption.encryptBufferRaw d options w with
    | (Normal raw, w') =>
        (Normal (mkPayload (Some (Encryption.toBase64 (raw_cipherBytes raw)))
                   (Some (Encryption.toBase64 (raw_salt raw)))
                   (Some (Encryption.toBase64 (raw_iv raw)))
                   (Some (Encryption.toBase64 (raw_authTag raw)))
                   (Some (raw_version raw))), w')
    | (Throw e, w') => (Throw e, w')
    end.
Proof.
  unfold Encryption.encryptBuffer, Encryption.encryptBufferRaw, bind.
  destruct (Encryption.validatePassword (opt_password options) w) as [[[]|e0] w0];
    [|reflexivity].
  destruct (match opt_iv options with
            | Some iv => ret iv
            | None => Encryption.generateIV Encryption.IV_LENGTH_BYTES
            end w0) as [[ivBytes|e1] w1]; [|reflexivity].
  destruct (Encryption.deriveKey (opt_password options) (opt_salt options) w1)
    as [[dk|e2] w2]; [|reflexivity].
  destruct (readBuffer (dk_key dk) w2) as [[key|e3] w3]; [|reflexivity].
  destruct (createCipheriv key ivBytes w3) as [[cipher|e4] w4]; [|reflexivity].
  unfold cipher_update.
  destruct (fillBuffer (dk_key dk) w4) as [[[]|e5] w5]; reflexivity.
Qed.

(** X23: [decryptBuffer] is the validator followed by [decryptBufferRaw]:
    on a payload that [validatePayload] accepts, it completes as
    [decryptBufferRaw] does on the decoded fields, with the same result or
    error and the same world. *)
Theorem decryptBuffer_as_decryptBufferRaw (c s i t : string) (v : Z)
    (password : string) (w : World) :
  Decryption.validatePayload (mkPayload (Some c) (Some s) (Some i) (Some t) (Some v)) w
  = (Normal tt, w) →
  Decryption.decryptBuffer (mkPayload (Some c) (Some s) (Some i) (Some t) (Some v))
    password w
  = Decryption.decryptBufferRaw
      (mkPayloadRaw (Decryption.fromBase64 c) (Decryption.fromBase64 s)
         (Decryption.fromBase64 i) (Decryption.fromBase64 t) v) password w.
Proof.
  intros Hv. unfold Decryption.decryptBuffer, Decryption.decryptBufferRaw.
  destruct (String.eqb_spec password "") as [->|Hne]; [reflexivity|].
  rewrite !(bind_normal _ _ _ _ _ (decryption_validatePassword_ok _ w Hne)).
  rewrite (bind_normal _ _ _ _ _ Hv).
  reflexivity.
Qed.

End two_forms.

Lemma decryptBuffer_as_decryptBufferRaw_witness :
  @Decryption.decryptBuffer toy_primitives
    (mkPayload (Some "") (Some "AAAAAAAAAAAAAAAAAAAAAA==") (Some "AAAAAAAAAAAAAAAA")
       (Some "AAAAAAAAAAAAAAAAAAAAAA==") (Some 1%Z)) "test-password-123" empty_world
  = @Decryption.decryptBufferRaw toy_primitives
      (mkPayloadRaw (Decryption.fromBase64 "")
         (Decryption.fromBase64 "AAAAAAAAAAAAAAAAAAAAAA==")
         (Decryption.fromBase64 "AAAAAAAAAAAAAAAA")
         (Decryption.fromBase64 "AAAAAAAAAAAAAAAAAAAAAA==") 1) "test-password-123"
      empty_world.
Proof.
  apply (@decryptBuffer_as_decryptBufferRaw toy_primitives). by vm_compute.
Defined.

(** ** Errors of the runtime, and progress *)

Lemma progress_reports_bound n total chunks :
  Forall (λ ev, ∃ b, ev = EvProgress b total ∧ b ≤ n + length (concat chunks))
    (progress_reports n total chunks).
Proof.
  revert n. induction chunks as [|chunk rest IH]; intros n; [by constructor|].
  cbn [progress_reports concat]. rewrite length_app. constructor.
  - exists (n + length chunk). split; [done|lia].
  - eapply Forall_impl; [apply IH|].
    intros ev (b & -> & Hb). exists b. split; [done|lia].
Qed.

Lemma progress_reports_last n total chunks :
  chunks ≠ [] →
  last (progress_reports n total chunks)
  = Some (EvProgress (n + length (concat chunks)) total).
Proof.
  revert n. induction chunks as [|chunk rest IH]; intros n Hne; [done|].
  cbn [progress_reports concat]. rewrite last_cons, length_app.
  destruct rest as [|chunk' rest'].
  - cbn. by rewrite Nat.add_0_r.
  - rewrite IH by done. by rewrite Nat.add_assoc.
Qed.

Lemma chunks_nonempty k (content : Buffer) : content ≠ [] → Fs.chunks k content ≠ [].
Proof. by destruct content. Qed.

(** The reports while a stream delivers a file in chunks of [k] octets: one
    for each chunk, the [i]-th with the count of the first [i + 1] chunks. *)
Lemma progress_reports_chunks fuel k (data : Buffer) n total :
  0 < k → length data ≤ fuel →
  progress_reports n total (Fs.chunks_fuel fuel k data)
  = map (λ i, EvProgress (n + Nat.min ((i + 1) * k) (length data)) total)
      (seq 0 ((length data + k - 1) / k)).
Proof.
  intros Hk. revert data n.
  induction fuel as [|fuel IH]; intros data n Hfuel.
  { destruct data; [|cbn in Hfuel; lia].
    cbn [Fs.chunks_fuel progress_reports length].
    by rewrite Nat.div_small by lia. }
  destruct data as [|b data].
  { cbn [Fs.chunks_fuel progress_reports length].
    by rewrite Nat.div_small by lia. }
  set (d := b :: data) in *.
  assert (1 ≤ length d) as Hpos by (unfold d; cbn; lia).
  change (Fs.chunks_fuel (S fuel) k d)
    with (take k d :: Fs.chunks_fuel fuel k (drop k d)).
  cbn [progress_reports].
  rewrite IH by (rewrite length_drop; lia).
  rewrite length_take, length_drop.
  assert ((length d + k - 1) / k = S ((length d - k + k - 1) / k)) as ->.
  { destruct (decide (length d ≤ k)) as [Hle|Hgt].
    - replace (length d + k - 1) with (length d - 1 + 1 * k) by lia.
      rewrite Nat.div_add by lia.
      rewrite (Nat.div_small (length d - 1)) by lia.
      rewrite (Nat.div_small (length d - k + k - 1)) by lia. done.
    - replace (length d + k - 1) with (length d - k + k - 1 + 1 * k) by lia.
      rewrite Nat.div_add by lia. lia. }
  cbn [seq map]. f_equal.
  - f_equal. lia.
  - rewrite <- seq_shift, map_map. apply map_ext. intros i.
    f_equal. nia.
Qed.

Section runtime_errors.
Context `{Primitives}.
Import Crypto.

(** X24: an input file that exists but may not be read.  [encryptFile] and
    [decryptFile] pass the error of the runtime on as it is (from
    [decryptFile] it is not a [DecryptionError]) and leave the world
    untouched; [encryptFileStream] rejects with an [Error] that wraps the
    message, zeroes the key Buffer, and leaves behind the empty output file
    that its write stream has created. *)
Theorem file_variants_unreadable_input (inputPath outputPath : string)
    (options : EncryptBufferOptions) (metadata : EncryptionMetadata)
    (onProgress : bool) (now : string) (content : Buffer) (w : World) :
  8 ≤ String.length (opt_password options) → opt_iv options ≠ Some [] →
  (∀ iv, opt_iv options = Some iv → length iv ≤ 128) →
  Fs.node_at w inputPath = Some (File content false) →
  Fs.node_at w outputPath = None →
  Fs.node_at w (Path.dirname outputPath) = Some Dir →
  Encryption.encryptFile inputPath outputPath options now w
  = (Throw (Fs.eacces "open" inputPath), w)
  ∧ Decryption.decryptFile inputPath outputPath metadata (opt_password options) w
    = (Throw (Fs.eacces "open" inputPath), w)
  ∧ ∃ w',
      Encryption.encryptFileStream inputPath outputPath options onProgress now w
      = (Throw (Error ("Failed to read input file: "
                       +:+ message (Fs.eacces "open" inputPath))), w')
      ∧ Fs.node_at w' outputPath = Some (File [] true)
      ∧ heap w' = heap w ++ [repeat x00 32].
Proof.
  destruct options as [password so io]. cbn [opt_password opt_salt opt_iv].
  intros Hlen Hio Hmax Hin Hout Hdir.
  pose proof (long_password_nonempty _ Hlen) as Hne.
  assert (∀ w0, files w0 = files w →
            Fs.readFileSync inputPath w0 = (Throw (Fs.eacces "open" inputPath), w0))
    as Hread.
  { intros w0 Hf. unfold Fs.readFileSync.
    by rewrite (node_at_same_files w0 w), Hin. }
  split; [|split].
  - unfold Encryption.encryptFile. cbn [opt_password].
    rewrite (bind_normal _ _ _ _ _ (encryption_validatePassword_ok _ w Hlen)).
    erewrite bind_normal by by eapply encryption_check_input_file_ok.
    apply bind_throw. by apply Hread.
  - unfold Decryption.decryptFile.
    rewrite (bind_normal _ _ _ _ _ (decryption_validatePassword_ok _ w Hne)).
    erewrite bind_normal by by eapply check_input_file_ok.
    apply bind_throw. by apply Hread.
  - set (ivBytes := default (map (entropy w) (seq 0 12)) io).
    set (e1 := match io with Some _ => entropy w | None => λ i, entropy w (12 + i) end).
    set (saltBytes := default (map e1 (seq 0 16)) so).
    set (e2 := match so with Some _ => e1 | None => λ i, e1 (16 + i) end).
    set (key := pbkdf2 password saltBytes PBKDF2_ITERATIONS AES_KEY_LENGTH_BYTES).
    assert (ivBytes ≠ []) as Hiv.
    { unfold ivBytes. destruct io as [i|]; cbn; [by intros ->|done]. }
    assert (length ivBytes ≤ 128) as Hmax'.
    { unfold ivBytes. destruct io as [i|]; cbn; [by apply Hmax|lia]. }
    unfold Encryption.encryptFileStream. cbn [opt_password opt_iv opt_salt].
    rewrite (bind_normal _ _ _ _ _ (encryption_validatePassword_ok _ w Hlen)).
    erewrite bind_normal by by eapply encryption_check_input_file_ok.
    assert ((match io with
             | Some iv => ret iv
             | None => Encryption.generateIV Encryption.IV_LENGTH_BYTES
             end) w = (Normal ivBytes, set_entropy e1 w)) as Hdraw.
    { unfold ivBytes, e1. destruct io; [by destruct w|reflexivity]. }
    rewrite (bind_normal _ _ _ _ _ Hdraw).
    assert (Encryption.deriveKey password so (set_entropy e1 w)
            = (Normal (mkDerivedKey (length (heap w)) saltBytes PBKDF2_ITERATIONS),
               mkWorld e2 (files w) (heap w ++ [key]) (trace w ++ [EvDeriveKey])))
      as Hkey.
    { unfold saltBytes, e2, key. destruct so.
      - by rewrite encryption_deriveKey_given.
      - by rewrite encryption_deriveKey_fresh. }
    rewrite (bind_normal _ _ _ _ _ Hkey).
    cbn [dk_key dk_salt].
    erewrite bind_normal by apply readBuffer_allocated.
    erewrite bind_normal
      by (apply createCipheriv_ok; [apply length_pbkdf2 | done | done]).
    set (w1 := mkWorld e2 _ (heap w ++ [key]) _).
    erewrite bind_normal
      by (eapply encryption_ensure_output_dir_present;
          by rewrite (node_at_same_files w1 w)).
    erewrite bind_normal.
    2: { unfold attempt, Fs.openReadStream.
         erewrite bind_throw; [reflexivity|]. by apply Hread. }
    erewrite bind_normal
      by (unfold attempt; erewrite openWriteStream_new;
          [reflexivity | by rewrite (node_at_same_files w1 w) ..]).
    cbv beta iota.
    erewrite bind_normal by reflexivity.
    eexists. split; [reflexivity|].
    destruct (node_at_none _ _ Hout) as [Hreg _].
    split.
    + rewrite node_at_regular by done.
      cbn [files set_heap set_files]. apply lookup_insert_eq.
    + cbn [heap set_heap set_files]. unfold w1. cbn [heap].
      rewrite alter_allocated. unfold fill0, key. rewrite length_pbkdf2.
      reflexivity.
Qed.

(** X25: the progress reports of [encryptFileStream].  When it is given a
    callback and succeeds, the log after the key derivation consists of the
    reports of the callback, one for each chunk of 64 KiB that the read
    stream delivers: report [i] carries the count of the first [i + 1]
    chunks, which is [(i + 1) * 65536] or the size of the input where that is
    less, and the size of the input as total.  So each count is at most the
    total, for an input that is not empty the last report has the count
    equal to the total, and for an empty input there is no report. *)
Theorem encryptFileStream_progress (inputPath outputPath : string)
    (options : EncryptBufferOptions) (now : string) (content : Buffer) (w : World) :
  8 ≤ String.length (opt_password options) → opt_iv options ≠ Some [] →
  (∀ iv, opt_iv options = Some iv → length iv ≤ 128) →
  Fs.node_at w inputPath = Some (File content true) →
  Fs.node_at w outputPath = None →
  Fs.node_at w (Path.dirname outputPath) = Some Dir →
  ∃ metadata w' reports,
    Encryption.encryptFileStream inputPath outputPath options true now w
    = (Normal metadata, w')
    ∧ trace w' = trace w ++ EvDeriveKey :: reports
    ∧ reports
      = map (λ i, EvProgress (Nat.min ((i + 1) * Fs.READ_STREAM_CHUNK) (length content))
                    (length content))
          (seq 0 ((length content + Fs.READ_STREAM_CHUNK - 1) / Fs.READ_STREAM_CHUNK))
    ∧ Forall (λ ev, ∃ b, ev = EvProgress b (length content) ∧ b ≤ length content)
        reports
    ∧ (content ≠ [] →
       last reports = Some (EvProgress (length content) (length content)))
    ∧ (content = [] → reports = []).
Proof.
  destruct options as [password so io]. cbn [opt_password opt_salt opt_iv].
  intros Hlen Hio Hmax Hin Hout Hdir.
  destruct (encryptFileStream_run inputPath outputPath password so io true now
              content w Hlen Hio Hmax Hin Hout Hdir)
    as (w' & Hrun & _ & _ & _ & Htrace).
  eexists _, w', _. split; [exact Hrun|]. split; [exact Htrace|].
  split; [|split; [|split]].
  - unfold Fs.chunks. apply progress_reports_chunks; [|done].
    unfold Fs.READ_STREAM_CHUNK. lia.
  - pose proof (progress_reports_bound 0 (length content)
                  (Fs.chunks Fs.READ_STREAM_CHUNK content)) as Hb.
    by rewrite concat_chunks in Hb.
  - intros Hne.
    rewrite progress_reports_last by by apply chunks_nonempty.
    by rewrite concat_chunks.
  - by intros ->.
Qed.

(** X26: the progress reports of [decryptFileStream], likewise: with a
    callback, whether the tag verifies or not, each report carries the size
    of the encrypted file as total and a count that is at most that size,
    and for a file that is not empty the last report has the count equal to
    the total. *)
Theorem decryptFileStream_progress (inputPath outputPath : string)
    (metadata : EncryptionMetadata) (password : string) (cipherBytes : Buffer)
    (w : World) :
  password ≠ "" →
  Fs.node_at w inputPath = Some (File cipherBytes true) →
  Fs.node_at w outputPath = None →
  Fs.node_at w (Path.dirname outputPath) = Some Dir →
  Decryption.fromBase64 (meta_salt metadata) ≠ [] →
  Decryption.fromBase64 (meta_iv metadata) ≠ [] →
  length (Decryption.fromBase64 (meta_iv metadata)) ≤ 128 →
  length (Decryption.fromBase64 (meta_authTag metadata)) = 16 →
  ∃ r w' reports,
    Decryption.decryptFileStream inputPath outputPath metadata password true w
    = (r, w')
    ∧ trace w' = trace w ++ EvDeriveKey :: reports
    ∧ Forall (λ ev, ∃ b, ev = EvProgress b (length cipherBytes)
                         ∧ b ≤ length cipherBytes) reports
    ∧ (cipherBytes ≠ [] →
       last reports = Some (EvProgress (length cipherBytes) (length cipherBytes)))
    ∧ (cipherBytes = [] → reports = []).
Proof.
  intros Hne Hin Hout Hdir Hsalt Hiv Hmax Htag.
  destruct (decryptFileStream_run inputPath outputPath metadata password true
              cipherBytes w Hne Hin Hout Hdir Hsalt Hiv Hmax Htag)
    as (w' & Hrun & _ & _ & _ & Htrace).
  eexists _, w', _. split; [exact Hrun|]. split; [exact Htrace|].
  split; [|split].
  - pose proof (progress_reports_bound 0 (length cipherBytes)
                  (Fs.chunks Fs.READ_STREAM_CHUNK cipherBytes)) as Hb.
    by rewrite concat_chunks in Hb.
  - intros Hne'.
    rewrite progress_reports_last by by apply chunks_nonempty.
    by rewrite concat_chunks.
  - by intros ->.
Qed.

End runtime_errors.

Lemma file_variants_unreadable_input_witness :
  @Encryption.encryptFile toy_primitives "/vault/doc.enc" "/vault/doc.txt"
    (mkEncryptOptions "test-password-123" None None) "2026-01-15T10:30:00.000Z"
    locked_vault_world
  = (Throw (Fs.eacces "open" "/vault/doc.enc"), locked_vault_world)
  ∧ @Decryption.decryptFile toy_primitives "/vault/doc.enc" "/vault/doc.txt"
      vault_metadata "test-password-123" locked_vault_world
    = (Throw (Fs.eacces "open" "/vault/doc.enc"), locked_vault_world)
  ∧ ∃ w',
      @Encryption.encryptFileStream toy_primitives "/vault/doc.enc" "/vault/doc.txt"
        (mkEncryptOptions "test-password-123" None None) true
        "2026-01-15T10:30:00.000Z" locked_vault_world
      = (Throw (Error ("Failed to read input file: "
                       +:+ message (Fs.eacces "open" "/vault/doc.enc"))), w')
      ∧ Fs.node_at w' "/vault/doc.txt" = Some (File [] true)
      ∧ heap w' = heap locked_vault_world ++ [repeat x00 32].
Proof.
  apply (@file_variants_unreadable_input toy_primitives "/vault/doc.enc"
           "/vault/doc.txt" (mkEncryptOptions "test-password-123" None None)
           vault_metadata true "2026-01-15T10:30:00.000Z" [x2a]);
    first [ by vm_compute | vm_compute; lia ].
Defined.

Lemma encryptFileStream_progress_witness :
  ∃ metadata w' reports,
    @Encryption.encryptFileStream toy_primitives "/vault/plain.txt"
      "/vault/plain.txt.enc" (mkEncryptOptions "test-password-123" None None) true
      "2026-01-15T10:30:00.000Z" plain_vault_world
    = (Normal metadata, w')
    ∧ trace w' = trace plain_vault_world ++ EvDeriveKey :: reports
    ∧ reports
      = map (λ i, EvProgress (Nat.min ((i + 1) * Fs.READ_STREAM_CHUNK)
                                (length (utf8 "Test file content")))
                    (length (utf8 "Test file content")))
          (seq 0 ((length (utf8 "Test file content") + Fs.READ_STREAM_CHUNK - 1)
                  / Fs.READ_STREAM_CHUNK))
    ∧ Forall (λ ev, ∃ b, ev = EvProgress b (length (utf8 "Test file content"))
                         ∧ b ≤ length (utf8 "Test file content")) reports
    ∧ (utf8 "Test file content" ≠ [] →
       last reports = Some (EvProgress (length (utf8 "Test file content"))
                              (length (utf8 "Test file content"))))
    ∧ (utf8 "Test file content" = [] → reports = []).
Proof.
  apply (@encryptFileStream_progress toy_primitives "/vault/plain.txt"
           "/vault/plain.txt.enc" (mkEncryptOptions "test-password-123" None None));
    first [ by vm_compute | vm_compute; lia ].
Defined.

Lemma decryptFileStream_progress_witness :
  ∃ r w' reports,
    @Decryption.decryptFileStream toy_primitives "/vault/doc.enc" "/vault/doc.txt"
      vault_metadata "test-password-123" true vault_world
    = (r, w')
    ∧ trace w' = trace vault_world ++ EvDeriveKey :: reports
    ∧ Forall (λ ev, ∃ b, ev = EvProgress b (length [x2a]) ∧ b ≤ length [x2a]) reports
    ∧ ([x2a] ≠ [] → last reports = Some (EvProgress (length [x2a]) (length [x2a])))
    ∧ ([x2a] = [] → reports = []).
Proof.
  apply (@decryptFileStream_progress toy_primitives "/vault/doc.enc" "/vault/doc.txt"
           vault_metadata "test-password-123" [x2a]);
    first [ by vm_compute | vm_compute; lia ].
Defined.


(** ** Other spellings of base-64 text *)

Section base64_spellings.
Import Base64.
#[local] Arguments Base64.encode : simpl nomatch.







End base64_spellings.

#[local] Arguments Base64.encode : simpl never.

(** ** decryptBuffer on any text in the fields of a payload *)

Section payload_strings.
Context `{Primitives}.
Import Crypto.

(** The validator on a payload with all five fields, whose salt, iv and
    authTag are well-formed base-64 text of 16, 12 and 16 octets and whose
    cipherText is empty or well-formed: only the version is left to
    decide. *)
Lemma validatePayload_fields c s i t v w :
  c = "" ∨ Decryption.isValidBase64 c = true →
  Decryption.isValidBase64 s = true → Decryption.isValidBase64 i = true →
  Decryption.isValidBase64 t = true →
  length (Base64.decode s) = 16 → length (Base64.decode i) = 12 →
  length (Base64.decode t) = 16 →
  Decryption.validatePayload (mkPayload (Some c) (Some s) (Some i) (Some t) (Some v)) w
  = ((if bool_decide (v = ENCRYPTION_FORMAT_VERSION) then Normal tt
      else Throw (DecryptionError
                    ("Unsupported encryption version: " +:+ show_Z v +:+ " (expected "
                     +:+ show_Z ENCRYPTION_FORMAT_VERSION +:+ ")")
                    UNSUPPORTED_VERSION)), w).
Proof.
  intros Hc Hs Hi Ht Ls Li Lt. unfold Decryption.validatePayload.
  rewrite (bind_normal _ _ _ _ _ (check_required_present c s i t v w)).
  cbn [bind cipherText salt iv authTag version prop ret default].
  rewrite Hs, Hi, Ht. unfold Decryption.fromBase64. rewrite Ls, Li, Lt.
  assert ((0 <? String.length c) && negb (Decryption.isValidBase64 c) = false) as ->.
  { destruct Hc as [Hc|Hc]; rewrite Hc; [done|]. by rewrite andb_false_r. }
  cbn [negb Nat.eqb SALT_LENGTH_BYTES IV_LENGTH_BYTES GCM_AUTH_TAG_LENGTH_BYTES].
  case_bool_decide as Hv.
  - injection Hv as ->. by rewrite bool_decide_true.
  - rewrite bool_decide_false; [done|]. by intros ->.
Qed.



End payload_strings.

(** ** Wrong passwords and altered payloads *)


Section tag_gate.
Context `{Primitives}.
Import Crypto.






End tag_gate.

(** The scenario of the specification again, on the toy primitives. *)
Section tag_gate_run.
Import Crypto.
#[local] Existing Instance toy_primitives.


End tag_gate_run.


(** ** The version of a record at the four entry points *)

Section version_gate.
Context `{Primitives}.
Import Crypto.

(** C4 fails on the code.  Take a record that an encryption under
    [password] produces (ciphertext [c], 16-octet salt, 12-octet IV, the
    tag of [c]) and give it a version other than the supported one.
    [decryptBuffer] rejects it as UNSUPPORTED_VERSION with the world
    untouched, so before any key is derived.  [decryptBufferRaw],
    [decryptFile] and [decryptFileStream] never look at the version: each
    derives the key, and returns or writes the plaintext with
    [verified = true]. *)
Theorem unsupported_version_is_decrypted (c s i : Buffer) (v : Z)
    (password inputPath outputPath name mime stamp : string) (size : nat)
    (onProgress : bool) (w : World) :
  password ≠ "" → v ≠ ENCRYPTION_FORMAT_VERSION →
  length s = 16 → length i = 12 →
  Fs.node_at w inputPath = Some (File c true) →
  Fs.node_at w outputPath = None →
  Fs.node_at w (Path.dirname outputPath) = Some Dir →
  (∃ m,
     Decryption.decryptBuffer
       (mkPayload (Some (Decryption.toBase64 c)) (Some (Decryption.toBase64 s))
          (Some (Decryption.toBase64 i))
          (Some (Decryption.toBase64
                   (gcm_tag (pbkdf2 password s PBKDF2_ITERATIONS AES_KEY_LENGTH_BYTES)
                      i c)))
          (Some v)) password w
     = (Throw (DecryptionError m UNSUPPORTED_VERSION), w))
  ∧ (∃ w',
       Decryption.decryptBufferRaw
         (mkPayloadRaw c s i
            (gcm_tag (pbkdf2 password s PBKDF2_ITERATIONS AES_KEY_LENGTH_BYTES) i c) v)
         password w
       = (Normal (mkDecryptionResult
                    (ctr_xor (pbkdf2 password s PBKDF2_ITERATIONS AES_KEY_LENGTH_BYTES)
                       i 0 c) true), w')
       ∧ trace w' = trace w ++ [EvDeriveKey])
  ∧ (∃ w',
       Decryption.decryptFile inputPath outputPath
         (mkMetadata (Decryption.toBase64 s) (Decryption.toBase64 i)
            (Decryption.toBase64
               (gcm_tag (pbkdf2 password s PBKDF2_ITERATIONS AES_KEY_LENGTH_BYTES) i c))
            name mime size v stamp) password w
       = (Normal (mkDecryptFileResult outputPath name mime (length c) true), w')
       ∧ trace w' = trace w ++ [EvDeriveKey]
       ∧ Fs.node_at w' outputPath
         = Some (File (ctr_xor (pbkdf2 password s PBKDF2_ITERATIONS
                                  AES_KEY_LENGTH_BYTES) i 0 c) true))
  ∧ (∃ w' reports,
       Decryption.decryptFileStream inputPath outputPath
         (mkMetadata (Decryption.toBase64 s) (Decryption.toBase64 i)
            (Decryption.toBase64
               (gcm_tag (pbkdf2 password s PBKDF2_ITERATIONS AES_KEY_LENGTH_BYTES) i c))
            name mime size v stamp) password onProgress w
       = (Normal (mkDecryptFileResult outputPath name mime (length c) true), w')
       ∧ trace w' = trace w ++ EvDeriveKey :: reports
       ∧ Fs.node_at w' outputPath
         = Some (File (ctr_xor (pbkdf2 password s PBKDF2_ITERATIONS
                                  AES_KEY_LENGTH_BYTES) i 0 c) true)).
Proof.
  intros Hne Hv Hs Hi Hin Hout Hdir.
  set (key := pbkdf2 password s PBKDF2_ITERATIONS AES_KEY_LENGTH_BYTES).
  set (t := gcm_tag key i c).
  assert (s ≠ []) as Hs' by (by intros ->).
  assert (i ≠ []) as Hi' by (by intros ->).
  assert (length i ≤ 128) as Hmax by lia.
  destruct (node_at_none _ _ Hout) as [Hreg _].
  unfold Decryption.toBase64.
  split; [|split; [|split]].
  - eexists. unfold Decryption.decryptBuffer.
    rewrite (bind_normal _ _ _ _ _ (decryption_validatePassword_ok _ w Hne)).
    apply bind_throw.
    rewrite validatePayload_fields.
    + by rewrite bool_decide_false.
    + destruct (decide (c = [])) as [->|Hc]; [by left|right].
      rewrite isValidBase64_well_formed. by apply encode_well_formed.
    + rewrite isValidBase64_well_formed. by apply encode_well_formed.
    + rewrite isValidBase64_well_formed. by apply encode_well_formed.
    + rewrite isValidBase64_well_formed. apply encode_well_formed.
      intros E. apply (f_equal length) in E. unfold t in E.
      by rewrite length_gcm_tag in E.
    + by rewrite decode_encode.
    + by rewrite decode_encode.
    + rewrite decode_encode. apply length_gcm_tag.
  - eexists. rewrite decryptBufferRaw_run by done.
    cbn [raw_salt raw_iv raw_authTag raw_cipherBytes]. fold key t.
    rewrite bool_decide_false by (intros [?|?]; [done|lia]).
    rewrite bool_decide_true by done. by split.
  - eexists.
    rewrite (decryptFile_run inputPath outputPath _ password c w);
      cbn [meta_salt meta_iv meta_authTag meta_originalFileName meta_mimeType];
      unfold Decryption.fromBase64; rewrite ?decode_encode;
      [ | done | done | done | done | done | done | done ].
    fold key t. rewrite bool_decide_true by done.
    split; [reflexivity|]. split; [reflexivity|].
    rewrite node_at_regular by done. cbn [files]. apply lookup_insert_eq.
  - destruct (decryptFileStream_verified inputPath outputPath
                (mkMetadata (Base64.encode s) (Base64.encode i) (Base64.encode t)
                   name mime size v stamp) password onProgress c s i w)
      as (w' & Hrun & Hfiles & reports & Htrace);
      [ done | done | done | done | apply decode_encode | apply decode_encode
      | done | done | done | apply decode_encode | ].
    exists w', reports.
    split; [exact Hrun|]. split; [exact Htrace|].
    rewrite node_at_regular by done. rewrite Hfiles. apply lookup_insert_eq.
Qed.

End version_gate.

(** A record of version 2 in the small vault, on the toy primitives. *)
Section version_gate_run.
Import Crypto.
#[local] Existing Instance toy_primitives.

Lemma unsupported_version_is_decrypted_witness :
  (∃ m,
     Decryption.decryptBuffer
       (mkPayload (Some (Decryption.toBase64 [x2a]))
          (Some (Decryption.toBase64 (repeat x00 16)))
          (Some (Decryption.toBase64 (repeat x00 12)))
          (Some (Decryption.toBase64
                   (gcm_tag
                      (pbkdf2 "test-password-123" (repeat x00 16) PBKDF2_ITERATIONS
                         AES_KEY_LENGTH_BYTES)
                      (repeat x00 12) [x2a])))
          (Some 2%Z)) "test-password-123" vault_world
     = (Throw (DecryptionError m UNSUPPORTED_VERSION), vault_world))
  ∧ (∃ w',
       Decryption.decryptBufferRaw
         (mkPayloadRaw [x2a] (repeat x00 16) (repeat x00 12)
            (gcm_tag
               (pbkdf2 "test-password-123" (repeat x00 16) PBKDF2_ITERATIONS
                  AES_KEY_LENGTH_BYTES)
               (repeat x00 12) [x2a]) 2%Z)
         "test-password-123" vault_world
       = (Normal (mkDecryptionResult
                    (ctr_xor
                       (pbkdf2 "test-password-123" (repeat x00 16) PBKDF2_ITERATIONS
                          AES_KEY_LENGTH_BYTES)
                       (repeat x00 12) 0 [x2a]) true), w')
       ∧ trace w' = trace vault_world ++ [EvDeriveKey])
  ∧ (∃ w',
       Decryption.decryptFile "/vault/doc.enc" "/vault/doc.txt"
         (mkMetadata (Decryption.toBase64 (repeat x00 16))
            (Decryption.toBase64 (repeat x00 12))
            (Decryption.toBase64
               (gcm_tag
                  (pbkdf2 "test-password-123" (repeat x00 16) PBKDF2_ITERATIONS
                     AES_KEY_LENGTH_BYTES)
                  (repeat x00 12) [x2a]))
            "doc.txt" "text/plain" 1 2%Z "2026-01-15T10:30:00.000Z")
         "test-password-123" vault_world
       = (Normal (mkDecryptFileResult "/vault/doc.txt" "doc.txt" "text/plain"
                    (length [x2a]) true), w')
       ∧ trace w' = trace vault_world ++ [EvDeriveKey]
       ∧ Fs.node_at w' "/vault/doc.txt"
         = Some (File (ctr_xor
                         (pbkdf2 "test-password-123" (repeat x00 16) PBKDF2_ITERATIONS
                            AES_KEY_LENGTH_BYTES)
                         (repeat x00 12) 0 [x2a]) true))
  ∧ (∃ w' reports,
       Decryption.decryptFileStream "/vault/doc.enc" "/vault/doc.txt"
         (mkMetadata (Decryption.toBase64 (repeat x00 16))
            (Decryption.toBase64 (repeat x00 12))
            (Decryption.toBase64
               (gcm_tag
                  (pbkdf2 "test-password-123" (repeat x00 16) PBKDF2_ITERATIONS
                     AES_KEY_LENGTH_BYTES)
                  (repeat x00 12) [x2a]))
            "doc.txt" "text/plain" 1 2%Z "2026-01-15T10:30:00.000Z")
         "test-password-123" true vault_world
       = (Normal (mkDecryptFileResult "/vault/doc.txt" "doc.txt" "text/plain"
                    (length [x2a]) true), w')
       ∧ trace w' = trace vault_world ++ EvDeriveKey :: reports
       ∧ Fs.node_at w' "/vault/doc.txt"
         = Some (File (ctr_xor
                         (pbkdf2 "test-password-123" (repeat x00 16) PBKDF2_ITERATIONS
                            AES_KEY_LENGTH_BYTES)
                         (repeat x00 12) 0 [x2a]) true)).
Proof.
  apply (@unsupported_version_is_decrypted toy_primitives [x2a] (repeat x00 16)
           (repeat x00 12) 2 "test-password-123" "/vault/doc.enc" "/vault/doc.txt"
           "doc.txt" "text/plain" "2026-01-15T10:30:00.000Z" 1 true vault_world);
    first [ by vm_compute | vm_compute; lia ].
Defined.

End version_gate_run.

(** ** An IV that the cipher refuses, in the file variants *)

Section refused_iv.
Context `{Primitives}.
Import Crypto.

Lemma createDecipheriv_refused key iv w :
  length key = 32 → iv = [] ∨ 128 < length iv →
  createDecipheriv key iv w = (Throw (TypeError "Invalid initialization vector"), w).
Proof.
  intros Hk Hiv. unfold createDecipheriv. apply bind_throw.
  destruct Hiv as [->|Hiv]; [by apply check_key_iv_empty|by apply check_key_iv_long].
Qed.

(** X27: metadata whose IV the cipher refuses (no octets, or more than
    128).  [decryptFile] creates the decipher inside its [try] block: the
    error is reported as a [DecryptionError] UNKNOWN and the key Buffer is
    zeroed.  [decryptFileStream] creates it before any handler is in place:
    the [TypeError] of the runtime leaves the function as it is, and the
    Buffer of the derived key is not wiped.  Neither writes a file. *)
Theorem decryptFileStream_refused_iv (inputPath outputPath : string)
    (metadata : EncryptionMetadata) (password : string) (onProgress : bool)
    (cipherBytes : Buffer) (w : World) :
  password ≠ "" →
  Fs.node_at w inputPath = Some (File cipherBytes true) →
  Fs.node_at w outputPath = None →
  Decryption.fromBase64 (meta_salt metadata) ≠ [] →
  Decryption.fromBase64 (meta_iv metadata) = []
  ∨ 128 < length (Decryption.fromBase64 (meta_iv metadata)) →
  (∃ w1,
     Decryption.decryptFile inputPath outputPath metadata password w
     = (Throw (DecryptionError "Decryption failed: Invalid initialization vector"
                 UNKNOWN), w1)
     ∧ files w1 = files w
     ∧ heap w1 = heap w ++ [repeat x00 32])
  ∧ (∃ w2,
       Decryption.decryptFileStream inputPath outputPath metadata password onProgress w
       = (Throw (TypeError "Invalid initialization vector"), w2)
       ∧ files w2 = files w
       ∧ heap w2
         = heap w ++ [pbkdf2 password (Decryption.fromBase64 (meta_salt metadata))
                        PBKDF2_ITERATIONS AES_KEY_LENGTH_BYTES]).
Proof.
  intros Hne Hin Hout Hsalt Hiv.
  set (key := pbkdf2 password (Decryption.fromBase64 (meta_salt metadata))
                PBKDF2_ITERATIONS AES_KEY_LENGTH_BYTES).
  split.
  - eexists. split; [|split].
    + unfold Decryption.decryptFile.
      rewrite (bind_normal _ _ _ _ _ (decryption_validatePassword_ok _ w Hne)).
      erewrite bind_normal by by eapply check_input_file_ok.
      erewrite bind_normal by by apply readFileSync_ok.
      erewrite bind_normal by by apply decryption_deriveKey_ok.
      cbn [dk_key]. fold key.
      unfold Decryption.secureWipe.
      eapply try_finally_normal; [|apply fillBuffer_allocated].
      erewrite try_catch_throw.
      2: { erewrite bind_normal by apply readBuffer_allocated.
           apply bind_throw. apply createDecipheriv_refused; [|exact Hiv].
           apply length_pbkdf2. }
      erewrite bind_normal.
      2: { unfold Decryption.cleanup_output.
           erewrite bind_normal
             by (apply existsSync_missing; by rewrite (node_at_same_files _ w)).
           reflexivity. }
      cbn [instanceof_DecryptionError]. by rewrite classify_invalid_iv.
    + reflexivity.
    + cbn [heap]. unfold fill0, key. by rewrite length_pbkdf2.
  - eexists. split; [|split].
    + unfold Decryption.decryptFileStream.
      rewrite (bind_normal _ _ _ _ _ (decryption_validatePassword_ok _ w Hne)).
      erewrite bind_normal by by eapply check_input_file_ok.
      erewrite bind_normal by by apply decryption_deriveKey_ok.
      cbn [dk_key]. fold key.
      erewrite bind_normal by apply readBuffer_allocated.
      apply bind_throw. apply createDecipheriv_refused; [|exact Hiv].
      apply length_pbkdf2.
    + reflexivity.
    + reflexivity.
Qed.

End refused_iv.

Lemma decryptFileStream_refused_iv_witness :
  (∃ w1,
     @Decryption.decryptFile toy_primitives "/vault/doc.enc" "/vault/doc.txt"
       (mkMetadata "AAAAAAAAAAAAAAAAAAAAAA==" "" "AAAAAAAAAAAAAAAAAAAAAA=="
          "doc.txt" "text/plain" 1 1 "2026-01-15T10:30:00.000Z")
       "test-password-123" vault_world
     = (Throw (DecryptionError "Decryption failed: Invalid initialization vector"
                 UNKNOWN), w1)
     ∧ files w1 = files vault_world
     ∧ heap w1 = heap vault_world ++ [repeat x00 32])
  ∧ (∃ w2,
       @Decryption.decryptFileStream toy_primitives "/vault/doc.enc" "/vault/doc.txt"
         (mkMetadata "AAAAAAAAAAAAAAAAAAAAAA==" "" "AAAAAAAAAAAAAAAAAAAAAA=="
            "doc.txt" "text/plain" 1 1 "2026-01-15T10:30:00.000Z")
         "test-password-123" true vault_world
       = (Throw (TypeError "Invalid initialization vector"), w2)
       ∧ files w2 = files vault_world
       ∧ heap w2
         = heap vault_world
           ++ [@Crypto.pbkdf2 toy_primitives "test-password-123"
                 (Decryption.fromBase64 "AAAAAAAAAAAAAAAAAAAAAA==")
                 PBKDF2_ITERATIONS AES_KEY_LENGTH_BYTES]).
Proof.
  apply (@decryptFileStream_refused_iv toy_primitives "/vault/doc.enc" "/vault/doc.txt"
           (mkMetadata "AAAAAAAAAAAAAAAAAAAAAA==" "" "AAAAAAAAAAAAAAAAAAAAAA=="
              "doc.txt" "text/plain" 1 1 "2026-01-15T10:30:00.000Z")
           "test-password-123" true [x2a]);
    first [ by vm_compute | left; by vm_compute ].
Defined.
